(** * Verification of the demo capture script [scripts/demo/capture-demos.py]

    A shallow embedding of the capture-and-assembly pipeline of the script:
    the discovery helpers, the frame sink [snap], the resampling step of
    [capture_scenario], [write_gif], the try/except/finally structure of
    [capture_scenario] and [stitch_gifs], followed by the properties of the
    specification that concern them.  The image library's GIF writer is
    modelled as far as frame counts and durations go: it folds a frame into
    an identical one before it and keeps delays in hundredths of a second,
    so what a written animation holds differs from what the script hands
    over. *)

From Stdlib Require Import ZArith Lia Ascii String.
From Stdlib Require Import Floats.PrimFloat Floats.SpecFloat Floats.FloatOps.
From stdpp Require Import base option list strings pretty gmap.

Open Scope string_scope.
Open Scope list_scope.
Open Scope Z_scope.

(** ** Python values the script manipulates *)

(** A [pathlib.Path] is kept as its string; [a / b] joins two segments. *)
Abbreviation Path := string (only parsing).

Definition path_join (a b : Path) : Path := a +:+ "/" +:+ b.

(** The exceptions that occur in the modelled code.  [OtherError] stands for
    any further subclass of [Exception] the external libraries may raise,
    [BaseOnly] for the [BaseException]s that are not [Exception]s
    ([KeyboardInterrupt], [SystemExit]). *)
Inductive exn : Type :=
  | RuntimeError (msg : string)
  | IndexError
  | ZeroDivisionError
  | FileNotFoundError (p : Path)
  | UnidentifiedImageError (p : Path)
  | PlaywrightTimeoutError (msg : string)
  | OtherError (name : string)
  | BaseOnly (name : string).

(** [isinstance(e, Exception)] *)
Definition is_Exception (e : exn) : bool :=
  match e with
  | BaseOnly _ => false
  | _ => true
  end.

(** [isinstance(e, PlaywrightTimeoutError)] *)
Definition is_timeout (e : exn) : bool :=
  match e with
  | PlaywrightTimeoutError _ => true
  | _ => false
  end.

(** Outcome of a Python expression or statement that may raise. *)
Inductive result (A : Type) : Type :=
  | Ok (a : A)
  | Raise (e : exn).
Arguments Ok {A} a.
Arguments Raise {A} e.

Definition rbind {A B} (r : result A) (k : A → result B) : result B :=
  match r with
  | Ok a => k a
  | Raise e => Raise e
  end.

(** [len(l)] *)
Definition len {A} (l : list A) : Z := Z.of_nat (length l).

(** [l[i]] for a Python list: a negative index counts from the end, an index
    out of range raises [IndexError]. *)
Definition py_index {A} (l : list A) (i : Z) : result A :=
  let j := if i <? 0 then i + len l else i in
  if j <? 0 then Raise IndexError
  else match l !! Z.to_nat j with
       | Some x => Ok x
       | None => Raise IndexError
       end.

(** [range(n)] *)
Definition py_range (n : Z) : list Z := Z.of_nat <$> seq 0 (Z.to_nat n).

(** [[x] * n] : a list of [n] references to [x], empty when [n <= 0]. *)
Definition py_repeat {A} (x : A) (n : Z) : list A := replicate (Z.to_nat n) x.

(** [round(a / b)] for integers [a] and [b]: the true quotient rounded to the
    nearest integer, a tie going to the even neighbour.  Python computes the
    quotient as a correctly rounded double first; the double of [a / b] and
    the exact quotient round to the same integer as long as
    [|a| + |b| < 2^52], far beyond any number of frames. *)
Definition py_round_div (a b : Z) : result Z :=
  if b =? 0 then Raise ZeroDivisionError
  else
    let q := a / b in
    let r := a mod b in
    if 2 * Z.abs r <? Z.abs b then Ok q
    else if Z.abs b <? 2 * Z.abs r then Ok (q + 1)
    else if Z.even q then Ok q else Ok (q + 1).

(** ** The resampling step of [capture_scenario] *)

(** The body of [for i in range(target_frames)]: one nearest-index pick per
    output position, appended to [selected]. *)
Fixpoint select_loop (frame_paths : list Path) (last_index target_frames : Z)
    (positions : list Z) (selected : list Path) : result (list Path) :=
  match positions with
  | [] => Ok selected
  | i :: rest =>
      rbind (py_round_div (i * last_index) (target_frames - 1)) (λ idx,
      rbind (py_index frame_paths idx) (λ shot,
      select_loop frame_paths last_index target_frames rest (selected ++ [shot])))
  end.

(** [if frame_paths and len(frame_paths) > target_frames: ...] *)
Definition shrink (frame_paths : list Path) (target_frames : Z)
    : result (list Path) :=
  if bool_decide (frame_paths ≠ []) && (target_frames <? len frame_paths) then
    if target_frames =? 1 then
      rbind (py_index frame_paths (-1)) (λ shot, Ok [shot])
    else
      let last_index := len frame_paths - 1 in
      select_loop frame_paths last_index target_frames (py_range target_frames) []
  else Ok frame_paths.

(** [if frame_paths and len(frame_paths) < target_frames: frame_paths.extend(...)] *)
Definition pad (frame_paths : list Path) (target_frames : Z)
    : result (list Path) :=
  if bool_decide (frame_paths ≠ []) && (len frame_paths <? target_frames) then
    rbind (py_index frame_paths (-1)) (λ shot,
      Ok (frame_paths ++ py_repeat shot (target_frames - len frame_paths)))
  else Ok frame_paths.

(** The two [if] statements in sequence: what [capture_scenario] hands to
    [write_gif]. *)
Definition resample (frame_paths : list Path) (target_frames : Z)
    : result (list Path) :=
  rbind (shrink frame_paths target_frames) (λ frame_paths,
    pad frame_paths target_frames).

(** ** The image library and the files it reads and writes *)

(** Pillow is an external collaborator: the script only relies on decoding a
    file into its frames, on [convert("RGB")] and on a multi-frame save.  The
    GIF writer behind the save puts every frame on a palette and compares
    consecutive frames pixel by pixel. *)
Class ImageLib := {
  picture : Type;                       (* the pixels of one frame *)
  convert_rgb : picture → picture;      (* [img.convert("RGB")] *)
  to_palette : picture → picture;       (* the frame as the GIF writer stores it *)
  picture_eq_dec : EqDecision picture;  (* the same pixels *)
}.
#[global] Existing Instance picture_eq_dec.

Section Files.
Context `{ImageLib}.

(** One frame of an image file; [frame_duration] is the entry
    [info["duration"]] of the frame when the file carries one. *)
Record frame := Frame { frame_pic : picture; frame_duration : option Z }.

(** The content of a file.  A decodable image always has a first frame;
    anything else on disk ([Blob]: a video, a text file) is refused by
    [Image.open]. *)
Inductive file : Type :=
  | Blob (bytes : string)
  | Animation (first : frame) (more : list frame).

Definition frames_of (first : frame) (more : list frame) : list frame :=
  first :: more.

(** A screenshot: a still image, no duration. *)
Definition still (pic : picture) : file := Animation (Frame pic None) [].

(** [Image.open(path)]: the decoded frames, the image positioned on the
    first one. *)
Definition image_open (fs : gmap string file) (path : Path)
    : result (frame * list frame) :=
  match fs !! path with
  | None => Raise (FileNotFoundError path)
  | Some (Blob _) => Raise (UnidentifiedImageError path)
  | Some (Animation first more) => Ok (first, more)
  end.

(** The frames the GIF writer keeps, each with the time it is shown.  The
    writer walks through the frames it is handed; a frame with the same
    pixels as the one before it is not written again, its duration is added
    to that of the frame before.  [pic] and [duration] are the frame being
    built, [rest] the frames still to come. *)
Fixpoint gif_frames (pic : picture) (duration : Z) (rest : list frame)
    : (picture * Z) * list (picture * Z) :=
  match rest with
  | [] => ((pic, duration), [])
  | f :: rest =>
      let next := to_palette (frame_pic f) in
      let d := default 0 (frame_duration f) in
      if decide (next = pic) then gif_frames pic (duration + d) rest
      else
        let '(kept, more) := gif_frames next d rest in
        ((pic, duration), kept :: more)
  end.

(** A GIF stores the delay of a frame in hundredths of a second:
    [int(duration / 10)]; read back, the duration is ten times the delay. *)
Definition gif_delay (duration : Z) : Z := Z.quot duration 10.

(** The file the GIF writer produces from the frames it is handed.  A first
    frame with a delay of zero is written without a delay field and reads
    back with no duration at all.  The loss of colours on the palette is
    within [to_palette]; sizes and delays beyond 16 bits are not modelled. *)
Definition gif_encode (first : frame) (rest : list frame) : file :=
  let '((pic, d), more) :=
    gif_frames (to_palette (frame_pic first))
      (default 0 (frame_duration first)) rest in
  Animation
    (Frame pic (if gif_delay d =? 0 then None else Some (10 * gif_delay d)))
    ((λ kept : picture * Z, Frame kept.1 (Some (10 * gif_delay kept.2)))
       <$> more).

(** [first.save(output, save_all=True, append_images=rest, duration=...)]:
    the output holds what the GIF writer makes of the frames it is handed,
    which can be fewer frames than it was handed. *)
Definition image_save (output : Path) (first : frame) (rest : list frame)
    (fs : gmap string file) : gmap string file :=
  <[output := gif_encode first rest]> fs.

(** [[Image.open(path).convert("RGB") for path in frame_paths]] *)
Fixpoint open_all (fs : gmap string file) (frame_paths : list Path)
    : result (list picture) :=
  match frame_paths with
  | [] => Ok []
  | path :: rest =>
      rbind (image_open fs path) (λ img,
      rbind (open_all fs rest) (λ frames,
      Ok (convert_rgb (frame_pic img.1) :: frames)))
  end.

Definition write_gif (frame_paths : list Path) (output_path : Path)
    (frame_ms : Z) (fs : gmap string file) : result unit * gmap string file :=
  if bool_decide (frame_paths = []) then
    (Raise (RuntimeError "No frames captured for GIF output"), fs)
  else
    match open_all fs frame_paths with
    | Raise e => (Raise e, fs)
    | Ok frames =>
        match py_index frames 0 with
        | Raise e => (Raise e, fs)
        | Ok first =>
            let rest := drop 1 frames in
            let timed pic := Frame pic (Some frame_ms) in
            (Ok tt, image_save output_path (timed first) (timed <$> rest) fs)
        end
    end.

(** ** [stitch_gifs] *)

(** The [while True] loop over the frames of one opened image: the current
    frame is converted and appended, then [img.seek] moves on or raises
    [EOFError], which ends the loop. *)
Fixpoint decode_loop (default_duration_ms : Z) (current : frame)
    (remaining : list frame) (frames : list picture) (durations : list Z)
    : list picture * list Z :=
  let frames := frames ++ [convert_rgb (frame_pic current)] in
  let durations :=
    durations ++ [default default_duration_ms (frame_duration current)] in
  match remaining with
  | [] => (frames, durations)
  | next :: remaining =>
      decode_loop default_duration_ms next remaining frames durations
  end.

(** [for _ in range(separator_hold_frames)]: append a copy of [frames[-1]]. *)
Fixpoint hold_loop (default_duration_ms : Z) (ticks : list Z)
    (frames : list picture) (durations : list Z)
    : result (list picture * list Z) :=
  match ticks with
  | [] => Ok (frames, durations)
  | _ :: ticks =>
      rbind (py_index frames (-1)) (λ last_frame,
      hold_loop default_duration_ms ticks
        (frames ++ [last_frame]) (durations ++ [default_duration_ms]))
  end.

(** [for i, source in enumerate(sources)] *)
Fixpoint stitch_loop (fs : gmap string file) (n_sources : Z)
    (default_duration_ms separator_hold_frames : Z)
    (indexed : list (Z * Path)) (frames : list picture) (durations : list Z)
    : result (list picture * list Z) :=
  match indexed with
  | [] => Ok (frames, durations)
  | (i, source) :: indexed =>
      if bool_decide (fs !! source = None) then
        stitch_loop fs n_sources default_duration_ms separator_hold_frames
          indexed frames durations
      else
        rbind (image_open fs source) (λ img,
        let '(frames, durations) :=
          decode_loop default_duration_ms img.1 img.2 frames durations in
        rbind
          (if (0 <? separator_hold_frames) && (i <? n_sources - 1)
              && bool_decide (frames ≠ [])
           then hold_loop default_duration_ms (py_range separator_hold_frames)
                  frames durations
           else Ok (frames, durations)) (λ acc,
        stitch_loop fs n_sources default_duration_ms separator_hold_frames
          indexed acc.1 acc.2))
  end.

(** [enumerate(l)] *)
Definition py_enumerate {A} (l : list A) : list (Z * A) :=
  zip (py_range (len l)) l.

(** The frames and durations accumulated by the loop of [stitch_gifs]. *)
Definition stitch_frames (fs : gmap string file) (sources : list Path)
    (default_duration_ms separator_hold_frames : Z)
    : result (list picture * list Z) :=
  stitch_loop fs (len sources) default_duration_ms separator_hold_frames
    (py_enumerate sources) [] [].

Definition stitch_gifs (sources : list Path) (output : Path)
    (default_duration_ms separator_hold_frames : Z)
    (fs : gmap string file) : result unit * gmap string file :=
  match stitch_frames fs sources default_duration_ms separator_hold_frames with
  | Raise e => (Raise e, fs)
  | Ok (frames, durations) =>
      if bool_decide (frames = []) then (Ok tt, fs)
      else
        (* [frames] and [durations] grow together: one duration per frame *)
        match zip_with (λ pic d, Frame pic (Some d)) frames durations with
        | [] => (Raise IndexError, fs)
        | first :: rest => (Ok tt, image_save output first rest fs)
        end
  end.

End Files.

(** ** Discovery helpers *)

#[local] Set Warnings "-register-all".

(** What [json.load] returns: [None], [bool], [int], [float] (kept as its
    literal), [str], [list] and [dict] with string keys. *)
Inductive json : Type :=
  | JNull
  | JBool (b : bool)
  | JInt (n : Z)
  | JFloat (literal : string)
  | JStr (s : string)
  | JList (items : list json)
  | JDict (fields : gmap string json).

(** [c.isspace()] for a character below U+0100. *)
Definition py_isspace (c : ascii) : bool :=
  let n := Ascii.nat_of_ascii c in
  bool_decide (n ∈ [9; 10; 11; 12; 13; 28; 29; 30; 31; 32; 133; 160]%nat).

Fixpoint py_lstrip (s : string) : string :=
  match s with
  | EmptyString => EmptyString
  | String c rest => if py_isspace c then py_lstrip rest else s
  end.

(** [s.strip()] *)
Definition py_strip (s : string) : string :=
  String.rev (py_lstrip (String.rev (py_lstrip s))).

(** Truth value of a string: non-empty. *)
Definition str_truthy (s : string) : bool :=
  match s with
  | EmptyString => false
  | String _ _ => true
  end.

Definition fallback : string := "/workflows/wf_demo_claude_release".

Definition node_count (item : json) : Z :=
  match item with
  | JDict fields =>
      match fields !! "nodes" with
      | Some (JList nodes) => len nodes
      | _ => 0
      end
  | _ => 0
  end.

Definition generated_plan_score (item : json) : Z :=
  match item with
  | JDict fields =>
      match fields !! "generatedPlan" with
      | Some (JStr plan) => if str_truthy (py_strip plan) then 1 else 0
      | _ => 0
      end
  | _ => 0
  end.

Definition score (item : json) : Z * Z :=
  (generated_plan_score item, node_count item).

(** [a < b] on pairs of integers: Python compares tuples lexicographically. *)
Definition tuple_ltb (a b : Z * Z) : bool :=
  (a.1 <? b.1) || ((a.1 =? b.1) && (a.2 <? b.2)).

(** [max(items, key=key)]: the running maximum is replaced only by an item
    whose key is strictly greater, so the first maximal item is returned. *)
Fixpoint max_loop {A} (key : A → Z * Z) (best : A) (items : list A) : A :=
  match items with
  | [] => best
  | item :: items =>
      max_loop key (if tuple_ltb (key best) (key item) then item else best) items
  end.

(** The network, as seen by the helpers: what
    [json.load(urllib.request.urlopen(url))] yields for a URL. *)
Definition api := string → result json.

(** The last four lines of [resolve_workflow_route]: the route of the
    selected entry, the fallback when it has no usable [id]. *)
Definition route_of (best : json) : string :=
  match best with
  | JDict fields =>
      match fields !! "id" with
      | Some (JStr workflow_id) =>
          if str_truthy workflow_id then "/workflows/" +:+ workflow_id
          else fallback
      | _ => fallback
      end
  | _ => fallback
  end.

Definition resolve_workflow_route (fetch : api) (base_url : string)
    : result string :=
  match fetch (base_url +:+ "/api/workflows") with
  | Raise e => if is_Exception e then Ok fallback else Raise e
  | Ok data =>
      match data with
      | JList (first :: others) =>
          let best := max_loop score first others in
          Ok (route_of best)
      | _ => Ok fallback
      end
  end.

(** [urllib.parse.urlencode] of the four fixed query parameters. *)
Definition session_params : string :=
  "sortBy=modified_at&sortDir=DESC&limit=80&minMessages=1".

(** [for row in sessions: ...] *)
Fixpoint session_loop (count : Z) (rows : list json) (ids : list string)
    : list string :=
  match rows with
  | [] => ids
  | row :: rows =>
      match row with
      | JDict fields =>
          let ids :=
            match fields !! "id" with
            | Some (JStr sid) => if str_truthy sid then ids ++ [sid] else ids
            | _ => ids
            end in
          if count <=? len ids then ids else session_loop count rows ids
      | _ => session_loop count rows ids
      end
  end.

Definition resolve_session_ids (fetch : api) (base_url : string) (count : Z)
    : result (list string) :=
  match fetch (base_url +:+ "/api/sessions?" +:+ session_params) with
  | Raise e => if is_Exception e then Ok [] else Raise e
  | Ok data =>
      match data with
      | JDict fields =>
          match fields !! "sessions" with
          | Some (JList sessions) => Ok (session_loop count sessions [])
          | _ => Ok []
          end
      | _ => Ok []
      end
  end.

(** ** The browser automation engine *)

(** Playwright is an external collaborator.  [browser_state] is whatever the
    engine holds (browser, contexts, the live page); every call may change it
    and may raise.  [context_close_files] is what closing a context does to
    the file system (the recorded video is finalised then), [ffmpeg] the
    optional transcoder: from an argument list to a return code and its
    effect on the file system. *)
Class Engine `{ImageLib} := {
  browser_state : Type;
  browser_new_context : Path → browser_state → result unit * browser_state;
  context_add_provider_script :
    string → browser_state → result unit * browser_state;
  context_add_cursor_script : browser_state → result unit * browser_state;
  context_new_page : browser_state → result unit * browser_state;
  page_set_default_timeout : Z → browser_state → result unit * browser_state;
  page_goto : string → browser_state → result unit * browser_state;
  page_wait_for_timeout : Z → browser_state → result unit * browser_state;
  mouse_move : Z → Z → browser_state → result unit * browser_state;
  page_screenshot : browser_state → result picture * browser_state;
  page_video_path : browser_state → option Path;
  page_close_state : browser_state → browser_state;
  context_close_state : browser_state → browser_state;
  context_close_files : browser_state → gmap string file → gmap string file;
  ffmpeg : option (list string → gmap string file → Z * gmap string file);
}.

Section Orchestrator.
Context `{Engine}.

(** The state one call of [capture_scenario] works on: the file system, the
    engine, whether the page and the context the call created are open, and
    the locals [frame_paths], [frame_index] and [video_path]. *)
Record state := State {
  fs : gmap string file;
  browser : browser_state;
  page_open : bool;
  context_open : bool;
  frame_paths : list Path;
  frame_index : Z;
  video_path : option Path;
}.

(** Statements: they read and update the state and may raise; the state
    reached at the raise is kept. *)
Definition M (A : Type) : Type := state → result A * state.

Definition ret {A} (a : A) : M A := λ s, (Ok a, s).

Definition bind {A B} (m : M A) (k : A → M B) : M B := λ s,
  match m s with
  | (Ok a, s') => k a s'
  | (Raise e, s') => (Raise e, s')
  end.

Definition raise {A} (e : exn) : M A := λ s, (Raise e, s).

(** [try: body except <class>: handler] *)
Definition try_except {A} (body : M A) (catches : exn → bool)
    (handler : exn → M A) : M A := λ s,
  match body s with
  | (Ok a, s') => (Ok a, s')
  | (Raise e, s') => if catches e then handler e s' else (Raise e, s')
  end.

(** [try: body finally: final]: [final] runs in either case; an exception
    of [body] leaves once [final] is through. *)
Definition try_finally {A} (body : M A) (final : M unit) : M A := λ s,
  match body s with
  | (r, s') =>
      match final s' with
      | (Ok _, s'') => (r, s'')
      | (Raise e, s'') => (Raise e, s'')
      end
  end.

End Orchestrator.

Declare Scope py_scope.
Delimit Scope py_scope with py.
Notation "x <- m ;; k" := (bind m (λ x, k))
  (at level 100, m at next level, right associativity) : py_scope.
Notation "m ;; k" := (bind m (λ _, k))
  (at level 100, right associativity) : py_scope.

Section Capture.
Context `{Engine}.
Local Open Scope py_scope.

Definition set_fs (f : gmap string file) (s : state) : state :=
  State f (browser s) (page_open s) (context_open s)
        (frame_paths s) (frame_index s) (video_path s).
Definition set_browser (b : browser_state) (s : state) : state :=
  State (fs s) b (page_open s) (context_open s)
        (frame_paths s) (frame_index s) (video_path s).
Definition set_page_open (o : bool) (s : state) : state :=
  State (fs s) (browser s) o (context_open s)
        (frame_paths s) (frame_index s) (video_path s).
Definition set_context_open (o : bool) (s : state) : state :=
  State (fs s) (browser s) (page_open s) o
        (frame_paths s) (frame_index s) (video_path s).
Definition set_frame_paths (l : list Path) (s : state) : state :=
  State (fs s) (browser s) (page_open s) (context_open s)
        l (frame_index s) (video_path s).
Definition set_frame_index (i : Z) (s : state) : state :=
  State (fs s) (browser s) (page_open s) (context_open s)
        (frame_paths s) i (video_path s).
Definition set_video_path (v : option Path) (s : state) : state :=
  State (fs s) (browser s) (page_open s) (context_open s)
        (frame_paths s) (frame_index s) v.

Definition get : M state := λ s, (Ok s, s).
Definition modify (f : state → state) : M unit := λ s, (Ok tt, f s).

(** A call into the engine. *)
Definition engine_call {A} (op : browser_state → result A * browser_state)
    : M A := λ s,
  let '(r, b) := op (browser s) in (r, set_browser b s).

(** A pure computation that may raise. *)
Definition lift_result {A} (r : result A) : M A := λ s, (r, s).

(** A function on the file system that may raise. *)
Definition lift_fs {A}
    (f : gmap string file → result A * gmap string file) : M A := λ s,
  let '(r, f') := f (fs s) in (r, set_fs f' s).

(** [f"{n:04d}"]: decimal, zero-padded to four characters, the sign
    included. *)
Fixpoint zeros (n : nat) : string :=
  match n with
  | O => EmptyString
  | S n => String "0" (zeros n)
  end.

Definition zfill (width : nat) (s : string) : string :=
  zeros (width - String.length s) +:+ s.

Definition format_04d (n : Z) : string :=
  if n <? 0 then "-" +:+ zfill 3 (pretty (- n)) else zfill 4 (pretty n).

(** [frames_dir / f"{frame_index:04d}.png"] *)
Definition shot_path (frames_dir : Path) (frame_index : Z) : Path :=
  path_join frames_dir (format_04d frame_index +:+ ".png").

Record Scenario := {
  key : string;
  title : string;
  route : string;
  runner : (Z → M unit) → M unit;   (* handed the page and [snap] *)
}.

Definition new_page (video_dir : Path) (provider : string) : M unit :=
  engine_call (browser_new_context video_dir) ;;
  modify (set_context_open true) ;;
  engine_call (context_add_provider_script provider) ;;
  engine_call context_add_cursor_script ;;
  engine_call context_new_page ;;
  modify (set_page_open true) ;;
  engine_call (page_set_default_timeout 18000).

(** The closure [snap] of [capture_scenario]. *)
Definition snap (frames_dir : Path) (duplication : Z) : M unit :=
  s <- get ;;
  let shot := shot_path frames_dir (frame_index s) in
  pic <- engine_call page_screenshot ;;
  modify (λ s, set_fs (<[shot := still pic]> (fs s)) s) ;;
  modify (λ s, set_frame_paths
                 (frame_paths s ++ py_repeat shot (Z.max duplication 1)) s) ;;
  modify (λ s, set_frame_index (frame_index s + 1) s).

(** The body of the [try] statement. *)
Definition run_script (base_url : string) (frames_dir : Path)
    (scenario : Scenario) : M unit :=
  engine_call (page_goto (base_url +:+ route scenario)) ;;
  engine_call (page_wait_for_timeout 850) ;;
  engine_call (mouse_move 140 120) ;;
  engine_call (page_wait_for_timeout 60) ;;
  snap frames_dir 6 ;;
  runner scenario (snap frames_dir) ;;
  engine_call (page_wait_for_timeout 300) ;;
  snap frames_dir 5.

Definition timed_out_message (scenario : Scenario) : string :=
  "Scenario '" +:+ key scenario +:+ "' timed out".

(** The [finally] block.  The engine's close calls and the read of
    [page.video] are taken not to raise. *)
Definition cleanup : M unit :=
  modify (λ s, set_page_open false (set_browser (page_close_state (browser s)) s)) ;;
  modify (λ s, set_video_path (page_video_path (browser s)) s) ;;
  modify (λ s, set_context_open false
                 (set_fs (context_close_files (browser s) (fs s))
                    (set_browser (context_close_state (browser s)) s))).

Definition guarded_script (base_url : string) (frames_dir : Path)
    (scenario : Scenario) : M unit :=
  try_finally
    (try_except (run_script base_url frames_dir scenario) is_timeout
       (λ _, raise (RuntimeError (timed_out_message scenario))))
    cleanup.

Definition maybe_convert_webm_to_mp4 (webm_path mp4_path : Path) : M bool :=
  match ffmpeg with
  | None => ret false
  | Some run =>
      s <- get ;;
      let '(returncode, files) :=
        run ["-y"; "-i"; webm_path; "-movflags"; "+faststart";
             "-pix_fmt"; "yuv420p"; mp4_path] (fs s) in
      modify (set_fs files) ;;
      ret ((returncode =? 0) && bool_decide (is_Some (files !! mp4_path)))
  end.

(** [max(1, math.ceil((target_seconds * 1000) / frame_ms))], given the value
    [ceil_frames] that [math.ceil] returned.  A zero [frame_ms] raises.  The
    floating-point computation of the ceiling, which raises for a
    [target_seconds] that is not finite, is [ceil_frames_of] below;
    [resample_and_write_seconds] and [capture_scenario_seconds] start from
    [target_seconds]. *)
Definition target_frames_of (frame_ms ceil_frames : Z) : result Z :=
  if frame_ms =? 0 then Raise ZeroDivisionError else Ok (Z.max 1 ceil_frames).

(** From [gif_path = ...] to [write_gif(...)]: resample the captured frames
    and write the animation. *)
Definition resample_and_write (out_dir : Path) (scenario : Scenario)
    (frame_ms ceil_frames : Z) : M unit :=
  let gif_path := path_join out_dir (key scenario +:+ ".gif") in
  target_frames <- lift_result (target_frames_of frame_ms ceil_frames) ;;
  s <- get ;;
  resampled <- lift_result (resample (frame_paths s) target_frames) ;;
  modify (set_frame_paths resampled) ;;
  lift_fs (write_gif resampled gif_path frame_ms).

(** [if video_path and video_path.exists(): ...] *)
Definition copy_video (out_dir : Path) (scenario : Scenario) : M unit :=
  let webm_path := path_join out_dir (key scenario +:+ ".webm") in
  s <- get ;;
  match video_path s with
  | Some raw =>
      match fs s !! raw with
      | Some content =>
          modify (λ s, set_fs (<[webm_path := content]> (fs s)) s) ;;
          let mp4_path := path_join out_dir (key scenario +:+ ".mp4") in
          _ <- maybe_convert_webm_to_mp4 webm_path mp4_path ;;
          ret tt
      | None => ret tt
      end
  | None => ret tt
  end.

(** [capture_scenario]; the two [mkdir] calls are left out, directories not
    being part of the modelled file system. *)
Definition capture_scenario (base_url : string) (out_dir : Path)
    (provider : string) (scenario : Scenario) (frame_ms ceil_frames : Z)
    : M unit :=
  let frames_dir := path_join (path_join out_dir "_frames") (key scenario) in
  let video_dir := path_join out_dir "_raw-video" in
  modify (set_frame_paths []) ;;
  modify (set_frame_index 0) ;;
  new_page video_dir provider ;;
  guarded_script base_url frames_dir scenario ;;
  resample_and_write out_dir scenario frame_ms ceil_frames ;;
  copy_video out_dir scenario.

End Capture.

(** ** Definitions used to state the properties *)

Section Reel.
Context `{ImageLib}.

(** One clip as the stitcher decodes it: every frame converted, with its own
    duration or the default one. *)
Definition decoded (default_duration_ms : Z) (clip : frame * list frame)
    : list frame :=
  (λ f, Frame (convert_rgb (frame_pic f))
              (Some (default default_duration_ms (frame_duration f))))
    <$> frames_of clip.1 clip.2.

(** The pause after a clip: [k] copies of its last frame, shown for the
    default duration. *)
Definition separator (k : nat) (default_duration_ms : Z) (clip : list frame)
    : list frame :=
  match last clip with
  | Some f => replicate k (Frame (frame_pic f) (Some default_duration_ms))
  | None => []
  end.

(** The reel of the specification: the clips in order, a separator after
    each clip except the final one. *)
Fixpoint reel (k : nat) (default_duration_ms : Z)
    (clips : list (frame * list frame)) : list frame :=
  match clips with
  | [] => []
  | clip :: clips =>
      decoded default_duration_ms clip
      ++ match clips with
         | [] => []
         | _ :: _ =>
             separator k default_duration_ms (decoded default_duration_ms clip)
         end
      ++ reel k default_duration_ms clips
  end.

(** The two accumulators of [stitch_gifs], read off one list of frames. *)
Definition pics (acc : list frame) : list picture := frame_pic <$> acc.
Definition durs (d : Z) (acc : list frame) : list Z :=
  (λ f, default d (frame_duration f)) <$> acc.

(** A frame that carries a duration, as every frame of a reel does. *)
Definition timed (f : frame) : Prop := is_Some (frame_duration f).

(** Number of frames a clip decodes to. *)
Definition clip_frames (clip : frame * list frame) : nat :=
  length (frames_of clip.1 clip.2).

End Reel.

(** A discovery endpoint is unusable when the fetch raises or the payload has
    not the shape the helper expects: a non-empty list of workflows, a
    dictionary with a list under [sessions]. *)
Definition workflows_unusable (r : result json) : Prop :=
  match r with
  | Raise e => is_Exception e = true
  | Ok (JList (_ :: _)) => False
  | Ok _ => True
  end.

Definition sessions_unusable (r : result json) : Prop :=
  match r with
  | Raise e => is_Exception e = true
  | Ok (JDict fields) =>
      match fields !! "sessions" with
      | Some (JList _) => False
      | _ => True
      end
  | Ok _ => True
  end.

(** [a <= b] on pairs, lexicographically. *)
Definition tuple_le (a b : Z * Z) : Prop :=
  a.1 < b.1 ∨ (a.1 = b.1 ∧ a.2 ≤ b.2).

(** [needle in haystack] on strings. *)
Definition contains (haystack needle : string) : Prop :=
  ∃ before after, haystack = before +:+ needle +:+ after.

(** A decimal numeral without padding: ["0"], or a first digit that is not
    zero. *)
Definition canonical (s : string) : Prop :=
  s = "0" ∨ ∃ c rest, s = String c rest ∧ c ≠ "0"%char.

Section SinkInvariant.
Context `{Engine}.

(** What holds of the frame sink between two calls of [snap]: the index is
    not negative and every recorded path is the shot of an earlier index. *)
Definition sink_inv (frames_dir : Path) (s : state) : Prop :=
  0 ≤ frame_index s
  ∧ ∀ p, p ∈ frame_paths s →
      ∃ j, 0 ≤ j < frame_index s ∧ p = shot_path frames_dir j.

End SinkInvariant.

(** ** Mock data to run the model on *)

(** A JSON object written as its list of members (the keys are distinct). *)
Definition obj (members : list (string * json)) : json :=
  JDict (list_to_map members).

(** A workflow list in which the entry with a generated plan has fewer nodes
    than the entry without one. *)
Definition mock_workflows : json :=
  JList [ obj [("id", JStr "wf_big");
               ("nodes", JList [JNull; JNull; JNull])];
          obj [("id", JStr "wf_planned");
               ("nodes", JList [JNull]);
               ("generatedPlan", JStr "1. build 2. test")] ].

Definition mock_api : api := λ url,
  if String.eqb url "http://127.0.0.1:3000/api/workflows"
  then Ok mock_workflows
  else Raise (OtherError "URLError").

(** An application that cannot be reached. *)
Definition unreachable_api : api := λ _, Raise (OtherError "URLError").

(** ** A small engine and image library to run the model on *)

Inductive toy_mode : Type := Palette | Rgb.

Definition toy_mode_eq_dec : EqDecision toy_mode := ltac:(solve_decision).
#[global] Existing Instance toy_mode_eq_dec.

(** A toy picture is its colour mode and the number of the scene it shows;
    two pictures have the same pixels when both agree. *)
Definition toy_pictures : ImageLib :=
  {| picture := toy_mode * nat;
     convert_rgb := λ p, (Rgb, p.2);
     to_palette := λ p, (Palette, p.2);
     picture_eq_dec := _ |}.

(** The engine counts its screenshots; [goto_outcome] is what navigation
    does, [video] the recording it keeps. *)
Definition toy_engine (goto_outcome : result unit) (video : option Path)
    : @Engine toy_pictures :=
  {| browser_state := nat;
     browser_new_context := λ _ b, (Ok tt, b);
     context_add_provider_script := λ _ b, (Ok tt, b);
     context_add_cursor_script := λ b, (Ok tt, b);
     context_new_page := λ b, (Ok tt, b);
     page_set_default_timeout := λ _ b, (Ok tt, b);
     page_goto := λ _ b, (goto_outcome, b);
     page_wait_for_timeout := λ _ b, (Ok tt, b);
     mouse_move := λ _ _ b, (Ok tt, b);
     page_screenshot := λ b, (Ok ((Palette, b) : @picture toy_pictures), S b);
     page_video_path := λ _, video;
     page_close_state := λ b, b;
     context_close_state := λ b, b;
     context_close_files := λ _ files,
       match video with
       | Some p => <[p := Blob "webm"]> files
       | None => files
       end;
     ffmpeg := None |}.

(** Two clips on disk: two frames (the second without a duration), and one
    frame. *)
Definition clip_a : @frame toy_pictures * list (@frame toy_pictures) :=
  (Frame ((Palette, 1%nat) : @picture toy_pictures) (Some 150),
   [Frame ((Palette, 2%nat) : @picture toy_pictures) None]).

Definition clip_b : @frame toy_pictures * list (@frame toy_pictures) :=
  (Frame ((Palette, 3%nat) : @picture toy_pictures) (Some 100), []).

Definition mock_files : gmap string (@file toy_pictures) :=
  <["out/a.gif" := Animation clip_a.1 clip_a.2]>
    (<["out/b.gif" := Animation clip_b.1 clip_b.2]> ∅).

Definition calm_engine : @Engine toy_pictures := toy_engine (Ok tt) None.

Definition stalled_engine : @Engine toy_pictures :=
  toy_engine (Raise (PlaywrightTimeoutError "Timeout 18000ms exceeded")) None.

Definition toy_state (E : @Engine toy_pictures) (b : @browser_state _ E)
    : @state _ E :=
  State ∅ b false false [] 0 None.

(** A scenario whose runner holds once for three ticks. *)
Definition toy_scenario (E : @Engine toy_pictures) : @Scenario _ E :=
  {| key := "routing-demo"; title := "Routing graph analysis";
     route := "/routing"; runner := λ hold, hold 3 |}.

(** ** The reel assets: [stitch_webm_ffmpeg] and [build_demo_reels] *)

Section Reels.
Context `{Engine}.
Local Open Scope py_scope.

(** ["".join(f"[{i}:v]" for i in range(n))] *)
Definition stream_concat (n : Z) : string :=
  String.concat "" ((λ i : Z, "[" +:+ pretty i +:+ ":v]") <$> py_range n).

(** The argument list handed to the transcoder (the executable itself left
    out, as in [maybe_convert_webm_to_mp4]). *)
Definition concat_command (available : list Path) (output : Path)
    : list string :=
  ["-y"]
  ++ concat ((λ source, ["-i"; source]) <$> available)
  ++ ["-filter_complex";
      stream_concat (len available) +:+ "concat=n=" +:+ pretty (len available)
        +:+ ":v=1:a=0[v]";
      "-map"; "[v]"; "-pix_fmt"; "yuv420p"; output].

Definition stitch_webm_ffmpeg (sources : list Path) (output : Path) : M bool :=
  match ffmpeg with
  | None => ret false
  | Some run =>
      s <- get ;;
      let available := filter (λ source, is_Some (fs s !! source)) sources in
      if bool_decide (available = []) then ret false
      else
        let '(returncode, files) := run (concat_command available output) (fs s) in
        modify (set_fs files) ;;
        ret ((returncode =? 0) && bool_decide (is_Some (files !! output)))
  end.

Definition build_demo_reels (out_dir : Path) (scenario_keys : list string)
    (frame_ms : Z) : M unit :=
  let gif_sources := (λ key, path_join out_dir (key +:+ ".gif")) <$> scenario_keys in
  let webm_sources := (λ key, path_join out_dir (key +:+ ".webm")) <$> scenario_keys in
  lift_fs (stitch_gifs gif_sources (path_join out_dir "demo-back-to-back.gif")
             frame_ms 0) ;;
  lift_fs (stitch_gifs gif_sources (path_join out_dir "demo-stitched.gif")
             frame_ms 6) ;;
  stitched <- stitch_webm_ffmpeg webm_sources
                (path_join out_dir "demo-back-to-back.webm") ;;
  if stitched : bool then
    _ <- maybe_convert_webm_to_mp4 (path_join out_dir "demo-back-to-back.webm")
           (path_join out_dir "demo-back-to-back.mp4") ;;
    ret tt
  else ret tt.

End Reels.

(** ** The click helpers of the scenario scripts *)

(** A bounding box as the engine reports it: four Python floats, here
    IEEE 754 binary64 numbers. *)
Record box := Box {
  box_x : float;
  box_y : float;
  box_width : float;
  box_height : float;
}.

(** [VIEWPORT] *)
Definition viewport_width : float := 1600%float.
Definition viewport_height : float := 900%float.

(** Element handles of the engine. *)
Class Locators `{Engine} := {
  locator : Type;
  locator_count : locator → browser_state → result Z * browser_state;
  locator_bounding_box :
    locator → browser_state → result (option box) * browser_state;
  locator_click : locator → browser_state → result unit * browser_state;
  mouse_move_steps :
    float → float → Z → browser_state → result unit * browser_state;
}.

Section Clicks.
Context `{Locators}.
Local Open Scope py_scope.

Definition _human_click (target : locator) (hold : Z → M unit) (after : Z)
    : M bool :=
  n <- engine_call (locator_count target) ;;
  if n =? 0 then ret false
  else
    found <- engine_call (locator_bounding_box target) ;;
    match found with
    | Some b =>
        let cx := (box_x b + box_width b * 0.5)%float in
        let cy := (box_y b + box_height b * 0.5)%float in
        engine_call (mouse_move_steps cx cy 16) ;;
        engine_call (page_wait_for_timeout 80)
    | None => ret tt
    end ;;
    engine_call (locator_click target) ;;
    engine_call (page_wait_for_timeout 130) ;;
    hold after ;;
    ret true.

(** The two geometric tests of [_click_if_in_view]. *)
Definition out_of_view (b : box) : bool :=
  let right := (box_x b + box_width b)%float in
  let bottom := (box_y b + box_height b)%float in
  ((right <? 0)%float || (bottom <? 0)%float)
  || ((viewport_width <? box_x b)%float || (viewport_height <? box_y b)%float).

Definition _click_if_in_view (target : locator) (hold : Z → M unit) (after : Z)
    : M bool :=
  n <- engine_call (locator_count target) ;;
  if n =? 0 then ret false
  else
    found <- engine_call (locator_bounding_box target) ;;
    match found with
    | None => ret false
    | Some b =>
        if out_of_view b then ret false
        else _human_click target hold after
    end.

End Clicks.

(** ** Further definitions used to state properties *)

(** The identifiers [resolve_session_ids] accepts, in order: the non-empty
    string [id] of every row that is a dictionary. *)
Definition session_id (row : json) : option string :=
  match row with
  | JDict fields =>
      match fields !! "id" with
      | Some (JStr sid) => if str_truthy sid then Some sid else None
      | _ => None
      end
  | _ => None
  end.

Definition valid_session_ids (rows : list json) : list string :=
  omap session_id rows.

(** [a < b] on pairs, lexicographically. *)
Definition tuple_lt (a b : Z * Z) : Prop :=
  a.1 < b.1 ∨ (a.1 = b.1 ∧ a.2 < b.2).

(** Whether a string has a character that is not whitespace. *)
Fixpoint has_visible (s : string) : bool :=
  match s with
  | EmptyString => false
  | String c rest => negb (py_isspace c) || has_visible rest
  end.

Section MoreReel.
Context `{ImageLib}.

(** A path the image library can open. *)
Definition decodable (files : gmap string file) (path : Path) : Prop :=
  ∃ first more, files !! path = Some (Animation first more).

(** A source as [stitch_gifs] finds it: missing, or a clip. *)
Definition source_is (files : gmap string file) (source : Path)
    (found : option (frame * list frame)) : Prop :=
  match found with
  | None => files !! source = None
  | Some clip => files !! source = Some (Animation clip.1 clip.2)
  end.

(** The reel when some sources are missing: a missing source contributes
    nothing; a clip is followed by a separator unless it stands at the last
    position of the source list. *)
Fixpoint reel_with_gaps (k : nat) (default_duration_ms : Z)
    (found : list (option (frame * list frame))) : list frame :=
  match found with
  | [] => []
  | item :: found =>
      match item with
      | None => []
      | Some clip =>
          decoded default_duration_ms clip
          ++ match found with
             | [] => []
             | _ :: _ =>
                 separator k default_duration_ms
                   (decoded default_duration_ms clip)
             end
      end
      ++ reel_with_gaps k default_duration_ms found
  end.

End MoreReel.

Section MoreSink.
Context `{Engine}.

(** Every recorded frame path holds a screenshot. *)
Definition frames_on_disk (s : state) : Prop :=
  ∀ p, p ∈ frame_paths s → ∃ pic, fs s !! p = Some (still pic).

(** Two states with the same sink: what [snap] records is unchanged. *)
Definition same_sink (s s' : state) : Prop :=
  frame_paths s' = frame_paths s ∧ frame_index s' = frame_index s
  ∧ fs s' = fs s.

End MoreSink.

(** Elements for the toy engine: a locator is the number of matches and the
    box of the first one. *)
Definition toy_locators (E : @Engine toy_pictures) : @Locators _ E :=
  {| locator := Z * option box;
     locator_count := λ target b, (Ok target.1, b);
     locator_bounding_box := λ target b, (Ok target.2, b);
     locator_click := λ _ b, (Ok tt, b);
     mouse_move_steps := λ _ _ _ b, (Ok tt, b) |}.

(** An engine that cannot take screenshots, and one that fails while the
    context is being prepared. *)
Definition blind_engine : @Engine toy_pictures :=
  {| browser_state := nat;
     browser_new_context := λ _ b, (Ok tt, b);
     context_add_provider_script := λ _ b, (Ok tt, b);
     context_add_cursor_script := λ b, (Ok tt, b);
     context_new_page := λ b, (Ok tt, b);
     page_set_default_timeout := λ _ b, (Ok tt, b);
     page_goto := λ _ b, (Ok tt, b);
     page_wait_for_timeout := λ _ b, (Ok tt, b);
     mouse_move := λ _ _ b, (Ok tt, b);
     page_screenshot := λ b, (Raise (OtherError "Error"), b);
     page_video_path := λ _, None;
     page_close_state := λ b, b;
     context_close_state := λ b, b;
     context_close_files := λ _ files, files;
     ffmpeg := None |}.

Definition crashing_engine : @Engine toy_pictures :=
  {| browser_state := nat;
     browser_new_context := λ _ b, (Ok tt, b);
     context_add_provider_script := λ _ b, (Ok tt, b);
     context_add_cursor_script := λ b, (Ok tt, b);
     context_new_page := λ b, (Raise (OtherError "Error"), b);
     page_set_default_timeout := λ _ b, (Ok tt, b);
     page_goto := λ _ b, (Ok tt, b);
     page_wait_for_timeout := λ _ b, (Ok tt, b);
     mouse_move := λ _ _ b, (Ok tt, b);
     page_screenshot := λ b, (Ok ((Palette, b) : @picture toy_pictures), S b);
     page_video_path := λ _, None;
     page_close_state := λ b, b;
     context_close_state := λ b, b;
     context_close_files := λ _ files, files;
     ffmpeg := None |}.

(** An engine that records a video. *)
Definition filming_engine : @Engine toy_pictures :=
  toy_engine (Ok tt) (Some "out/_raw-video/page.webm").

(** The state once the context of [filming_engine] is closed: the recording
    is on disk. *)
Definition filmed_state : @state _ filming_engine :=
  @State _ filming_engine (<["out/_raw-video/page.webm" := Blob "webm"]> ∅)
    0%nat false false [] 0 (Some "out/_raw-video/page.webm").

Section GapCounts.
Context `{ImageLib}.

(** The frames of the sources that were found. *)
Definition present_frames (found : list (option (frame * list frame))) : nat :=
  sum_list (clip_frames <$> omap id found).

(** How many sources were found at a position other than the last one. *)
Definition present_before_last (found : list (option (frame * list frame)))
    : nat :=
  length (omap id (take (length found - 1) found)).

End GapCounts.

(** The clips of two scenarios [a] and [b] on disk, for the toy engine. *)
Definition reel_state : @state _ calm_engine :=
  @State _ calm_engine mock_files 0%nat false false [] 0 None.

(** An element far to the right of the viewport, and one inside it. *)
Definition box_outside : box := Box 1700 40 120 30.
Definition box_inside : box := Box 800 40 120 30.

(** An engine with a transcoder that writes its last argument and ends with
    the given return code. *)
Definition transcoding_engine (returncode : Z) : @Engine toy_pictures :=
  {| browser_state := nat;
     browser_new_context := λ _ b, (Ok tt, b);
     context_add_provider_script := λ _ b, (Ok tt, b);
     context_add_cursor_script := λ b, (Ok tt, b);
     context_new_page := λ b, (Ok tt, b);
     page_set_default_timeout := λ _ b, (Ok tt, b);
     page_goto := λ _ b, (Ok tt, b);
     page_wait_for_timeout := λ _ b, (Ok tt, b);
     mouse_move := λ _ _ b, (Ok tt, b);
     page_screenshot := λ b, (Ok ((Palette, b) : @picture toy_pictures), S b);
     page_video_path := λ _, None;
     page_close_state := λ b, b;
     context_close_state := λ b, b;
     context_close_files := λ _ files, files;
     ffmpeg := Some (λ args files,
       (returncode,
        match last args with
        | Some output => <[output := Blob "mp4"]> files
        | None => files
        end)) |}.

(** ** The frame budget, from [target_seconds] *)

(** [float(n)] for an [int], as the division does it to its second operand:
    the nearest double, a tie going to the even neighbour; an integer beyond
    the doubles raises [OverflowError]. *)
Definition py_float_of_int (n : Z) : result float :=
  let x := SF2Prim (binary_normalize prec emax n 0 false) in
  if is_infinity x then Raise (OtherError "OverflowError") else Ok x.

(** [math.ceil(x)]: the least integer that is not below [x]; an infinity
    raises [OverflowError], a NaN raises [ValueError]. *)
Definition py_ceil (x : float) : result Z :=
  match Prim2SF x with
  | S754_zero _ => Ok 0
  | S754_infinity _ => Raise (OtherError "OverflowError")
  | S754_nan => Raise (OtherError "ValueError")
  | S754_finite negative m e =>
      let numerator := (if negative then Z.neg m else Z.pos m) * 2 ^ Z.max 0 e in
      let denominator := 2 ^ Z.max 0 (- e) in
      Ok (- ((- numerator) / denominator))
  end.

(** [math.ceil((target_seconds * 1000) / frame_ms)] for the float
    [target_seconds] and the integer [frame_ms] of the command line. *)
Definition ceil_frames_of (target_seconds : float) (frame_ms : Z) : result Z :=
  rbind (py_float_of_int frame_ms) (λ divisor,
    if frame_ms =? 0 then Raise ZeroDivisionError
    else py_ceil ((target_seconds * 1000) / divisor)%float).

Section CaptureSeconds.
Context `{Engine}.
Local Open Scope py_scope.

(** The resample-and-write step from [target_seconds]: the ceiling is
    computed first, and an exception of it leaves before any frame is
    touched. *)
Definition resample_and_write_seconds (out_dir : Path) (scenario : Scenario)
    (frame_ms : Z) (target_seconds : float) : M unit :=
  ceil_frames <- lift_result (ceil_frames_of target_seconds frame_ms) ;;
  resample_and_write out_dir scenario frame_ms ceil_frames.

(** [capture_scenario] with the arguments the script passes: [frame_ms] and
    [target_seconds]. *)
Definition capture_scenario_seconds (base_url : string) (out_dir : Path)
    (provider : string) (scenario : Scenario) (frame_ms : Z)
    (target_seconds : float) : M unit :=
  let frames_dir := path_join (path_join out_dir "_frames") (key scenario) in
  let video_dir := path_join out_dir "_raw-video" in
  modify (set_frame_paths []) ;;
  modify (set_frame_index 0) ;;
  new_page video_dir provider ;;
  guarded_script base_url frames_dir scenario ;;
  resample_and_write_seconds out_dir scenario frame_ms target_seconds ;;
  copy_video out_dir scenario.

End CaptureSeconds.

(** ** The workflow the specification asks for *)

(** The generated plan of a workflow entry, when it is a string. *)
Definition plan_text (item : json) : option string :=
  match item with
  | JDict fields =>
      match fields !! "generatedPlan" with
      | Some (JStr plan) => Some plan
      | _ => None
      end
  | _ => None
  end.

(** An entry has a plan when its generated plan is a string with at least
    one character that is not whitespace. *)
Definition has_plan (item : json) : bool :=
  match plan_text item with
  | Some plan => has_visible plan
  | None => false
  end.

(** The number of nodes an entry lists. *)
Definition listed_nodes (item : json) : nat :=
  match item with
  | JDict fields =>
      match fields !! "nodes" with
      | Some (JList nodes) => length nodes
      | _ => 0%nat
      end
  | _ => 0%nat
  end.

(** The pair the specification orders the entries by: plan first, size
    second. *)
Definition plan_then_size (item : json) : Z * Z :=
  ((if has_plan item then 1 else 0), Z.of_nat (listed_nodes item)).

(** The identifier of an entry: its [id] when that is a non-empty string. *)
Definition workflow_id (item : json) : option string :=
  match item with
  | JDict fields =>
      match fields !! "id" with
      | Some (JStr name) => if bool_decide (name = "") then None else Some name
      | _ => None
      end
  | _ => None
  end.

(** The route that opens an entry; the demo workflow when the entry has no
    identifier. *)
Definition workflow_route (item : json) : string :=
  match workflow_id item with
  | Some name => "/workflows/" +:+ name
  | None => "/workflows/wf_demo_claude_release"
  end.

(** A workflow list in which the smaller entry has a generated plan that is
    not empty but blank. *)
Definition mock_blank_workflows : json :=
  JList [ obj [("id", JStr "wf_big");
               ("nodes", JList [JNull; JNull; JNull])];
          obj [("id", JStr "wf_blank");
               ("nodes", JList [JNull]);
               ("generatedPlan", JStr " ")] ].

(** ** Names of scenarios *)

(** A scenario key that is a plain file name: no path separator in it, so
    that joining it to a directory only appends it. *)
Fixpoint plain_name (name : string) : bool :=
  match name with
  | EmptyString => true
  | String c rest => negb (Ascii.eqb c "/") && plain_name rest
  end.

(** * Properties *)

(** ** Rounding and indexing *)

Lemma len_nonneg {A} (l : list A) : 0 ≤ len l.
Proof. unfold len. lia. Qed.

Lemma len_app {A} (l k : list A) : len (l ++ k) = len l + len k.
Proof. unfold len. rewrite length_app. lia. Qed.

Lemma len_nil_iff {A} (l : list A) : len l = 0 ↔ l = [].
Proof. unfold len. destruct l; simpl; split; intros; try done; lia. Qed.

Lemma len_py_repeat {A} (x : A) (n : Z) : len (py_repeat x n) = Z.max 0 n.
Proof. unfold len, py_repeat. rewrite length_replicate. lia. Qed.

Lemma len_py_range (n : Z) : len (py_range n) = Z.max 0 n.
Proof. unfold len, py_range. rewrite length_fmap, length_seq. lia. Qed.

Lemma py_range_lookup (n : Z) (k : nat) (i : Z) :
  py_range n !! k = Some i → i = Z.of_nat k ∧ 0 ≤ i < n.
Proof.
  unfold py_range. rewrite list_lookup_fmap.
  destruct (seq 0 (Z.to_nat n) !! k) as [j|] eqn:Hj; simpl; [|done].
  apply lookup_seq in Hj as [-> ?]. intros [= <-]. lia.
Qed.

Lemma py_index_nonneg {A} (l : list A) (i : Z) :
  0 ≤ i < len l → ∃ x, py_index l i = Ok x ∧ l !! Z.to_nat i = Some x.
Proof.
  intros Hi. unfold py_index.
  destruct (i <? 0) eqn:Hneg; [lia|]. rewrite Hneg.
  destruct (l !! Z.to_nat i) as [x|] eqn:Hx; [eauto|].
  apply lookup_ge_None in Hx. unfold len in Hi. lia.
Qed.

Lemma py_index_last {A} (l : list A) :
  l ≠ [] → ∃ x, py_index l (-1) = Ok x ∧ last l = Some x.
Proof.
  intros Hl. unfold py_index. simpl.
  assert (0 < len l) by (destruct l; [done|unfold len; simpl; lia]).
  destruct (-1 + len l <? 0) eqn:Hneg; [lia|].
  rewrite last_lookup.
  replace (Z.to_nat (-1 + len l)) with (Nat.pred (length l)) by (unfold len; lia).
  destruct (l !! Nat.pred (length l)) as [x|] eqn:Hx; [eauto|].
  apply lookup_ge_None in Hx. unfold len in *. lia.
Qed.

(** The rounded quotient lies between the floor and the ceiling of the exact
    one. *)
Lemma py_round_div_bounds (a b : Z) :
  0 < b → ∃ idx, py_round_div a b = Ok idx ∧ b * idx - b < a * 1 ∧
                 a < b * idx + b ∧ (a mod b = 0 → idx = a / b).
Proof.
  intros Hb. unfold py_round_div.
  destruct (b =? 0) eqn:Hb0; [lia|].
  pose proof (Z.mod_pos_bound a b Hb) as Hr.
  pose proof (Z.div_mod a b ltac:(lia)) as Ha.
  rewrite (Z.abs_eq (a mod b)), (Z.abs_eq b) by lia.
  destruct (2 * (a mod b) <? b) eqn:H1.
  { eexists; split; [done|]. nia. }
  destruct (b <? 2 * (a mod b)) eqn:H2.
  { eexists; split; [done|]. nia. }
  destruct (Z.even (a / b)); eexists; (split; [done|]); nia.
Qed.

Lemma py_round_div_in_range (i last_index d : Z) :
  0 < d → 0 ≤ i ≤ d → 0 ≤ last_index →
  ∃ idx, py_round_div (i * last_index) d = Ok idx ∧ 0 ≤ idx ≤ last_index.
Proof.
  intros Hd Hi Hl.
  destruct (py_round_div_bounds (i * last_index) d Hd) as (idx & -> & H1 & H2 & _).
  exists idx. split; [done|]. nia.
Qed.

Lemma py_round_div_zero (last_index d : Z) :
  0 < d → py_round_div (0 * last_index) d = Ok 0.
Proof.
  intros Hd.
  destruct (py_round_div_bounds (0 * last_index) d Hd) as (idx & -> & _ & _ & H3).
  rewrite H3 by (by rewrite Z.mul_0_l, Z.mod_0_l by lia).
  by rewrite Z.mul_0_l, Z.div_0_l by lia.
Qed.

Lemma py_round_div_exact (last_index d : Z) :
  0 < d → py_round_div (d * last_index) d = Ok last_index.
Proof.
  intros Hd.
  destruct (py_round_div_bounds (d * last_index) d Hd) as (idx & -> & _ & _ & H3).
  rewrite H3.
  - f_equal. rewrite Z.mul_comm. apply Z.div_mul. lia.
  - rewrite Z.mul_comm. apply Z.mod_mul. lia.
Qed.

(** ** The resampler *)

(** The selection loop never leaves the source list: every output position
    holds the frame at its rounded source index. *)
Lemma select_loop_spec (l : list Path) (t : Z) (positions : list Z)
    (selected : list Path) :
  l ≠ [] → 2 ≤ t →
  (∀ k i, positions !! k = Some i → 0 ≤ i ≤ t - 1) →
  ∃ out, select_loop l (len l - 1) t positions selected = Ok (selected ++ out)
    ∧ length out = length positions
    ∧ ∀ k i, positions !! k = Some i →
        ∃ idx, py_round_div (i * (len l - 1)) (t - 1) = Ok idx
          ∧ 0 ≤ idx ≤ len l - 1 ∧ out !! k = l !! Z.to_nat idx.
Proof.
  intros Hl Ht. revert selected.
  assert (0 ≤ len l - 1) as Hlast by (destruct l; [done|unfold len; simpl; lia]).
  induction positions as [|i rest IH]; intros selected Hpos; simpl.
  - exists []. rewrite app_nil_r. split_and!; [done..|]. intros k i Hk. done.
  - destruct (py_round_div_in_range i (len l - 1) (t - 1)) as (idx & Hidx & Hrange);
      [lia|apply (Hpos 0%nat); done|done|].
    rewrite Hidx. simpl.
    destruct (py_index_nonneg l idx) as (shot & Hshot & Hlook); [lia|].
    rewrite Hshot. simpl.
    destruct (IH (selected ++ [shot])) as (out & Hout & Hlen & Hall).
    { intros k j Hk. apply (Hpos (S k)). done. }
    exists (shot :: out). split_and!.
    + rewrite Hout. by rewrite <-app_assoc.
    + simpl. by rewrite Hlen.
    + intros [|k] j Hk.
      * injection Hk as <-. exists idx. split_and!; [done|lia|lia|by rewrite Hlook].
      * apply (Hall k). done.
Qed.

Lemma py_range_bounds (t : Z) (k : nat) (i : Z) :
  py_range t !! k = Some i → 0 ≤ i ≤ t - 1.
Proof. intros Hk. apply py_range_lookup in Hk. lia. Qed.

Lemma shrink_same (l : list Path) (t : Z) : len l ≤ t → shrink l t = Ok l.
Proof.
  intros Hle. unfold shrink.
  destruct (t <? len l) eqn:Hlt; [lia|]. by rewrite andb_false_r.
Qed.

Lemma pad_same (l : list Path) (t : Z) : t ≤ len l → pad l t = Ok l.
Proof.
  intros Hle. unfold pad.
  destruct (len l <? t) eqn:Hlt; [lia|]. by rewrite andb_false_r.
Qed.

(** Shrinking to a single frame keeps the last one. *)
Lemma shrink_one (l : list Path) :
  1 < len l → ∃ x, last l = Some x ∧ shrink l 1 = Ok [x].
Proof.
  intros Hn. unfold shrink.
  assert (l ≠ []) as Hl by (intros ->; unfold len in Hn; simpl in Hn; lia).
  rewrite bool_decide_eq_true_2 by done.
  destruct (1 <? len l) eqn:Hlt; [|lia]. simpl.
  destruct (py_index_last l Hl) as (x & -> & Hlast). eauto.
Qed.

(** Shrinking to [t >= 2] frames: [t] picks by nearest index. *)
Lemma shrink_many (l : list Path) (t : Z) :
  2 ≤ t < len l →
  ∃ out, shrink l t = Ok out ∧ len out = t
    ∧ ∀ k : nat, (Z.of_nat k < t) →
        ∃ idx, py_round_div (Z.of_nat k * (len l - 1)) (t - 1) = Ok idx
          ∧ 0 ≤ idx ≤ len l - 1 ∧ out !! k = l !! Z.to_nat idx.
Proof.
  intros Ht. unfold shrink.
  assert (l ≠ []) as Hl by (intros ->; unfold len in Ht; simpl in Ht; lia).
  rewrite bool_decide_eq_true_2 by done.
  destruct (t <? len l) eqn:Hlt; [|lia]. simpl.
  destruct (t =? 1) eqn:H1; [lia|].
  destruct (select_loop_spec l t (py_range t) [] Hl) as (out & Hout & Hlen & Hall);
    [lia|apply py_range_bounds|].
  exists out. split_and!; [done| |].
  - pose proof (len_py_range t) as Hr. unfold len in *. lia.
  - intros k Hk.
    assert (py_range t !! k = Some (Z.of_nat k)) as Hlook.
    { unfold py_range. rewrite list_lookup_fmap, lookup_seq_lt by lia. done. }
    apply Hall in Hlook. done.
Qed.

Lemma pad_grow (l : list Path) (t : Z) :
  1 ≤ len l → len l < t →
  ∃ x, last l = Some x ∧ pad l t = Ok (l ++ py_repeat x (t - len l)).
Proof.
  intros Hn Ht. unfold pad.
  assert (l ≠ []) as Hl by (intros ->; unfold len in Hn; simpl in Hn; lia).
  rewrite bool_decide_eq_true_2 by done.
  destruct (len l <? t) eqn:Hlt; [|lia]. simpl.
  destruct (py_index_last l Hl) as (x & -> & Hlast). eauto.
Qed.

(** C1. For every frame sequence of length [n >= 1] and every target length
    [t >= 1], the resampling step of [capture_scenario] (nearest-index
    selection when [n > t], padding with the last frame when [n < t],
    identity when [n = t]) returns, without raising, a sequence of exactly
    [t] frames. *)
Theorem resample_length (frame_paths : list Path) (t : Z) :
  1 ≤ len frame_paths → 1 ≤ t →
  ∃ out, resample frame_paths t = Ok out ∧ len out = t.
Proof.
  intros Hn Ht. unfold resample.
  destruct (Z.lt_trichotomy (len frame_paths) t) as [Hlt|[Heq|Hgt]].
  - rewrite shrink_same by lia. simpl.
    destruct (pad_grow frame_paths t Hn Hlt) as (x & _ & ->).
    eexists; split; [done|]. rewrite len_app, len_py_repeat. lia.
  - rewrite shrink_same by lia. simpl. rewrite pad_same by lia. eauto.
  - destruct (decide (t = 1)) as [->|Hne].
    + destruct (shrink_one frame_paths Hgt) as (x & _ & ->). simpl.
      rewrite pad_same by (unfold len; simpl; lia). eauto.
    + destruct (shrink_many frame_paths t) as (out & -> & Hlen & _); [lia|].
      simpl. rewrite pad_same by lia. eauto.
Qed.

Lemma resample_length_witness :
  ∃ out, resample ["0000.png"; "0001.png"; "0002.png"] 2 = Ok out ∧ len out = 2.
Proof.
  apply (resample_length ["0000.png"; "0001.png"; "0002.png"] 2);
    unfold len; simpl; lia.
Defined.

(** When the target equals the length, the sequence is returned as it is. *)
Lemma resample_same (frame_paths : list Path) :
  resample frame_paths (len frame_paths) = Ok frame_paths.
Proof.
  unfold resample. rewrite shrink_same by lia. simpl. by rewrite pad_same by lia.
Qed.

(** C2, as stated, fails when a longer sequence is resampled down to a single
    frame: the one output frame is the last input frame, so the first input
    frame is not kept. *)
Lemma resample_down_first_lost :
  1 ≤ 1 < len ["0000.png"; "0001.png"]
  ∧ resample ["0000.png"; "0001.png"] 1 = Ok ["0001.png"]
  ∧ head ["0001.png"] ≠ head ["0000.png"; "0001.png"].
Proof. split_and!; [unfold len; simpl; lia..|reflexivity|discriminate]. Qed.

(** C2, amended. Resampling [n] frames down to [t] with [1 <= t < n] keeps
    the last input frame as the last output frame; for [t >= 2] it also keeps
    the first input frame as the first output frame; for [t = 1] the output
    is the last input frame alone. *)
Theorem resample_down_endpoints (frame_paths : list Path) (t : Z) :
  1 ≤ t < len frame_paths →
  ∃ out, resample frame_paths t = Ok out
    ∧ last out = last frame_paths
    ∧ (2 ≤ t → head out = head frame_paths)
    ∧ (t = 1 → ∃ x, last frame_paths = Some x ∧ out = [x]).
Proof.
  intros Ht. unfold resample.
  destruct (decide (t = 1)) as [->|Hne].
  - destruct (shrink_one frame_paths) as (x & Hlast & ->); [lia|]. simpl.
    rewrite pad_same by (unfold len; simpl; lia).
    eexists; split_and!; [done|by rewrite Hlast|lia|eauto].
  - destruct (shrink_many frame_paths t) as (out & -> & Hlen & Hpick); [lia|].
    simpl. rewrite pad_same by lia.
    exists out. split_and!; [done| | |done].
    + destruct (Hpick (Z.to_nat (t - 1))) as (idx & Hidx & _ & Hk); [lia|].
      rewrite Z2Nat.id in Hidx by lia.
      rewrite py_round_div_exact in Hidx by lia. injection Hidx as <-.
      rewrite !last_lookup.
      replace (Nat.pred (length out)) with (Z.to_nat (t - 1))
        by (unfold len in Hlen; lia).
      rewrite Hk. f_equal. unfold len. lia.
    + intros _. destruct (Hpick 0%nat) as (idx & Hidx & _ & Hk); [lia|].
      change (Z.of_nat 0) with 0 in Hidx.
      rewrite py_round_div_zero in Hidx by lia. injection Hidx as <-.
      rewrite !head_lookup. exact Hk.
Qed.

Lemma resample_down_endpoints_witness :
  ∃ out, resample ["0000.png"; "0001.png"; "0002.png"; "0003.png"] 3 = Ok out
    ∧ last out = Some "0003.png"
    ∧ (2 ≤ 3 → head out = Some "0000.png")
    ∧ (3 = 1 → ∃ x,
         last ["0000.png"; "0001.png"; "0002.png"; "0003.png"] = Some x
         ∧ out = [x]).
Proof.
  apply (resample_down_endpoints
           ["0000.png"; "0001.png"; "0002.png"; "0003.png"] 3).
  unfold len; simpl; lia.
Defined.

(** C3. For every frame sequence of length [n >= 1] and every target length
    [t > n], resampling returns the input sequence followed by exactly
    [t - n] copies of the input's last frame: nothing is dropped, reordered
    or duplicated inside the input part. *)
Theorem resample_up_pads_last (frame_paths : list Path) (t : Z) :
  1 ≤ len frame_paths → len frame_paths < t →
  ∃ x, last frame_paths = Some x
    ∧ resample frame_paths t
      = Ok (frame_paths ++ replicate (Z.to_nat (t - len frame_paths)) x)
    ∧ Z.of_nat (length (replicate (Z.to_nat (t - len frame_paths)) x))
      = t - len frame_paths.
Proof.
  intros Hn Ht. unfold resample. rewrite shrink_same by lia. simpl.
  destruct (pad_grow frame_paths t Hn Ht) as (x & Hlast & ->).
  exists x. split_and!; [done|done|]. rewrite length_replicate. lia.
Qed.

Lemma resample_up_pads_last_witness :
  ∃ x, last ["0000.png"; "0001.png"] = Some x
    ∧ resample ["0000.png"; "0001.png"] 5
      = Ok (["0000.png"; "0001.png"] ++ replicate 3 x)
    ∧ Z.of_nat (length (replicate 3 x)) = 3.
Proof.
  apply (resample_up_pads_last ["0000.png"; "0001.png"] 5);
    unfold len; simpl; lia.
Defined.

(** ** Frame file names *)

Lemma string_length_app (s t : string) :
  String.length (s +:+ t) = (String.length s + String.length t)%nat.
Proof. induction s as [|c s IH]; simpl; [done|]. by rewrite IH. Qed.

Lemma string_app_inv_tail (s1 s2 t : string) :
  s1 +:+ t = s2 +:+ t → s1 = s2.
Proof.
  revert s2. induction s1 as [|c s1 IH]; intros [|c' s2] Heq; simpl in *.
  - done.
  - apply (f_equal String.length) in Heq.
    rewrite (string_length_app "" t), (string_length_app (String c' s2) t) in Heq.
    simpl in Heq. lia.
  - apply (f_equal String.length) in Heq.
    rewrite (string_length_app "" t), (string_length_app (String c s1) t) in Heq.
    simpl in Heq. lia.
  - injection Heq as -> Heq. f_equal. by apply IH.
Qed.

Lemma pretty_N_char_nonzero (x : N) :
  (0 < x < 10)%N → pretty_N_char x ≠ "0"%char.
Proof.
  intros Hx.
  assert (x = 1 ∨ x = 2 ∨ x = 3 ∨ x = 4 ∨ x = 5 ∨ x = 6
          ∨ x = 7 ∨ x = 8 ∨ x = 9)%N as Hcases by lia.
  destruct_or!; subst; done.
Qed.

Lemma pretty_N_go_head (x : N) (s : string) :
  (0 < x)%N → ∃ c rest, pretty_N_go x s = String c rest ∧ c ≠ "0"%char.
Proof.
  revert s. induction (N.lt_wf_0 x) as [x _ IH]; intros s Hx.
  rewrite pretty_N_go_step by done.
  destruct (decide (x < 10)%N) as [Hsmall|Hbig].
  - rewrite N.div_small by done. rewrite pretty_N_go_0.
    eexists _, _. split; [done|].
    rewrite N.mod_small by done. by apply pretty_N_char_nonzero.
  - apply IH.
    + apply N.div_lt; lia.
    + apply N.div_str_pos. lia.
Qed.

Lemma pretty_Z_canonical (z : Z) : 0 ≤ z → canonical (pretty z).
Proof.
  intros Hz. destruct z as [|p|p]; [by left| |lia].
  right. unfold pretty, pretty_Z, pretty, pretty_positive, pretty, pretty_N.
  rewrite decide_False by done. by apply pretty_N_go_head.
Qed.

Lemma string_app_nil (s : string) : "" +:+ s = s.
Proof. reflexivity. Qed.

Lemma string_app_cons (c : ascii) (s t : string) :
  String c s +:+ t = String c (s +:+ t).
Proof. reflexivity. Qed.

Lemma canonical_nonempty (s : string) : canonical s → s ≠ "".
Proof. by intros [->|(c & rest & -> & _)]. Qed.

Lemma canonical_leading_zero (s : string) :
  canonical (String "0" s) → s = "".
Proof.
  intros [Heq|(c & rest & Heq & Hc)].
  - by injection Heq.
  - by injection Heq as <- _.
Qed.

Lemma zeros_canonical_inj (a b : nat) (s1 s2 : string) :
  canonical s1 → canonical s2 → zeros a +:+ s1 = zeros b +:+ s2 → s1 = s2.
Proof.
  intros H1 H2. revert b.
  induction a as [|a IH]; intros [|b] Heq; simpl in Heq;
    rewrite ?string_app_nil, ?string_app_cons in Heq.
  - done.
  - subst s1. apply canonical_leading_zero in H1.
    destruct b; simpl in H1; rewrite ?string_app_nil, ?string_app_cons in H1.
    + by apply canonical_nonempty in H2.
    + done.
  - subst s2. apply canonical_leading_zero in H2.
    destruct a; simpl in H2; rewrite ?string_app_nil, ?string_app_cons in H2.
    + by apply canonical_nonempty in H1.
    + done.
  - injection Heq as Heq. by apply (IH b).
Qed.

Lemma format_04d_inj (a b : Z) :
  0 ≤ a → 0 ≤ b → format_04d a = format_04d b → a = b.
Proof.
  intros Ha Hb. unfold format_04d, zfill.
  destruct (a <? 0) eqn:Ha'; [lia|]. destruct (b <? 0) eqn:Hb'; [lia|].
  intros Heq. apply zeros_canonical_inj in Heq; try by apply pretty_Z_canonical.
  by apply (inj pretty).
Qed.

Lemma shot_path_inj (frames_dir : Path) (a b : Z) :
  0 ≤ a → 0 ≤ b → shot_path frames_dir a = shot_path frames_dir b → a = b.
Proof.
  intros Ha Hb. unfold shot_path, path_join. intros Heq.
  apply (inj (String.app frames_dir)) in Heq.
  apply (inj (String.app "/")) in Heq.
  apply string_app_inv_tail in Heq. by apply format_04d_inj.
Qed.

Example format_04d_7 : format_04d 7 = "0007".
Proof. reflexivity. Qed.

Example format_04d_12345 : format_04d 12345 = "12345".
Proof. reflexivity. Qed.

Example format_04d_neg : format_04d (-5) = "-005".
Proof. reflexivity. Qed.

(** ** The frame sink *)

Section SinkProperties.
Context `{Engine}.

(** A failed screenshot leaves the sink as it was: nothing is recorded, no
    file is written and the index stays. *)
Lemma snap_failure (frames_dir : Path) (d : Z) (s : state) (e : exn)
    (b : browser_state) :
  page_screenshot (browser s) = (Raise e, b) →
  snap frames_dir d s = (Raise e, set_browser b s).
Proof. intros Hshot. unfold snap, bind, get, engine_call. by rewrite Hshot. Qed.

(** C8. For every duplication count [d >= 1], one successful call of [snap]
    appends exactly [d] references to the one frame it has just captured,
    writes exactly one image file (the shot, under the name built from the
    current index) and advances the frame index by one, whatever [d] is.
    Between calls of [snap] the shot is a new frame: its path is not yet in
    the sequence. *)
Theorem snap_captures_once (frames_dir : Path) (d : Z) (s : state)
    (pic : picture) (b : browser_state) :
  1 ≤ d →
  page_screenshot (browser s) = (Ok pic, b) →
  ∃ s', snap frames_dir d s = (Ok tt, s')
    ∧ frame_paths s'
      = frame_paths s
        ++ replicate (Z.to_nat d) (shot_path frames_dir (frame_index s))
    ∧ Z.of_nat (length (frame_paths s')) = Z.of_nat (length (frame_paths s)) + d
    ∧ fs s' = <[shot_path frames_dir (frame_index s) := still pic]> (fs s)
    ∧ frame_index s' = frame_index s + 1
    ∧ (sink_inv frames_dir s →
         (shot_path frames_dir (frame_index s) ∉ frame_paths s)
         ∧ sink_inv frames_dir s').
Proof.
  intros Hd Hshot. unfold snap, bind, get, engine_call, modify.
  rewrite Hshot. simpl. eexists. split; [done|]. simpl.
  rewrite Z.max_l by lia. unfold py_repeat.
  split_and!; [done| |done|done|].
  - rewrite length_app, length_replicate. lia.
  - intros [Hidx Hpaths]. split.
    + intros Hin. apply Hpaths in Hin as (j & Hj & Heq).
      apply shot_path_inj in Heq; lia.
    + split; simpl; [lia|].
      intros p Hp. apply elem_of_app in Hp as [Hp|Hp].
      * apply Hpaths in Hp as (j & Hj & ->). exists j. split; [lia|done].
      * apply elem_of_replicate in Hp as [-> _].
        exists (frame_index s). split; [lia|done].
Qed.

End SinkProperties.

Lemma snap_captures_once_witness :
  ∃ s', @snap _ calm_engine "out/_frames/routing-demo" 6
          (toy_state calm_engine 0%nat) = (Ok tt, s')
    ∧ frame_paths s'
      = replicate 6 "out/_frames/routing-demo/0000.png"
    ∧ Z.of_nat (length (frame_paths s')) = 6
    ∧ fs s' = <["out/_frames/routing-demo/0000.png"
                 := @still toy_pictures (Palette, 0%nat)]> ∅
    ∧ frame_index s' = 1.
Proof.
  destruct (@snap_captures_once _ calm_engine
              "out/_frames/routing-demo" 6
              (toy_state calm_engine 0%nat) (Palette, 0%nat) 1%nat)
    as (s' & Hrun & Hpaths & Hlen & Hfs & Hidx & _).
  - lia.
  - reflexivity.
  - exists s'. split_and!; [exact Hrun|exact Hpaths|exact Hlen|exact Hfs|exact Hidx].
Defined.

(** ** Writing the animation, and the exceptions of a scenario *)

Section OrchestratorProperties.
Context `{Engine}.

Lemma resample_empty (t : Z) : resample [] t = Ok [].
Proof. reflexivity. Qed.

Lemma write_gif_empty (output_path : Path) (frame_ms : Z)
    (files : gmap string file) :
  write_gif [] output_path frame_ms files
  = (Raise (RuntimeError "No frames captured for GIF output"), files).
Proof. reflexivity. Qed.

Lemma set_frame_paths_same (s : state) (l : list Path) :
  frame_paths s = l → set_frame_paths l s = s.
Proof. intros <-. by destruct s. Qed.

(** C4. For every target length, running the resample-and-write step on an
    empty frame sequence raises: [write_gif] refuses the empty sequence with
    a [RuntimeError] (a zero frame duration raises even earlier), and the
    state, the file system included, is left as it was, so no animation is
    produced. *)
Theorem resample_and_write_empty (out_dir : Path) (scenario : Scenario)
    (frame_ms ceil_frames : Z) (s : state) :
  frame_paths s = [] →
  ∃ e, resample_and_write out_dir scenario frame_ms ceil_frames s = (Raise e, s)
    ∧ (frame_ms ≠ 0 → e = RuntimeError "No frames captured for GIF output")
    ∧ (∀ t, resample (frame_paths s) t = Ok [])
    ∧ (∀ output_path, write_gif [] output_path frame_ms (fs s)
         = (Raise (RuntimeError "No frames captured for GIF output"), fs s)).
Proof.
  intros Hempty.
  unfold resample_and_write, bind, lift_result, target_frames_of, get, modify,
    lift_fs.
  destruct (frame_ms =? 0) eqn:Hms.
  - eexists. split_and!; [done|lia|by rewrite Hempty|done].
  - rewrite Hempty, resample_empty, write_gif_empty.
    rewrite set_frame_paths_same by done. destruct s; simpl.
    eexists. split_and!; done.
Qed.

(** What [capture_scenario] does before the [try] statement. *)
Lemma capture_scenario_unfold (base_url : string) (out_dir : Path)
    (provider : string) (scenario : Scenario) (frame_ms ceil_frames : Z)
    (s0 s1 : state) :
  new_page (path_join out_dir "_raw-video") provider
    (set_frame_index 0 (set_frame_paths [] s0)) = (Ok tt, s1) →
  capture_scenario base_url out_dir provider scenario frame_ms ceil_frames s0
  = bind (guarded_script base_url
            (path_join (path_join out_dir "_frames") (key scenario)) scenario)
      (λ _, bind (resample_and_write out_dir scenario frame_ms ceil_frames)
              (λ _, copy_video out_dir scenario)) s1.
Proof.
  intros Hnew. unfold capture_scenario.
  unfold bind at 1. unfold modify at 1. unfold bind at 1. unfold modify at 1.
  unfold bind at 1. by rewrite Hnew.
Qed.

Lemma cleanup_closes (s : state) :
  ∃ s', cleanup s = (Ok tt, s')
    ∧ page_open s' = false ∧ context_open s' = false
    ∧ frame_paths s' = frame_paths s ∧ frame_index s' = frame_index s
    ∧ fs s' = context_close_files (page_close_state (browser s)) (fs s).
Proof. eexists. by split_and!. Qed.

(** C9. If the body of the [try] statement (navigation, the pauses, the
    captures and the scenario's script) raises a timeout of the automation
    engine, [capture_scenario] raises a [RuntimeError] whose message contains
    the scenario's key; any other exception leaves as it is; in both cases
    the page and the context are closed when the exception leaves, and the
    resample-and-write step is not reached. *)
Theorem capture_scenario_failure (base_url : string) (out_dir : Path)
    (provider : string) (scenario : Scenario) (frame_ms ceil_frames : Z)
    (s0 s1 s2 : state) (e : exn) :
  new_page (path_join out_dir "_raw-video") provider
    (set_frame_index 0 (set_frame_paths [] s0)) = (Ok tt, s1) →
  run_script base_url (path_join (path_join out_dir "_frames") (key scenario))
    scenario s1 = (Raise e, s2) →
  ∃ s3,
    capture_scenario base_url out_dir provider scenario frame_ms ceil_frames s0
    = (Raise (if is_timeout e then RuntimeError (timed_out_message scenario)
              else e), s3)
    ∧ contains (timed_out_message scenario) (key scenario)
    ∧ page_open s3 = false
    ∧ context_open s3 = false
    ∧ fs s3 = context_close_files (page_close_state (browser s2)) (fs s2).
Proof.
  intros Hnew Hrun.
  rewrite (capture_scenario_unfold _ _ _ _ _ _ _ _ Hnew).
  unfold bind at 1. unfold guarded_script, try_finally, try_except.
  rewrite Hrun.
  assert (contains (timed_out_message scenario) (key scenario)) as Hmsg.
  { exists "Scenario '", "' timed out". done. }
  destruct (is_timeout e); unfold raise;
    destruct (cleanup_closes s2) as (s3 & -> & Hp & Hc & _ & _ & Hfs);
    exists s3; by split_and!.
Qed.

(** The first place a timeout can come from: navigation.  Nothing has been
    captured then. *)
Lemma run_script_navigation_raises (base_url : string) (frames_dir : Path)
    (scenario : Scenario) (s : state) (e : exn) (b : browser_state) :
  page_goto (base_url +:+ route scenario) (browser s) = (Raise e, b) →
  run_script base_url frames_dir scenario s = (Raise e, set_browser b s).
Proof.
  intros Hgoto. unfold run_script. unfold bind at 1. unfold engine_call at 1.
  by rewrite Hgoto.
Qed.

(** When the body of the [try] statement succeeds, the page and the context
    are closed just the same before the frames are resampled. *)
Lemma guarded_script_success (base_url : string) (frames_dir : Path)
    (scenario : Scenario) (s1 s2 : state) :
  run_script base_url frames_dir scenario s1 = (Ok tt, s2) →
  ∃ s3, guarded_script base_url frames_dir scenario s1 = (Ok tt, s3)
    ∧ page_open s3 = false ∧ context_open s3 = false
    ∧ frame_paths s3 = frame_paths s2.
Proof.
  intros Hrun. unfold guarded_script, try_finally, try_except. rewrite Hrun.
  destruct (cleanup_closes s2) as (s3 & -> & Hp & Hc & Hf & _).
  exists s3. by split_and!.
Qed.

End OrchestratorProperties.

Lemma resample_and_write_empty_witness :
  ∃ e, @resample_and_write _ calm_engine "out"
         (toy_scenario calm_engine) 150 80 (toy_state calm_engine 0%nat)
       = (Raise e, toy_state calm_engine 0%nat)
     ∧ (150 ≠ 0 → e = RuntimeError "No frames captured for GIF output").
Proof.
  destruct (@resample_and_write_empty _ calm_engine "out"
              (toy_scenario calm_engine) 150 80 (toy_state calm_engine 0%nat))
    as (e & Hrun & Herr & _).
  - reflexivity.
  - exists e. split; [exact Hrun|exact Herr].
Defined.

Lemma capture_scenario_failure_witness :
  ∃ s3,
    @capture_scenario _ stalled_engine
      "http://127.0.0.1:3000" "out" "claude" (toy_scenario stalled_engine)
      150 80 (toy_state stalled_engine 0%nat)
    = (Raise (RuntimeError "Scenario 'routing-demo' timed out"), s3)
    ∧ page_open s3 = false
    ∧ context_open s3 = false.
Proof.
  edestruct (@capture_scenario_failure _ stalled_engine
               "http://127.0.0.1:3000" "out" "claude"
               (toy_scenario stalled_engine) 150 80
               (toy_state stalled_engine 0%nat))
    as (s3 & Hrun & _ & Hpage & Hcontext & _).
  - reflexivity.
  - reflexivity.
  - exists s3. split_and!; [exact Hrun|exact Hpage|exact Hcontext].
Defined.

(** ** Discovery helpers *)

Lemma tuple_le_refl (a : Z * Z) : tuple_le a a.
Proof. right. lia. Qed.

Lemma tuple_le_trans (a b c : Z * Z) :
  tuple_le a b → tuple_le b c → tuple_le a c.
Proof. unfold tuple_le. lia. Qed.

Lemma tuple_ltb_true (a b : Z * Z) : tuple_ltb a b = true → tuple_le a b.
Proof.
  unfold tuple_ltb, tuple_le. intros Hlt.
  apply orb_true_iff in Hlt as [Hlt|Hlt]; [lia|].
  apply andb_true_iff in Hlt. lia.
Qed.

Lemma tuple_ltb_false (a b : Z * Z) : tuple_ltb a b = false → tuple_le b a.
Proof.
  unfold tuple_ltb, tuple_le. intros Hlt.
  apply orb_false_iff in Hlt as [H1 H2].
  apply andb_false_iff in H2. lia.
Qed.

(** [max] returns an item of the list whose key no other item exceeds. *)
Lemma max_loop_spec {A} (key : A → Z * Z) (best : A) (items : list A) :
  max_loop key best items ∈ best :: items
  ∧ ∀ item, item ∈ best :: items →
      tuple_le (key item) (key (max_loop key best items)).
Proof.
  revert best. induction items as [|x items IH]; intros best; simpl.
  - split; [left|]. intros item ->%list_elem_of_singleton. apply tuple_le_refl.
  - destruct (tuple_ltb (key best) (key x)) eqn:Hlt.
    + destruct (IH x) as [Hin Hmax]. split.
      * right. done.
      * intros item Hitem. apply elem_of_cons in Hitem as [->|Hitem].
        -- eapply tuple_le_trans; [by apply tuple_ltb_true|].
           apply Hmax. left.
        -- by apply Hmax.
    + destruct (IH best) as [Hin Hmax]. split.
      * apply elem_of_cons in Hin as [->|Hin]; [left|right; by right].
      * intros item Hitem. apply elem_of_cons in Hitem as [->|Hitem].
        -- apply Hmax. left.
        -- apply elem_of_cons in Hitem as [->|Hitem].
           ++ eapply tuple_le_trans; [by apply tuple_ltb_false|].
              apply Hmax. left.
           ++ apply Hmax. by right.
Qed.

(** The entry with the plan and one node wins over the entry with three
    nodes and no plan. *)
Example resolve_workflow_route_prefers_plan :
  resolve_workflow_route mock_api "http://127.0.0.1:3000"
  = Ok "/workflows/wf_planned".
Proof. vm_compute. reflexivity. Qed.

(** Neither helper raises on its own: only an exception of the fetch that is
    not an [Exception] ([KeyboardInterrupt], [SystemExit]) passes through. *)
Lemma resolve_workflow_route_total (fetch : api) (base_url : string) :
  (∀ e, fetch (base_url +:+ "/api/workflows") = Raise e → is_Exception e = true) →
  ∃ route, resolve_workflow_route fetch base_url = Ok route.
Proof.
  intros Hexc. unfold resolve_workflow_route.
  destruct (fetch _) as [data|e] eqn:Hfetch.
  - destruct data as [| | | | |[|first others]|]; eauto.
  - rewrite (Hexc e) by done. eauto.
Qed.

Lemma resolve_session_ids_total (fetch : api) (base_url : string) (count : Z) :
  (∀ e, fetch (base_url +:+ "/api/sessions?" +:+ session_params) = Raise e →
        is_Exception e = true) →
  ∃ ids, resolve_session_ids fetch base_url count = Ok ids.
Proof.
  intros Hexc. unfold resolve_session_ids.
  destruct (fetch _) as [data|e] eqn:Hfetch.
  - repeat case_match; eauto.
  - rewrite (Hexc e) by done. eauto.
Qed.

(** C7. When the workflow endpoint is unusable (the fetch raises an
    [Exception], or the payload is not a non-empty list),
    [resolve_workflow_route] returns the fixed route
    ["/workflows/wf_demo_claude_release"]; when the session endpoint is
    unusable (the fetch raises an [Exception], or the payload is not a
    dictionary with a list under [sessions]), [resolve_session_ids] returns
    the empty list.  Both return normally: no exception leaves them. *)
Theorem discovery_failure_recovered (fetch : api) (base_url : string)
    (count : Z) :
  (workflows_unusable (fetch (base_url +:+ "/api/workflows")) →
     resolve_workflow_route fetch base_url
     = Ok "/workflows/wf_demo_claude_release")
  ∧ (sessions_unusable
       (fetch (base_url +:+ "/api/sessions?" +:+ session_params)) →
     resolve_session_ids fetch base_url count = Ok []).
Proof.
  split.
  - unfold workflows_unusable, resolve_workflow_route.
    destruct (fetch _) as [data|e].
    + destruct data as [| | | | |[|first others]|]; done.
    + by intros ->.
  - unfold sessions_unusable, resolve_session_ids.
    destruct (fetch _) as [data|e].
    + destruct data as [| | | | | |fields]; try done.
      destruct (fields !! "sessions") as [[]|]; done.
    + by intros ->.
Qed.

Lemma discovery_failure_recovered_witness :
  resolve_workflow_route unreachable_api "http://127.0.0.1:3000"
  = Ok "/workflows/wf_demo_claude_release"
  ∧ resolve_session_ids unreachable_api "http://127.0.0.1:3000" 4 = Ok [].
Proof.
  destruct (discovery_failure_recovered unreachable_api
              "http://127.0.0.1:3000" 4) as [Hroute Hids].
  split; [apply Hroute|apply Hids]; reflexivity.
Defined.

(** A payload of the wrong shape is recovered in the same way. *)
Example resolve_session_ids_wrong_shape :
  resolve_session_ids (λ _, Ok (JList [JStr "s1"])) "http://127.0.0.1:3000" 4
  = Ok [].
Proof. reflexivity. Qed.

Example resolve_session_ids_takes_count :
  resolve_session_ids
    (λ _, Ok (obj [("sessions",
                    JList [obj [("id", JStr "s1")]; JNull;
                           obj [("id", JStr "")]; obj [("id", JStr "s2")];
                           obj [("id", JStr "s3")]])]))
    "http://127.0.0.1:3000" 2
  = Ok ["s1"; "s2"].
Proof. vm_compute. reflexivity. Qed.

(** ** The reel stitcher *)

Section StitchProperties.
Context `{ImageLib}.

Lemma pics_snoc (acc : list frame) (pic : picture) (t : option Z) :
  pics acc ++ [pic] = pics (acc ++ [Frame pic t]).
Proof. unfold pics. by rewrite fmap_app. Qed.

Lemma durs_snoc (d : Z) (acc : list frame) (pic : picture) (t : Z) :
  durs d acc ++ [t] = durs d (acc ++ [Frame pic (Some t)]).
Proof. unfold durs. by rewrite fmap_app. Qed.

Lemma decoded_cons (d : Z) (current next : frame) (remaining : list frame) :
  decoded d (current, next :: remaining)
  = Frame (convert_rgb (frame_pic current))
          (Some (default d (frame_duration current)))
    :: decoded d (next, remaining).
Proof. reflexivity. Qed.

Lemma decode_loop_spec (d : Z) (current : frame) (remaining acc : list frame) :
  decode_loop d current remaining (pics acc) (durs d acc)
  = (pics (acc ++ decoded d (current, remaining)),
     durs d (acc ++ decoded d (current, remaining))).
Proof.
  revert current acc. induction remaining as [|next remaining IH];
    intros current acc; cbn [decode_loop].
  - rewrite (pics_snoc acc _ (Some (default d (frame_duration current)))).
    by rewrite (durs_snoc d acc (convert_rgb (frame_pic current))).
  - rewrite (pics_snoc acc _ (Some (default d (frame_duration current)))).
    rewrite (durs_snoc d acc (convert_rgb (frame_pic current))).
    rewrite IH, decoded_cons. by rewrite <-!app_assoc.
Qed.

Lemma hold_loop_spec (d : Z) (ticks : list Z) (acc : list frame) (f : frame) :
  last acc = Some f →
  hold_loop d ticks (pics acc) (durs d acc)
  = Ok (pics (acc ++ replicate (length ticks) (Frame (frame_pic f) (Some d))),
        durs d (acc ++ replicate (length ticks) (Frame (frame_pic f) (Some d)))).
Proof.
  revert acc f. induction ticks as [|tick ticks IH]; intros acc f Hlast;
    cbn [hold_loop length replicate].
  - by rewrite app_nil_r.
  - destruct (py_index_last (pics acc)) as (x & -> & Hx).
    { unfold pics. destruct acc; [done|discriminate]. }
    cbn [rbind]. unfold pics in Hx. rewrite fmap_last, Hlast in Hx.
    injection Hx as <-.
    rewrite (pics_snoc acc _ (Some d)).
    rewrite (durs_snoc d acc (frame_pic f)).
    rewrite (IH _ (Frame (frame_pic f) (Some d))) by apply last_snoc.
    cbn [frame_pic]. by rewrite <-!app_assoc.
Qed.

Lemma decoded_last (d : Z) (clip : frame * list frame) :
  ∃ f, last (decoded d clip) = Some f.
Proof.
  unfold decoded. rewrite fmap_last.
  destruct (last (frames_of clip.1 clip.2)) as [f|] eqn:Hlast; [eauto|].
  by apply last_None in Hlast.
Qed.

Lemma separator_replicate (k : nat) (d : Z) (clip : list frame) (f : frame) :
  last clip = Some f →
  separator k d clip = replicate k (Frame (frame_pic f) (Some d)).
Proof. intros Hlast. unfold separator. by rewrite Hlast. Qed.

Lemma reel_step (k : nat) (d : Z) (clip : frame * list frame)
    (clips : list (frame * list frame)) (more_clips : bool) :
  (more_clips = true ↔ clips ≠ []) →
  reel k d (clip :: clips)
  = decoded d clip
    ++ (if more_clips then separator k d (decoded d clip) else [])
    ++ reel k d clips.
Proof.
  intros Hb. cbn [reel]. destruct clips as [|clip' clips], more_clips; try done.
  - by destruct Hb as [Hb _]; specialize (Hb eq_refl).
  - by destruct Hb as [_ Hb]; specialize (Hb ltac:(done)).
Qed.

(** One round of the loop on a source that exists and decodes. *)
Lemma stitch_loop_step (files : gmap string file) (n d k i : Z)
    (source : Path) (indexed : list (Z * Path)) (acc : list frame)
    (first : frame) (more : list frame) :
  files !! source = Some (Animation first more) → 0 ≤ k →
  stitch_loop files n d k ((i, source) :: indexed) (pics acc) (durs d acc)
  = stitch_loop files n d k indexed
      (pics (acc ++ decoded d (first, more)
             ++ (if i <? n - 1
                 then separator (Z.to_nat k) d (decoded d (first, more))
                 else [])))
      (durs d (acc ++ decoded d (first, more)
               ++ (if i <? n - 1
                   then separator (Z.to_nat k) d (decoded d (first, more))
                   else []))).
Proof.
  intros Hsource Hk. cbn [stitch_loop].
  rewrite bool_decide_eq_false_2 by (by rewrite Hsource).
  unfold image_open. rewrite Hsource. cbn [rbind fst snd].
  rewrite decode_loop_spec.
  destruct (decoded_last d (first, more)) as (f & Hlast).
  assert (last (acc ++ decoded d (first, more)) = Some f) as Hlast'.
  { by rewrite last_app, Hlast. }
  assert (bool_decide (pics (acc ++ decoded d (first, more)) ≠ []) = true)
    as ->.
  { apply bool_decide_eq_true_2. unfold pics. intros Hnil.
    apply fmap_nil_inv in Hnil. by rewrite Hnil in Hlast'. }
  rewrite andb_true_r, (separator_replicate _ _ _ f Hlast).
  destruct (i <? n - 1); [|by rewrite andb_false_r, app_nil_r].
  rewrite andb_true_r. destruct (0 <? k) eqn:Hpos.
  - rewrite (hold_loop_spec d (py_range k) _ f Hlast'). cbn [rbind fst snd].
    replace (length (py_range k)) with (Z.to_nat k)
      by (pose proof (len_py_range k); unfold len in *; lia).
    by rewrite <-!app_assoc.
  - replace (Z.to_nat k) with 0%nat by lia. cbn [rbind fst snd replicate].
    by rewrite app_nil_r.
Qed.

(** The loop over sources that all exist and decode builds the reel. *)
Lemma stitch_loop_spec (files : gmap string file) (n d k : Z)
    (sources : list Path) (clips : list (frame * list frame)) (j : nat)
    (acc : list frame) :
  Forall2 (λ source clip, files !! source = Some (Animation clip.1 clip.2))
    sources clips →
  n = Z.of_nat j + len sources → 0 ≤ k →
  stitch_loop files n d k
    (zip (Z.of_nat <$> seq j (length sources)) sources) (pics acc) (durs d acc)
  = Ok (pics (acc ++ reel (Z.to_nat k) d clips),
        durs d (acc ++ reel (Z.to_nat k) d clips)).
Proof.
  intros Hall Hn Hk. revert j acc Hn.
  induction Hall as [|source clip sources clips Hsource Hall IH];
    intros j acc Hn.
  - cbn. by rewrite app_nil_r.
  - change (zip (Z.of_nat <$> seq j (length (source :: sources)))
              (source :: sources))
      with ((Z.of_nat j, source)
            :: zip (Z.of_nat <$> seq (S j) (length sources)) sources).
    rewrite (stitch_loop_step _ _ _ _ _ _ _ _ _ _ Hsource Hk).
    rewrite (IH (S j)) by (unfold len in *; cbn [length] in *; lia).
    rewrite (reel_step _ _ clip clips (Z.of_nat j <? n - 1)).
    + destruct clip. by rewrite <-!app_assoc.
    + apply Forall2_length in Hall. unfold len in Hn. cbn [length] in Hn.
      rewrite Z.ltb_lt. destruct clips; cbn [length] in Hall; split; intros;
        try done; lia.
Qed.

(** Sources that do not exist are skipped, separators included. *)
Lemma stitch_loop_missing (files : gmap string file) (n d k : Z)
    (indexed : list (Z * Path)) (frames : list picture) (durations : list Z) :
  Forall (λ item, files !! item.2 = None) indexed →
  stitch_loop files n d k indexed frames durations = Ok (frames, durations).
Proof.
  induction 1 as [|[i source] indexed Hmissing _ IH]; simpl; [done|].
  simpl in Hmissing. by rewrite bool_decide_eq_true_2.
Qed.

End StitchProperties.

Section StitchTheorems.
Context `{ImageLib}.

Lemma length_decoded (d : Z) (clip : frame * list frame) :
  length (decoded d clip) = clip_frames clip.
Proof. unfold decoded, clip_frames. by rewrite length_fmap. Qed.

Lemma length_separator (k : nat) (d : Z) (clip : frame * list frame) :
  length (separator k d (decoded d clip)) = k.
Proof.
  destruct (decoded_last d clip) as (f & Hlast).
  rewrite (separator_replicate _ _ _ f Hlast). apply length_replicate.
Qed.

(** The number of frames of the reel: those of the clips, and [k] more for
    each clip but the final one. *)
Lemma length_reel (k : nat) (d : Z) (clips : list (frame * list frame)) :
  length (reel k d clips)
  = (sum_list (clip_frames <$> clips) + k * (length clips - 1))%nat.
Proof.
  induction clips as [|clip clips IH]; [cbn; lia|].
  cbn [reel fmap list_fmap sum_list sum_list_with length].
  rewrite !length_app, length_decoded, IH.
  destruct clips as [|clip' clips].
  - cbn. lia.
  - rewrite length_separator.
    replace (S (length (clip' :: clips)) - 1)%nat with (S (length clips))
      by (cbn [length]; lia).
    replace (length (clip' :: clips) - 1)%nat with (length clips)
      by (cbn [length]; lia).
    rewrite Nat.mul_succ_r. unfold id. lia.
Qed.

(** With [k] separator frames, the frames after each clip but the final one
    are copies of that clip's last frame. *)
Lemma separator_copies_last (k : nat) (d : Z) (clip : frame * list frame) :
  ∃ f, last (decoded d clip) = Some f
    ∧ frame_pic <$> separator k d (decoded d clip) = replicate k (frame_pic f).
Proof.
  destruct (decoded_last d clip) as (f & Hlast). exists f. split; [done|].
  rewrite (separator_replicate _ _ _ f Hlast). by rewrite fmap_replicate.
Qed.

Lemma reel_timed (k : nat) (d : Z) (clips : list (frame * list frame)) :
  Forall timed (reel k d clips).
Proof.
  induction clips as [|clip clips IH]; [constructor|].
  cbn [reel]. rewrite !Forall_app. split_and!; [| |done].
  - unfold decoded. apply Forall_fmap, Forall_true. intros f. by eexists.
  - destruct clips; [constructor|]. unfold separator.
    destruct (last _); [|constructor].
    apply Forall_replicate. by eexists.
Qed.

Lemma zip_pics_durs (d : Z) (acc : list frame) :
  Forall timed acc →
  zip_with (λ pic t, Frame pic (Some t)) (pics acc) (durs d acc) = acc.
Proof.
  induction 1 as [|[pic t] acc [t' Ht] _ IH]; [done|].
  cbn in Ht. subst t. cbn. f_equal. exact IH.
Qed.

(** [stitch_gifs] on sources that all exist and decode: the lists the loop
    accumulates are those of the reel, and the reel is what the encoder is
    handed. *)
Lemma stitch_gifs_reel (files : gmap string file) (sources : list Path)
    (output : Path) (d k : Z) (clips : list (frame * list frame)) :
  Forall2 (λ source clip, files !! source = Some (Animation clip.1 clip.2))
    sources clips →
  sources ≠ [] → 0 ≤ k →
  ∃ first rest,
    frames_of first rest = reel (Z.to_nat k) d clips
    ∧ stitch_frames files sources d k
      = Ok (pics (frames_of first rest), durs d (frames_of first rest))
    ∧ stitch_gifs sources output d k files
      = (Ok tt, image_save output first rest files).
Proof.
  intros Hall Hne Hk.
  assert (clips ≠ []) as Hclips.
  { intros ->. by apply Forall2_nil_inv_r in Hall. }
  destruct (reel (Z.to_nat k) d clips) as [|first rest] eqn:Hreel.
  { apply (f_equal length) in Hreel. rewrite length_reel in Hreel.
    destruct clips as [|[f m] clips]; [done|]. cbn in Hreel. lia. }
  exists first, rest.
  assert (stitch_frames files sources d k
          = Ok (pics (first :: rest), durs d (first :: rest))) as Hframes.
  { unfold stitch_frames, py_enumerate, py_range.
    replace (Z.to_nat (len sources)) with (length sources) by (unfold len; lia).
    pose proof (stitch_loop_spec files (len sources) d k sources clips 0 []
                  Hall ltac:(lia) Hk) as Hloop.
    cbn [pics durs fmap list_fmap app] in Hloop. rewrite Hloop, Hreel. done. }
  split_and!; [done|exact Hframes|].
  unfold stitch_gifs. rewrite Hframes.
  rewrite bool_decide_eq_false_2 by done.
  rewrite zip_pics_durs by (rewrite <-Hreel; apply reel_timed). done.
Qed.

(** C5. For every non-empty list of [m] input clips that exist and decode,
    clip [j] to [clip_frames j] frames, and every [k >= 0], [stitch_gifs]
    with [separator_hold_frames = k] hands the encoder the reel: the clips in
    order, with [k] copies of the clip's last frame after each clip except
    the final one, [sum clip_frames + k * (m - 1)] frames in all, hence
    [sum clip_frames] when [k = 0]; the output holds what the encoder makes
    of them. *)
Theorem stitch_gifs_hands_reel (files : gmap string file)
    (sources : list Path) (output : Path) (d k : Z)
    (clips : list (frame * list frame)) :
  Forall2 (λ source clip, files !! source = Some (Animation clip.1 clip.2))
    sources clips →
  sources ≠ [] → 0 ≤ k →
  ∃ first rest,
    frames_of first rest = reel (Z.to_nat k) d clips
    ∧ stitch_frames files sources d k
      = Ok (pics (frames_of first rest), durs d (frames_of first rest))
    ∧ stitch_gifs sources output d k files
      = (Ok tt, image_save output first rest files)
    ∧ len (frames_of first rest)
      = Z.of_nat (sum_list (clip_frames <$> clips)) + k * (len sources - 1)
    ∧ (k = 0 →
       len (frames_of first rest) = Z.of_nat (sum_list (clip_frames <$> clips))).
Proof.
  intros Hall Hne Hk.
  destruct (stitch_gifs_reel files sources output d k clips Hall Hne Hk)
    as (first & rest & Hreel & Hframes & Hrun).
  assert (len (frames_of first rest)
          = Z.of_nat (sum_list (clip_frames <$> clips)) + k * (len sources - 1))
    as Hlen.
  { unfold len. rewrite Hreel, length_reel. apply Forall2_length in Hall.
    rewrite Hall. destruct clips; [by destruct sources|]. cbn [length]. nia. }
  exists first, rest. split_and!; [done|done|done|exact Hlen|].
  intros ->. rewrite Hlen. lia.
Qed.

(** C10. When none of the sources exists, [stitch_gifs] returns normally and
    leaves the file system as it is: no output is written.  The same holds
    whenever the loop ends with no frame at all (a source that exists and
    decodes always contributes one, so missing sources are the only way to
    get there).  [write_gif], in contrast, raises on an empty frame list. *)
Theorem stitch_gifs_nothing_to_stitch (files : gmap string file)
    (sources : list Path) (output : Path) (d k : Z) :
  (Forall (λ source, files !! source = None) sources →
   stitch_frames files sources d k = Ok ([], [])
   ∧ stitch_gifs sources output d k files = (Ok tt, files))
  ∧ (∀ durations, stitch_frames files sources d k = Ok ([], durations) →
     stitch_gifs sources output d k files = (Ok tt, files))
  ∧ write_gif [] output d files
    = (Raise (RuntimeError "No frames captured for GIF output"), files).
Proof.
  assert (∀ durations, stitch_frames files sources d k = Ok ([], durations) →
          stitch_gifs sources output d k files = (Ok tt, files)) as Hempty.
  { intros durations Hframes. unfold stitch_gifs. by rewrite Hframes. }
  split_and!; [|exact Hempty|done].
  intros Hmissing.
  assert (stitch_frames files sources d k = Ok ([], [])) as Hframes.
  { unfold stitch_frames. apply stitch_loop_missing.
    unfold py_enumerate. apply Forall_forall. intros [i source] Hin.
    apply elem_of_zip_r in Hin. cbn in *.
    by apply (proj1 (Forall_forall _ _) Hmissing). }
  split; [done|]. by apply (Hempty []).
Qed.

End StitchTheorems.

Lemma stitch_gifs_hands_reel_witness :
  ∃ first rest,
    @stitch_frames toy_pictures mock_files ["out/a.gif"; "out/b.gif"] 150 6
    = Ok (pics (frames_of first rest), durs 150 (frames_of first rest))
    ∧ @stitch_gifs toy_pictures ["out/a.gif"; "out/b.gif"]
        "out/demo-stitched.gif" 150 6 mock_files
      = (Ok tt, image_save "out/demo-stitched.gif" first rest mock_files)
    ∧ len (frames_of first rest) = 3 + 6 * (2 - 1).
Proof.
  destruct (@stitch_gifs_hands_reel toy_pictures mock_files
              ["out/a.gif"; "out/b.gif"] "out/demo-stitched.gif" 150 6
              [clip_a; clip_b])
    as (first & rest & _ & Hframes & Hrun & Hlen & _).
  - repeat constructor.
  - discriminate.
  - lia.
  - exists first, rest. split_and!; [exact Hframes|exact Hrun|exact Hlen].
Defined.

(** The animation written for the two clips with six separator frames: the
    encoder is handed nine frames, the file holds three, the six copies of
    the last frame of the first clip being folded into it as [6 * 150] ms
    more on that frame. *)
Lemma stitch_gifs_separators_folded :
  mock_files !! "out/a.gif" = Some (Animation clip_a.1 clip_a.2)
  ∧ mock_files !! "out/b.gif" = Some (Animation clip_b.1 clip_b.2)
  ∧ clip_frames clip_a = 2%nat ∧ clip_frames clip_b = 1%nat
  ∧ ∃ first rest,
      @stitch_gifs toy_pictures ["out/a.gif"; "out/b.gif"]
        "out/demo-stitched.gif" 150 6 mock_files
      = (Ok tt, <["out/demo-stitched.gif" := Animation first rest]> mock_files)
      ∧ frames_of first rest
        = [Frame ((Palette, 1%nat) : @picture toy_pictures) (Some 150);
           Frame ((Palette, 2%nat) : @picture toy_pictures) (Some 1050);
           Frame ((Palette, 3%nat) : @picture toy_pictures) (Some 100)]
      ∧ len (frames_of first rest) ≠ (2 + 1) + 6 * (2 - 1).
Proof.
  split_and!; [reflexivity..|].
  eexists _, _. split_and!; [vm_compute; reflexivity|reflexivity|].
  vm_compute. discriminate.
Qed.

(** The stitched reel of the two clips with two separator frames. *)
Example stitch_gifs_two_clips :
  @stitch_frames toy_pictures mock_files ["out/a.gif"; "out/b.gif"] 150 2
  = Ok ([(Rgb, 1%nat); (Rgb, 2%nat); (Rgb, 2%nat); (Rgb, 2%nat); (Rgb, 3%nat)],
        [150; 150; 150; 150; 100]).
Proof. vm_compute. reflexivity. Qed.

(** A missing source in the middle is skipped together with its separator. *)
Example stitch_gifs_skips_missing :
  @stitch_frames toy_pictures mock_files
    ["out/a.gif"; "out/none.gif"; "out/b.gif"] 150 1
  = Ok ([(Rgb, 1%nat); (Rgb, 2%nat); (Rgb, 2%nat); (Rgb, 3%nat)],
        [150; 150; 150; 100]).
Proof. vm_compute. reflexivity. Qed.

Lemma stitch_gifs_nothing_to_stitch_witness :
  @stitch_gifs toy_pictures ["out/x.gif"; "out/y.gif"]
    "out/demo-back-to-back.gif" 150 0 mock_files
  = (Ok tt, mock_files).
Proof.
  destruct (@stitch_gifs_nothing_to_stitch toy_pictures mock_files
              ["out/x.gif"; "out/y.gif"] "out/demo-back-to-back.gif" 150 0)
    as (Hmissing & _ & _).
  apply Hmissing. repeat constructor.
Defined.

(** ** The model at work *)

Example resample_down_5_3 :
  resample ["0"; "1"; "2"; "3"; "4"] 3 = Ok ["0"; "2"; "4"].
Proof. reflexivity. Qed.

(** A tie goes to the even index: position 1 of 3 over 4 frames is 1.5. *)
Example resample_down_4_3 :
  resample ["0"; "1"; "2"; "3"] 3 = Ok ["0"; "2"; "3"].
Proof. reflexivity. Qed.

Example resample_down_6_3 :
  resample ["0"; "1"; "2"; "3"; "4"; "5"] 3 = Ok ["0"; "2"; "5"].
Proof. reflexivity. Qed.

Example resample_up_2_5 :
  resample ["0"; "1"] 5 = Ok ["0"; "1"; "1"; "1"; "1"].
Proof. reflexivity. Qed.

(** A whole scenario on the toy engine: three captures (6, 3 and 5 ticks)
    give 14 frame references, padded to the 80 frames of a 12 s animation at
    150 ms per frame; the page and the context end up closed.  The animation
    on disk shows the three captures for 900, 450 and 10650 ms: 12 s in
    three frames. *)
Example capture_scenario_calm :
  let '(r, s) :=
    @capture_scenario _ calm_engine "http://127.0.0.1:3000" "out" "claude"
      (toy_scenario calm_engine) 150 80 (toy_state calm_engine 0%nat) in
  r = Ok tt
  ∧ len (frame_paths s) = 80
  ∧ frame_index s = 3
  ∧ page_open s = false ∧ context_open s = false
  ∧ fs s !! "out/routing-demo.gif"
    = Some (Animation
              (Frame ((Palette, 0%nat) : @picture toy_pictures) (Some 900))
              [Frame ((Palette, 1%nat) : @picture toy_pictures) (Some 450);
               Frame ((Palette, 2%nat) : @picture toy_pictures) (Some 10650)]).
Proof. vm_compute. split_and!; reflexivity. Qed.

(** The same scenario when navigation times out: nothing is captured and no
    animation is written. *)
Example capture_scenario_stalled :
  let '(r, s) :=
    @capture_scenario _ stalled_engine "http://127.0.0.1:3000" "out" "claude"
      (toy_scenario stalled_engine) 150 80 (toy_state stalled_engine 0%nat) in
  r = Raise (RuntimeError "Scenario 'routing-demo' timed out")
  ∧ frame_paths s = []
  ∧ fs s !! "out/routing-demo.gif" = None
  ∧ page_open s = false ∧ context_open s = false.
Proof. vm_compute. split_and!; reflexivity. Qed.

(** * Further properties of the script *)

(** ** More on the resampler *)



(** Whatever the target, the resampler returns a sequence for a non-empty
    input and a positive target, of the target's length. *)
Lemma resample_ok_len (l : list Path) (t : Z) :
  1 ≤ len l → 1 ≤ t → ∃ out, resample l t = Ok out ∧ len out = t.
Proof.
  intros Hn Ht. unfold resample.
  destruct (Z.lt_trichotomy (len l) t) as [Hlt|[Heq|Hgt]].
  - rewrite shrink_same by lia. simpl.
    destruct (pad_grow l t Hn Hlt) as (x & _ & ->).
    eexists; split; [done|]. rewrite len_app, len_py_repeat. lia.
  - rewrite shrink_same by lia. simpl. rewrite pad_same by lia. eauto.
  - destruct (decide (t = 1)) as [->|Hne].
    + destruct (shrink_one l Hgt) as (x & _ & ->). simpl.
      rewrite pad_same by (unfold len; simpl; lia). eauto.
    + destruct (shrink_many l t) as (out & -> & Hlen & _); [lia|].
      simpl. rewrite pad_same by lia. eauto.
Qed.

Lemma last_elem_of {A} (l : list A) (x : A) : last l = Some x → x ∈ l.
Proof. rewrite last_lookup. apply list_elem_of_lookup_2. Qed.

(** Every frame the resampler returns is one of the captured frames. *)
Lemma resample_elem_of (l out : list Path) (t : Z) (x : Path) :
  resample l t = Ok out → x ∈ out → x ∈ l.
Proof.
  unfold resample.
  destruct (Z.lt_trichotomy (len l) t) as [Hlt|[Heq|Hgt]].
  - rewrite shrink_same by lia. simpl.
    destruct (decide (l = [])) as [->|Hl]; [by intros [= <-]|].
    destruct (pad_grow l t) as (y & Hlast & ->);
      [destruct l; [done|unfold len; simpl; lia]|done|].
    intros [= <-] Hx. apply elem_of_app in Hx as [Hx|Hx]; [done|].
    apply elem_of_replicate in Hx as [-> _]. by apply last_elem_of.
  - rewrite shrink_same by lia. simpl. rewrite pad_same by lia.
    by intros [= <-].
  - destruct (decide (t = 1)) as [->|Hne].
    + destruct (shrink_one l Hgt) as (y & Hlast & ->). simpl.
      rewrite pad_same by (unfold len; simpl; lia).
      intros [= <-] Hx. apply list_elem_of_singleton in Hx as ->.
      by apply last_elem_of.
    + destruct (decide (2 ≤ t)) as [Hbig|Hsmall].
      * destruct (shrink_many l t) as (picked & -> & Hlen & Hpick); [lia|].
        simpl. rewrite pad_same by lia. intros [= <-] Hx.
        apply list_elem_of_lookup in Hx as (k & Hk).
        destruct (Hpick k) as (idx & _ & _ & Hidx).
        { apply lookup_lt_Some in Hk. unfold len in Hlen. lia. }
        rewrite Hk in Hidx. symmetry in Hidx.
        by apply list_elem_of_lookup_2 in Hidx.
      * unfold shrink. destruct l as [|p l]; [by intros [= <-]|].
        rewrite bool_decide_eq_true_2 by done.
        destruct (t <? len (p :: l)) eqn:Hlt; [|lia]. simpl.
        destruct (t =? 1) eqn:H1; [lia|].
        unfold py_range. replace (Z.to_nat t) with 0%nat by lia. simpl.
        replace (pad [] t) with (Ok (@nil string)) by reflexivity.
        intros [= <-] Hx. by apply not_elem_of_nil in Hx.
Qed.

(** X1. When the target length equals the number of captured frames, the
    resampler returns the sequence unchanged, element for element (the empty
    sequence included). *)
Theorem resample_identity (frame_paths : list Path) (t : Z) :
  t = len frame_paths → resample frame_paths t = Ok frame_paths.
Proof.
  intros ->. unfold resample. rewrite shrink_same by lia. simpl.
  by rewrite pad_same by lia.
Qed.

Lemma resample_identity_witness :
  resample ["0"; "1"; "2"] 3 = Ok ["0"; "1"; "2"].
Proof. apply (resample_identity ["0"; "1"; "2"] 3). reflexivity. Defined.

(** X2. The resampler invents no frame: whatever the input and the target,
    every element of the sequence it returns is an element of the captured
    sequence. *)
Theorem resample_only_captured_frames (frame_paths out : list Path) (t : Z) :
  resample frame_paths t = Ok out → ∀ shot, shot ∈ out → shot ∈ frame_paths.
Proof. intros Hrun shot. by apply (resample_elem_of frame_paths out t). Qed.

Lemma resample_only_captured_frames_witness :
  "2" ∈ ["0"; "1"; "2"; "3"; "4"].
Proof.
  apply (resample_only_captured_frames ["0"; "1"; "2"; "3"; "4"]
           ["0"; "2"; "4"] 3).
  - reflexivity.
  - apply list_elem_of_In. simpl. tauto.
Defined.



(** ** More on [write_gif] *)

Section WriteGifProperties.
Context `{ImageLib}.

Lemma open_all_ok (files : gmap string file) (paths : list Path)
    (images : list (frame * list frame)) :
  Forall2 (λ path img, files !! path = Some (Animation img.1 img.2))
    paths images →
  open_all files paths
  = Ok ((λ img, convert_rgb (frame_pic img.1)) <$> images).
Proof.
  induction 1 as [|path img paths images Hpath _ IH]; [done|].
  cbn [open_all]. unfold image_open. rewrite Hpath. cbn [rbind].
  rewrite IH. done.
Qed.

Lemma decodable_images (files : gmap string file) (paths : list Path) :
  Forall (decodable files) paths →
  ∃ images, Forall2 (λ path img, files !! path = Some (Animation img.1 img.2))
              paths images.
Proof.
  induction 1 as [|path paths (first & more & Hpath) _ (images & IH)].
  - exists []. constructor.
  - exists ((first, more) :: images). by constructor.
Qed.

(** What [write_gif] does with frames that can all be opened. *)
Lemma write_gif_ok (paths : list Path) (output : Path) (frame_ms : Z)
    (files : gmap string file) (images : list (frame * list frame)) :
  paths ≠ [] →
  Forall2 (λ path img, files !! path = Some (Animation img.1 img.2))
    paths images →
  ∃ first rest,
    write_gif paths output frame_ms files
    = (Ok tt, image_save output first rest files)
    ∧ frames_of first rest
      = (λ img, Frame (convert_rgb (frame_pic img.1)) (Some frame_ms))
          <$> images.
Proof.
  intros Hne Hall. unfold write_gif.
  rewrite bool_decide_eq_false_2 by done.
  rewrite (open_all_ok _ _ _ Hall).
  destruct Hall as [|path img paths images Hpath Hall]; [done|].
  cbn. eexists _, _. split; [done|].
  unfold frames_of. f_equal. by rewrite drop_0, <-list_fmap_compose.
Qed.

(** Saving an image changes the output path only. *)
Lemma image_save_other (output p : Path) (first : frame) (rest : list frame)
    (files : gmap string file) :
  p ≠ output → image_save output first rest files !! p = files !! p.
Proof. intros Hp. unfold image_save. by rewrite lookup_insert_ne. Qed.

Lemma image_save_output (output : Path) (first : frame) (rest : list frame)
    (files : gmap string file) :
  image_save output first rest files !! output = Some (gif_encode first rest).
Proof. unfold image_save. apply lookup_insert_eq. Qed.

(** X4. When every frame path holds an image, [write_gif] hands the encoder
    one frame per entry of [frame_paths] (a path listed twice gives two
    frames), each the RGB conversion of the first frame of its file, each to
    be shown for [frame_ms]; the output path holds what the encoder makes of
    them and no other file changes. *)
Theorem write_gif_writes_every_frame (frame_paths : list Path)
    (output_path : Path) (frame_ms : Z) (files : gmap string file)
    (images : list (frame * list frame)) :
  frame_paths ≠ [] →
  Forall2 (λ path img, files !! path = Some (Animation img.1 img.2))
    frame_paths images →
  ∃ first rest,
    write_gif frame_paths output_path frame_ms files
    = (Ok tt, image_save output_path first rest files)
    ∧ frames_of first rest
      = (λ img, Frame (convert_rgb (frame_pic img.1)) (Some frame_ms))
          <$> images
    ∧ length (frames_of first rest) = length frame_paths
    ∧ image_save output_path first rest files !! output_path
      = Some (gif_encode first rest)
    ∧ ∀ p, p ≠ output_path →
        image_save output_path first rest files !! p = files !! p.
Proof.
  intros Hne Hall.
  destruct (write_gif_ok _ output_path frame_ms _ _ Hne Hall)
    as (first & rest & Hrun & Hframes).
  exists first, rest. split_and!; [done|done| | |].
  - rewrite Hframes, length_fmap. symmetry. by eapply Forall2_length.
  - apply image_save_output.
  - intros p Hp. by apply image_save_other.
Qed.

(** [open_all] stops at the first path that cannot be opened. *)
Lemma open_all_missing (files : gmap string file) (before after : list Path)
    (bad : Path) :
  Forall (decodable files) before → files !! bad = None →
  open_all files (before ++ bad :: after) = Raise (FileNotFoundError bad).
Proof.
  intros Hbefore Hbad.
  induction Hbefore as [|path before (first & more & Hpath) _ IH];
    cbn [open_all app]; unfold image_open.
  - by rewrite Hbad.
  - rewrite Hpath. cbn [rbind]. by rewrite IH.
Qed.

(** X5. When a frame file is missing (and the files listed before it are
    images), [write_gif] raises [FileNotFoundError] for that path and writes
    nothing: the file system is as before. *)
Theorem write_gif_missing_frame (before after : list Path) (bad : Path)
    (output_path : Path) (frame_ms : Z) (files : gmap string file) :
  Forall (decodable files) before → files !! bad = None →
  write_gif (before ++ bad :: after) output_path frame_ms files
  = (Raise (FileNotFoundError bad), files).
Proof.
  intros Hbefore Hbad. unfold write_gif.
  rewrite bool_decide_eq_false_2 by (by destruct before).
  by rewrite (open_all_missing _ _ _ _ Hbefore Hbad).
Qed.

End WriteGifProperties.

Lemma write_gif_writes_every_frame_witness :
  ∃ first rest,
    @write_gif toy_pictures ["out/b.gif"; "out/a.gif"; "out/a.gif"]
      "out/x.gif" 150 mock_files
    = (Ok tt, image_save "out/x.gif" first rest mock_files)
    ∧ frames_of first rest
      = [Frame ((Rgb, 3%nat) : @picture toy_pictures) (Some 150);
         Frame ((Rgb, 1%nat) : @picture toy_pictures) (Some 150);
         Frame ((Rgb, 1%nat) : @picture toy_pictures) (Some 150)]
    ∧ length (frames_of first rest) = 3%nat.
Proof.
  destruct (@write_gif_writes_every_frame toy_pictures
              ["out/b.gif"; "out/a.gif"; "out/a.gif"] "out/x.gif" 150 mock_files
              [clip_b; clip_a; clip_a])
    as (first & rest & Hrun & Hframes & Hlen & _).
  - discriminate.
  - repeat constructor.
  - exists first, rest. split_and!; [exact Hrun|exact Hframes|exact Hlen].
Defined.

(** The file written for these three frames holds two: the repeated frame
    is stored once and shown for twice [frame_ms]. *)
Example write_gif_folds_repeats :
  (@write_gif toy_pictures ["out/b.gif"; "out/a.gif"; "out/a.gif"]
     "out/x.gif" 150 mock_files).2 !! "out/x.gif"
  = Some (Animation
            (Frame ((Palette, 3%nat) : @picture toy_pictures) (Some 150))
            [Frame ((Palette, 1%nat) : @picture toy_pictures) (Some 300)]).
Proof. vm_compute. reflexivity. Qed.

(** Durations are kept in hundredths of a second: 155 ms reads back as
    150 ms. *)
Example write_gif_rounds_durations :
  (@write_gif toy_pictures ["out/b.gif"; "out/a.gif"]
     "out/x.gif" 155 mock_files).2 !! "out/x.gif"
  = Some (Animation
            (Frame ((Palette, 3%nat) : @picture toy_pictures) (Some 150))
            [Frame ((Palette, 1%nat) : @picture toy_pictures) (Some 150)]).
Proof. vm_compute. reflexivity. Qed.

(** A [frame_ms] below 10 is stored as a delay of zero; read back by the
    stitcher, the first frame takes the default duration and the second
    one reads as 0 ms. *)
Example write_gif_short_delay_read_back :
  @stitch_frames toy_pictures
    (@write_gif toy_pictures ["out/b.gif"; "out/a.gif"] "out/x.gif" 5
       mock_files).2
    ["out/x.gif"] 99 0
  = Ok ([(Rgb, 3%nat); (Rgb, 1%nat)], [99; 0]).
Proof. vm_compute. reflexivity. Qed.

Lemma write_gif_missing_frame_witness :
  @write_gif toy_pictures (["out/a.gif"] ++ "out/none.png" :: ["out/b.gif"])
    "out/x.gif" 150 mock_files
  = (Raise (FileNotFoundError "out/none.png"), mock_files).
Proof.
  apply (@write_gif_missing_frame toy_pictures ["out/a.gif"] ["out/b.gif"]
           "out/none.png" "out/x.gif" 150 mock_files).
  - repeat constructor. by exists clip_a.1, clip_a.2.
  - reflexivity.
Defined.

(** ** More on the frame sink *)

Section MoreSinkProperties.
Context `{Engine}.

Lemma bind_ok_inv {A B} (m : M A) (k : A → M B) (s s' : state) (x : B) :
  bind m k s = (Ok x, s') →
  ∃ a s1, m s = (Ok a, s1) ∧ k a s1 = (Ok x, s').
Proof.
  unfold bind. destruct (m s) as [[a|e] s1]; [eauto|discriminate].
Qed.

(** A successful [snap], spelled out. *)
Lemma snap_ok_inv (frames_dir : Path) (d : Z) (s s' : state) :
  snap frames_dir d s = (Ok tt, s') →
  ∃ pic b, page_screenshot (browser s) = (Ok pic, b)
    ∧ s' = State (<[shot_path frames_dir (frame_index s) := still pic]> (fs s))
             b (page_open s) (context_open s)
             (frame_paths s
              ++ py_repeat (shot_path frames_dir (frame_index s)) (Z.max d 1))
             (frame_index s + 1) (video_path s).
Proof.
  unfold snap, bind, get, engine_call, modify.
  destruct (page_screenshot (browser s)) as [[pic|e] b]; [|discriminate].
  intros [= <-]. by exists pic, b.
Qed.

(** X6. A duplication count of zero or less counts as one: a successful
    [snap] then records exactly one reference to the new shot and advances
    the index by one. *)
Theorem snap_nonpositive_duplication (frames_dir : Path) (d : Z) (s : state)
    (pic : picture) (b : browser_state) :
  d ≤ 0 →
  page_screenshot (browser s) = (Ok pic, b) →
  ∃ s', snap frames_dir d s = (Ok tt, s')
    ∧ frame_paths s' = frame_paths s ++ [shot_path frames_dir (frame_index s)]
    ∧ frame_index s' = frame_index s + 1.
Proof.
  intros Hd Hshot. unfold snap, bind, get, engine_call, modify.
  rewrite Hshot. simpl. eexists. split; [done|]. simpl.
  rewrite Z.max_r by lia. done.
Qed.

(** X7. When the screenshot fails, [snap] raises the engine's exception and
    the sink is as before: no reference is recorded, no file is written and
    the index is not advanced. *)
Theorem snap_failure_records_nothing (frames_dir : Path) (d : Z) (s : state)
    (e : exn) (b : browser_state) :
  page_screenshot (browser s) = (Raise e, b) →
  ∃ s', snap frames_dir d s = (Raise e, s')
    ∧ frame_paths s' = frame_paths s
    ∧ frame_index s' = frame_index s
    ∧ fs s' = fs s.
Proof.
  intros Hshot. unfold snap, bind, get, engine_call. rewrite Hshot.
  eexists. by split_and!.
Qed.

Lemma snap_frames_on_disk (frames_dir : Path) (d : Z) (s s' : state) :
  frames_on_disk s → snap frames_dir d s = (Ok tt, s') → frames_on_disk s'.
Proof.
  intros Hdisk Hsnap. apply snap_ok_inv in Hsnap as (pic & b & _ & ->).
  intros p Hp. cbn in *.
  destruct (decide (p = shot_path frames_dir (frame_index s))) as [->|Hne].
  - exists pic. apply lookup_insert_eq.
  - rewrite lookup_insert_ne by done. apply Hdisk.
    apply elem_of_app in Hp as [Hp|Hp]; [done|].
    unfold py_repeat in Hp. by apply elem_of_replicate in Hp as [-> _].
Qed.

(** X8. [snap] keeps every recorded frame on disk: if each path of the
    sequence holds a screenshot before a successful [snap], each path of the
    longer sequence holds one afterwards. *)
Theorem snap_keeps_frames_on_disk (frames_dir : Path) (d : Z) (s s' : state) :
  frames_on_disk s → snap frames_dir d s = (Ok tt, s') →
  frames_on_disk s'
  ∧ ∃ pic, fs s' !! shot_path frames_dir (frame_index s) = Some (still pic).
Proof.
  intros Hdisk Hsnap. split; [by eapply snap_frames_on_disk|].
  apply snap_ok_inv in Hsnap as (pic & b & _ & ->). cbn.
  exists pic. apply lookup_insert_eq.
Qed.

(** The last statement of the [try] body is [snap(5)]. *)
Lemma run_script_ok_inv (base_url : string) (frames_dir : Path)
    (scenario : Scenario) (s s' : state) :
  run_script base_url frames_dir scenario s = (Ok tt, s') →
  ∃ s7, snap frames_dir 5 s7 = (Ok tt, s').
Proof.
  unfold run_script. intros Hrun.
  do 7 (apply bind_ok_inv in Hrun as (? & ? & _ & Hrun)). eauto.
Qed.

(** X9. After a successful [try] body the frame sequence ends with five
    references to the closing shot; in particular it is not empty, so the
    empty-sequence error of [write_gif] cannot follow a successful run. *)
Theorem run_script_leaves_frames (base_url : string) (frames_dir : Path)
    (scenario : Scenario) (s s' : state) :
  run_script base_url frames_dir scenario s = (Ok tt, s') →
  ∃ earlier shot, frame_paths s' = earlier ++ replicate 5 shot
    ∧ 5 ≤ len (frame_paths s') ∧ frame_paths s' ≠ [].
Proof.
  intros Hrun. apply run_script_ok_inv in Hrun as (s7 & Hsnap).
  apply snap_ok_inv in Hsnap as (pic & b & _ & ->). cbn.
  eexists _, _. split_and!; [done| |].
  - rewrite len_app, len_py_repeat. pose proof (len_nonneg (frame_paths s7)).
    lia.
  - intros Hnil. apply (f_equal len) in Hnil.
    rewrite len_app, len_py_repeat in Hnil.
    pose proof (len_nonneg (frame_paths s7)).
    change (len (@nil string)) with 0 in Hnil. lia.
Qed.

End MoreSinkProperties.

Lemma snap_nonpositive_duplication_witness :
  ∃ s', @snap _ calm_engine "out/_frames/routing-demo" 0
          (toy_state calm_engine 0%nat) = (Ok tt, s')
    ∧ frame_paths s' = ["out/_frames/routing-demo/0000.png"]
    ∧ frame_index s' = 1.
Proof.
  apply (@snap_nonpositive_duplication _ calm_engine "out/_frames/routing-demo"
           0 (toy_state calm_engine 0%nat) (Palette, 0%nat) 1%nat).
  - lia.
  - reflexivity.
Defined.

Lemma snap_keeps_frames_on_disk_witness :
  @frames_on_disk _ calm_engine
    (@snap _ calm_engine "out/_frames/routing-demo" 3
       (toy_state calm_engine 0%nat)).2
  ∧ ∃ pic,
      fs (@snap _ calm_engine "out/_frames/routing-demo" 3
            (toy_state calm_engine 0%nat)).2
        !! "out/_frames/routing-demo/0000.png"
      = Some (@still toy_pictures pic).
Proof.
  apply (@snap_keeps_frames_on_disk _ calm_engine "out/_frames/routing-demo" 3
           (toy_state calm_engine 0%nat)).
  - intros p Hp. by apply not_elem_of_nil in Hp.
  - reflexivity.
Defined.

Lemma run_script_leaves_frames_witness :
  ∃ earlier shot,
    frame_paths
      (@run_script _ calm_engine "http://127.0.0.1:3000"
         "out/_frames/routing-demo" (toy_scenario calm_engine)
         (toy_state calm_engine 0%nat)).2
    = earlier ++ replicate 5 shot
    ∧ 5 ≤ len (frame_paths
                 (@run_script _ calm_engine "http://127.0.0.1:3000"
                    "out/_frames/routing-demo" (toy_scenario calm_engine)
                    (toy_state calm_engine 0%nat)).2)
    ∧ frame_paths
        (@run_script _ calm_engine "http://127.0.0.1:3000"
           "out/_frames/routing-demo" (toy_scenario calm_engine)
           (toy_state calm_engine 0%nat)).2 ≠ [].
Proof.
  apply (@run_script_leaves_frames _ calm_engine "http://127.0.0.1:3000"
           "out/_frames/routing-demo" (toy_scenario calm_engine)
           (toy_state calm_engine 0%nat)).
  reflexivity.
Defined.

Lemma snap_failure_records_nothing_witness :
  ∃ s', @snap _ blind_engine "out/_frames/routing-demo" 6
          (toy_state blind_engine 0%nat) = (Raise (OtherError "Error"), s')
    ∧ frame_paths s' = []
    ∧ frame_index s' = 0
    ∧ fs s' = ∅.
Proof.
  apply (@snap_failure_records_nothing _ blind_engine "out/_frames/routing-demo"
           6 (toy_state blind_engine 0%nat) (OtherError "Error") 0%nat).
  reflexivity.
Defined.

(** ** More on [capture_scenario] *)

Section MoreOrchestratorProperties.
Context `{Engine}.

(** X10. [new_page] runs before the [try] statement: when it raises,
    [capture_scenario] raises the same exception at once, with no frame
    captured and no file written, and no cleanup runs; a context that had
    been created before the failing step is left open. *)
Theorem capture_scenario_new_page_failure (base_url : string) (out_dir : Path)
    (provider : string) (scenario : Scenario) (frame_ms ceil_frames : Z)
    (s0 s1 : state) (e : exn) (b : browser_state) :
  browser_new_context (path_join out_dir "_raw-video") (browser s0) = (Ok tt, b) →
  new_page (path_join out_dir "_raw-video") provider
    (set_frame_index 0 (set_frame_paths [] s0)) = (Raise e, s1) →
  capture_scenario base_url out_dir provider scenario frame_ms ceil_frames s0
  = (Raise e, s1)
  ∧ context_open s1 = true
  ∧ frame_paths s1 = []
  ∧ fs s1 = fs s0.
Proof.
  intros Hcontext Hnew. split.
  - unfold capture_scenario.
    unfold bind at 1. unfold modify at 1. unfold bind at 1. unfold modify at 1.
    unfold bind at 1. by rewrite Hnew.
  - revert Hnew. unfold new_page, bind, engine_call, modify. cbn.
    rewrite Hcontext. cbn.
    destruct (context_add_provider_script provider b) as [[[]|e1] b1]; cbn;
      [|by intros [= <- <-]].
    destruct (context_add_cursor_script b1) as [[[]|e2] b2]; cbn;
      [|by intros [= <- <-]].
    destruct (context_new_page b2) as [[[]|e3] b3]; cbn;
      [|by intros [= <- <-]].
    destruct (page_set_default_timeout 18000 b3) as [[[]|e4] b4]; cbn;
      [discriminate|by intros [= <- <-]].
Qed.

(** Resampling and writing frames that are all on disk. *)
Lemma resample_and_write_ok (out_dir : Path) (scenario : Scenario)
    (frame_ms ceil_frames : Z) (s : state) :
  frame_paths s ≠ [] →
  Forall (decodable (fs s)) (frame_paths s) →
  frame_ms ≠ 0 →
  ∃ resampled first rest,
    resample_and_write out_dir scenario frame_ms ceil_frames s
    = (Ok tt,
       set_fs (image_save (path_join out_dir (key scenario +:+ ".gif"))
                 first rest (fs s))
         (set_frame_paths resampled s))
    ∧ len resampled = Z.max 1 ceil_frames
    ∧ len (frames_of first rest) = Z.max 1 ceil_frames
    ∧ Forall (λ f, frame_duration f = Some frame_ms) (frames_of first rest).
Proof.
  intros Hne Hdisk Hms.
  unfold resample_and_write, bind, lift_result, target_frames_of, get, modify,
    lift_fs.
  destruct (frame_ms =? 0) eqn:Hms0; [lia|].
  destruct (resample_ok_len (frame_paths s) (Z.max 1 ceil_frames))
    as (resampled & Hres & Hlen); [|lia|].
  { destruct (frame_paths s); [done|unfold len; simpl; lia]. }
  rewrite Hres.
  assert (Forall (decodable (fs s)) resampled) as Hdisk'.
  { apply Forall_forall. intros p Hp.
    apply (proj1 (Forall_forall _ _) Hdisk).
    by apply (resample_elem_of _ _ _ _ Hres). }
  destruct (decodable_images _ _ Hdisk') as (images & Himages).
  destruct (write_gif_ok resampled (path_join out_dir (key scenario +:+ ".gif"))
              frame_ms (fs s) images) as (first & rest & Hwrite & Hframes);
    [|done|].
  { intros ->. unfold len in Hlen. simpl in Hlen. lia. }
  cbn [fs set_frame_paths]. rewrite Hwrite.
  exists resampled, first, rest. split_and!; [done|done| |].
  - unfold len. rewrite Hframes, length_fmap.
    apply Forall2_length in Himages. unfold len in Hlen. lia.
  - rewrite Hframes. apply Forall_fmap, Forall_true. done.
Qed.

(** A frame budget that is computed comes from a [frame_ms] that is not
    zero. *)
Lemma ceil_frames_of_ok (target_seconds : float) (frame_ms ceil_frames : Z) :
  ceil_frames_of target_seconds frame_ms = Ok ceil_frames → frame_ms ≠ 0.
Proof.
  unfold ceil_frames_of. destruct (py_float_of_int frame_ms); [|discriminate].
  cbn [rbind]. destruct (frame_ms =? 0) eqn:Hms; [discriminate|]. lia.
Qed.

Lemma resample_and_write_seconds_ok (out_dir : Path) (scenario : Scenario)
    (frame_ms : Z) (target_seconds : float) (ceil_frames : Z) (s : state) :
  ceil_frames_of target_seconds frame_ms = Ok ceil_frames →
  resample_and_write_seconds out_dir scenario frame_ms target_seconds s
  = resample_and_write out_dir scenario frame_ms ceil_frames s.
Proof.
  intros Hceil. unfold resample_and_write_seconds.
  unfold bind at 1. unfold lift_result at 1. by rewrite Hceil.
Qed.

(** When the frame budget cannot be computed, the step raises and touches
    nothing. *)
Lemma resample_and_write_seconds_raise (out_dir : Path) (scenario : Scenario)
    (frame_ms : Z) (target_seconds : float) (e : exn) (s : state) :
  ceil_frames_of target_seconds frame_ms = Raise e →
  resample_and_write_seconds out_dir scenario frame_ms target_seconds s
  = (Raise e, s).
Proof.
  intros Hceil. unfold resample_and_write_seconds.
  unfold bind at 1. unfold lift_result at 1. by rewrite Hceil.
Qed.

(** X11. When the frame budget [math.ceil((target_seconds * 1000) /
    frame_ms)] is computed (a finite [target_seconds], a [frame_ms] that is
    not zero), at least one frame was captured and every captured frame is
    on disk, the resample-and-write step succeeds: it hands the encoder
    exactly [max(1, budget)] frames, each to be shown for [frame_ms], and
    [<out_dir>/<key>.gif] holds what the encoder makes of them; no other
    file changes. *)
Theorem resample_and_write_target_length (out_dir : Path)
    (scenario : Scenario) (frame_ms : Z) (target_seconds : float)
    (ceil_frames : Z) (s : state) :
  ceil_frames_of target_seconds frame_ms = Ok ceil_frames →
  frame_paths s ≠ [] →
  Forall (decodable (fs s)) (frame_paths s) →
  ∃ s' first rest,
    resample_and_write_seconds out_dir scenario frame_ms target_seconds s
    = (Ok tt, s')
    ∧ fs s' = image_save (path_join out_dir (key scenario +:+ ".gif"))
                first rest (fs s)
    ∧ len (frames_of first rest) = Z.max 1 ceil_frames
    ∧ Forall (λ f, frame_duration f = Some frame_ms) (frames_of first rest)
    ∧ len (frame_paths s') = Z.max 1 ceil_frames
    ∧ ∀ p, p ≠ path_join out_dir (key scenario +:+ ".gif") →
        fs s' !! p = fs s !! p.
Proof.
  intros Hceil Hne Hdisk.
  rewrite (resample_and_write_seconds_ok _ _ _ _ _ _ Hceil).
  destruct (resample_and_write_ok out_dir scenario frame_ms ceil_frames s
              Hne Hdisk (ceil_frames_of_ok _ _ _ Hceil))
    as (resampled & first & rest & Hrun & Hlen & Hframes & Hdur).
  eexists _, first, rest. split_and!; [exact Hrun|done|done|done|done|].
  intros p Hp. cbn [fs set_fs]. by apply image_save_other.
Qed.

Lemma gif_webm_differ (out_dir key : string) :
  path_join out_dir (key +:+ ".gif") ≠ path_join out_dir (key +:+ ".webm").
Proof.
  unfold path_join. intros Heq.
  apply (inj (String.app out_dir)) in Heq.
  apply (inj (String.app "/")) in Heq.
  apply (inj (String.app key)) in Heq. discriminate.
Qed.

(** [copy_video] when no transcoder is installed. *)
Lemma copy_video_no_ffmpeg (out_dir : Path) (scenario : Scenario) (s : state) :
  ffmpeg = None →
  copy_video out_dir scenario s
  = (Ok tt,
     match video_path s with
     | Some raw =>
         match fs s !! raw with
         | Some content =>
             set_fs (<[path_join out_dir (key scenario +:+ ".webm")
                       := content]> (fs s)) s
         | None => s
         end
     | None => s
     end).
Proof.
  intros Hff. unfold copy_video, bind, get.
  destruct (video_path s) as [raw|]; [|done].
  destruct (fs s !! raw) as [content|]; [|done].
  unfold maybe_convert_webm_to_mp4. rewrite Hff. done.
Qed.

(** X12. Without a transcoder, [copy_video] never fails and produces no
    [.mp4]: with a recording on disk it copies it to [<out_dir>/<key>.webm]
    and leaves every other file alone; without one it changes nothing. *)
Theorem copy_video_without_transcoder (out_dir : Path) (scenario : Scenario)
    (s : state) :
  ffmpeg = None →
  ∃ s', copy_video out_dir scenario s = (Ok tt, s')
    ∧ (∀ p, p ≠ path_join out_dir (key scenario +:+ ".webm") →
         fs s' !! p = fs s !! p)
    ∧ (∀ raw content, video_path s = Some raw → fs s !! raw = Some content →
         fs s' !! path_join out_dir (key scenario +:+ ".webm") = Some content)
    ∧ ((video_path s = None ∨ ∃ raw, video_path s = Some raw ∧ fs s !! raw = None)
       → s' = s).
Proof.
  intros Hff. rewrite (copy_video_no_ffmpeg _ _ _ Hff).
  eexists. split; [done|].
  destruct (video_path s) as [raw|] eqn:Hvideo.
  - destruct (fs s !! raw) as [content|] eqn:Hraw.
    + split_and!.
      * intros p Hp. cbn. by rewrite lookup_insert_ne.
      * intros raw' content' [= <-] Hraw'. cbn. rewrite lookup_insert_eq.
        congruence.
      * intros [?|(raw' & [= <-] & ?)]; congruence.
    + split_and!; [done| |done]. intros raw' content' [= <-]. congruence.
  - split_and!; [done| |done]. intros raw' content' [=].
Qed.

Lemma run_script_nonempty (base_url : string) (frames_dir : Path)
    (scenario : Scenario) (s s' : state) :
  run_script base_url frames_dir scenario s = (Ok tt, s') → frame_paths s' ≠ [].
Proof.
  intros Hrun. apply run_script_ok_inv in Hrun as (s7 & Hsnap).
  apply snap_ok_inv in Hsnap as (pic & b & _ & ->). cbn.
  intros Hnil. apply (f_equal len) in Hnil.
  rewrite len_app, len_py_repeat in Hnil.
  pose proof (len_nonneg (frame_paths s7)).
  change (len (@nil string)) with 0 in Hnil. lia.
Qed.

Lemma capture_scenario_seconds_unfold (base_url : string) (out_dir : Path)
    (provider : string) (scenario : Scenario) (frame_ms : Z)
    (target_seconds : float) (s0 s1 : state) :
  new_page (path_join out_dir "_raw-video") provider
    (set_frame_index 0 (set_frame_paths [] s0)) = (Ok tt, s1) →
  capture_scenario_seconds base_url out_dir provider scenario frame_ms
    target_seconds s0
  = bind (guarded_script base_url
            (path_join (path_join out_dir "_frames") (key scenario)) scenario)
      (λ _, bind (resample_and_write_seconds out_dir scenario frame_ms
                    target_seconds)
              (λ _, copy_video out_dir scenario)) s1.
Proof.
  intros Hnew. unfold capture_scenario_seconds.
  unfold bind at 1. unfold modify at 1. unfold bind at 1. unfold modify at 1.
  unfold bind at 1. by rewrite Hnew.
Qed.

Lemma bind_ext {A B} (m : M A) (k k' : A → M B) (s : state) :
  (∀ a s', k a s' = k' a s') → bind m k s = bind m k' s.
Proof.
  intros Hk. unfold bind. destruct (m s) as [[a|e] s']; [apply Hk|done].
Qed.

(** Once the frame budget is computed, [capture_scenario_seconds] is
    [capture_scenario] at that budget. *)
Lemma capture_scenario_seconds_ok (base_url : string) (out_dir : Path)
    (provider : string) (scenario : Scenario) (frame_ms : Z)
    (target_seconds : float) (ceil_frames : Z) (s : state) :
  ceil_frames_of target_seconds frame_ms = Ok ceil_frames →
  capture_scenario_seconds base_url out_dir provider scenario frame_ms
    target_seconds s
  = capture_scenario base_url out_dir provider scenario frame_ms ceil_frames s.
Proof.
  intros Hceil. unfold capture_scenario_seconds, capture_scenario.
  do 4 (apply bind_ext; intros ? ?).
  unfold bind. by rewrite (resample_and_write_seconds_ok _ _ _ _ _ _ Hceil).
Qed.

(** X13. A scenario that runs through: if [new_page] and the [try] body
    succeed, the captured frames are still on disk once the context is
    closed, the frame budget [math.ceil((target_seconds * 1000) / frame_ms)]
    is computed and no transcoder is installed, then [capture_scenario]
    returns normally with the page and the context closed, and
    [<out_dir>/<key>.gif] holds what the encoder makes of exactly
    [max(1, budget)] frames of [frame_ms] each. *)
Theorem capture_scenario_success (base_url : string) (out_dir : Path)
    (provider : string) (scenario : Scenario) (frame_ms : Z)
    (target_seconds : float) (ceil_frames : Z) (s0 s1 s2 : state) :
  ffmpeg = None →
  ceil_frames_of target_seconds frame_ms = Ok ceil_frames →
  new_page (path_join out_dir "_raw-video") provider
    (set_frame_index 0 (set_frame_paths [] s0)) = (Ok tt, s1) →
  run_script base_url (path_join (path_join out_dir "_frames") (key scenario))
    scenario s1 = (Ok tt, s2) →
  Forall (decodable (context_close_files (page_close_state (browser s2)) (fs s2)))
    (frame_paths s2) →
  ∃ s3 first rest,
    capture_scenario_seconds base_url out_dir provider scenario frame_ms
      target_seconds s0
    = (Ok tt, s3)
    ∧ page_open s3 = false
    ∧ context_open s3 = false
    ∧ fs s3 !! path_join out_dir (key scenario +:+ ".gif")
      = Some (gif_encode first rest)
    ∧ len (frames_of first rest) = Z.max 1 ceil_frames
    ∧ Forall (λ f, frame_duration f = Some frame_ms) (frames_of first rest).
Proof.
  intros Hff Hceil Hnew Hrun Hdisk.
  rewrite (capture_scenario_seconds_unfold _ _ _ _ _ _ _ _ Hnew).
  unfold bind at 1. unfold guarded_script, try_finally, try_except.
  rewrite Hrun.
  destruct (cleanup_closes s2) as (sc & -> & Hpage & Hcontext & Hpaths & _ & Hfs).
  assert (frame_paths sc ≠ []) as Hne.
  { rewrite Hpaths. by apply (run_script_nonempty _ _ _ _ _ Hrun). }
  destruct (resample_and_write_ok out_dir scenario frame_ms ceil_frames sc Hne)
    as (resampled & first & rest & Hwrite & _ & Hlen & Hdur);
    [|by apply (ceil_frames_of_ok _ _ _ Hceil)|].
  { by rewrite Hfs, Hpaths. }
  unfold bind.
  rewrite (resample_and_write_seconds_ok _ _ _ _ _ _ Hceil), Hwrite,
    (copy_video_no_ffmpeg _ _ _ Hff).
  eexists _, first, rest. split; [done|].
  cbn [video_path fs set_fs set_frame_paths].
  destruct (video_path sc) as [raw|]; cbn.
  - destruct (_ !! raw) as [content|]; cbn.
    + split_and!; [done|done| |done|done].
      rewrite lookup_insert_ne
        by (intros Heq; symmetry in Heq; by apply gif_webm_differ in Heq).
      apply image_save_output.
    + split_and!; [done|done| |done|done]. apply image_save_output.
  - split_and!; [done|done| |done|done]. apply image_save_output.
Qed.

(** X29. The frame budget is computed only after the scenario was driven
    through: when [new_page] and the [try] body succeed but
    [math.ceil((target_seconds * 1000) / frame_ms)] raises (a zero
    [frame_ms], a [target_seconds] that is not finite), [capture_scenario]
    raises that exception with the page and the context closed, the captured
    frames left as they are and no animation or video written. *)
Theorem capture_scenario_no_budget (base_url : string) (out_dir : Path)
    (provider : string) (scenario : Scenario) (frame_ms : Z)
    (target_seconds : float) (e : exn) (s0 s1 s2 : state) :
  ceil_frames_of target_seconds frame_ms = Raise e →
  new_page (path_join out_dir "_raw-video") provider
    (set_frame_index 0 (set_frame_paths [] s0)) = (Ok tt, s1) →
  run_script base_url (path_join (path_join out_dir "_frames") (key scenario))
    scenario s1 = (Ok tt, s2) →
  ∃ s3,
    capture_scenario_seconds base_url out_dir provider scenario frame_ms
      target_seconds s0
    = (Raise e, s3)
    ∧ page_open s3 = false
    ∧ context_open s3 = false
    ∧ frame_paths s3 = frame_paths s2
    ∧ fs s3 = context_close_files (page_close_state (browser s2)) (fs s2).
Proof.
  intros Hceil Hnew Hrun.
  rewrite (capture_scenario_seconds_unfold _ _ _ _ _ _ _ _ Hnew).
  unfold bind at 1. unfold guarded_script, try_finally, try_except.
  rewrite Hrun.
  destruct (cleanup_closes s2) as (sc & -> & Hpage & Hcontext & Hpaths & _ & Hfs).
  unfold bind. rewrite (resample_and_write_seconds_raise _ _ _ _ _ _ Hceil).
  exists sc. by split_and!.
Qed.

End MoreOrchestratorProperties.

Lemma capture_scenario_new_page_failure_witness :
  @capture_scenario _ crashing_engine "http://127.0.0.1:3000" "out" "claude"
    (toy_scenario crashing_engine) 150 80 (toy_state crashing_engine 0%nat)
  = (Raise (OtherError "Error"),
     (@new_page _ crashing_engine "out/_raw-video" "claude"
        (toy_state crashing_engine 0%nat)).2)
  ∧ context_open
      (@new_page _ crashing_engine "out/_raw-video" "claude"
         (toy_state crashing_engine 0%nat)).2 = true.
Proof.
  destruct (@capture_scenario_new_page_failure _ crashing_engine
              "http://127.0.0.1:3000" "out" "claude"
              (toy_scenario crashing_engine) 150 80
              (toy_state crashing_engine 0%nat)
              (@new_page _ crashing_engine "out/_raw-video" "claude"
                 (toy_state crashing_engine 0%nat)).2
              (OtherError "Error") 0%nat)
    as (Hrun & Hopen & _).
  - reflexivity.
  - reflexivity.
  - split; [exact Hrun|exact Hopen].
Defined.

Lemma resample_and_write_target_length_witness :
  ∃ s' first rest,
    @resample_and_write_seconds _ calm_engine "out" (toy_scenario calm_engine)
      150 0.5
      (@snap _ calm_engine "out/_frames/routing-demo" 2
         (toy_state calm_engine 0%nat)).2
    = (Ok tt, s')
    ∧ fs s' !! "out/routing-demo.gif" = Some (gif_encode first rest)
    ∧ len (frames_of first rest) = 4.
Proof.
  destruct (@resample_and_write_target_length _ calm_engine "out"
              (toy_scenario calm_engine) 150 0.5 4
              (@snap _ calm_engine "out/_frames/routing-demo" 2
                 (toy_state calm_engine 0%nat)).2)
    as (s' & first & rest & Hrun & Hfs & Hlen & _).
  - vm_compute. reflexivity.
  - discriminate.
  - repeat (constructor; [eexists _, _; reflexivity|]). constructor.
  - exists s', first, rest. split_and!; [exact Hrun| |exact Hlen].
    rewrite Hfs. apply image_save_output.
Defined.

(** The frame budget at work: the default 12 s at 150 ms, a budget rounded
    up, and the two ways [math.ceil] fails. *)
Example ceil_frames_of_default : ceil_frames_of 12 150 = Ok 80.
Proof. vm_compute. reflexivity. Qed.

Example ceil_frames_of_rounds_up : ceil_frames_of 0.5 150 = Ok 4.
Proof. vm_compute. reflexivity. Qed.

Example ceil_frames_of_zero : ceil_frames_of 12 0 = Raise ZeroDivisionError.
Proof. vm_compute. reflexivity. Qed.

Example ceil_frames_of_infinity :
  ceil_frames_of infinity 150 = Raise (OtherError "OverflowError").
Proof. vm_compute. reflexivity. Qed.

Example ceil_frames_of_nan :
  ceil_frames_of nan 150 = Raise (OtherError "ValueError").
Proof. vm_compute. reflexivity. Qed.

(** With a [target_seconds] that is not finite the step raises before any
    frame is resampled or written. *)
Example resample_and_write_seconds_infinity :
  @resample_and_write_seconds _ calm_engine "out" (toy_scenario calm_engine)
    150 infinity
    (@snap _ calm_engine "out/_frames/routing-demo" 2
       (toy_state calm_engine 0%nat)).2
  = (Raise (OtherError "OverflowError"),
     (@snap _ calm_engine "out/_frames/routing-demo" 2
        (toy_state calm_engine 0%nat)).2).
Proof. apply resample_and_write_seconds_raise. vm_compute. reflexivity. Qed.

Lemma copy_video_without_transcoder_witness :
  ∃ s',
    @copy_video _ filming_engine "out" (toy_scenario filming_engine)
      filmed_state
    = (Ok tt, s')
    ∧ fs s' !! "out/routing-demo.webm" = Some (Blob "webm")
    ∧ fs s' !! "out/routing-demo.mp4" = None.
Proof.
  destruct (@copy_video_without_transcoder _ filming_engine "out"
              (toy_scenario filming_engine)
              filmed_state)
    as (s' & Hrun & Hother & Hcopy & _).
  - reflexivity.
  - exists s'. split_and!; [exact Hrun| |].
    + apply (Hcopy "out/_raw-video/page.webm"); reflexivity.
    + rewrite Hother by discriminate. reflexivity.
Defined.

Lemma capture_scenario_success_witness :
  ∃ s3 first rest,
    @capture_scenario_seconds _ calm_engine "http://127.0.0.1:3000" "out"
      "claude" (toy_scenario calm_engine) 150 12 (toy_state calm_engine 0%nat)
    = (Ok tt, s3)
    ∧ page_open s3 = false
    ∧ context_open s3 = false
    ∧ fs s3 !! "out/routing-demo.gif" = Some (gif_encode first rest)
    ∧ len (frames_of first rest) = 80.
Proof.
  destruct (@capture_scenario_success _ calm_engine "http://127.0.0.1:3000"
              "out" "claude" (toy_scenario calm_engine) 150 12 80
              (toy_state calm_engine 0%nat)
              (@new_page _ calm_engine "out/_raw-video" "claude"
                 (toy_state calm_engine 0%nat)).2
              (@run_script _ calm_engine "http://127.0.0.1:3000"
                 "out/_frames/routing-demo" (toy_scenario calm_engine)
                 (@new_page _ calm_engine "out/_raw-video" "claude"
                    (toy_state calm_engine 0%nat)).2).2)
    as (s3 & first & rest & Hrun & Hpage & Hcontext & Hgif & Hlen & _).
  - reflexivity.
  - vm_compute. reflexivity.
  - vm_compute. reflexivity.
  - vm_compute. reflexivity.
  - vm_compute. repeat (constructor; [eexists _, _; reflexivity|]). constructor.
  - exists s3, first, rest.
    split_and!; [exact Hrun|exact Hpage|exact Hcontext|exact Hgif|exact Hlen].
Defined.

Lemma capture_scenario_no_budget_witness :
  ∃ s3,
    @capture_scenario_seconds _ calm_engine "http://127.0.0.1:3000" "out"
      "claude" (toy_scenario calm_engine) 150 infinity
      (toy_state calm_engine 0%nat)
    = (Raise (OtherError "OverflowError"), s3)
    ∧ page_open s3 = false
    ∧ context_open s3 = false
    ∧ len (frame_paths s3) = 14
    ∧ fs s3 !! "out/routing-demo.gif" = None.
Proof.
  destruct (@capture_scenario_no_budget _ calm_engine "http://127.0.0.1:3000"
              "out" "claude" (toy_scenario calm_engine) 150 infinity
              (OtherError "OverflowError")
              (toy_state calm_engine 0%nat)
              (@new_page _ calm_engine "out/_raw-video" "claude"
                 (toy_state calm_engine 0%nat)).2
              (@run_script _ calm_engine "http://127.0.0.1:3000"
                 "out/_frames/routing-demo" (toy_scenario calm_engine)
                 (@new_page _ calm_engine "out/_raw-video" "claude"
                    (toy_state calm_engine 0%nat)).2).2)
    as (s3 & Hrun & Hpage & Hcontext & Hpaths & Hfs).
  - vm_compute. reflexivity.
  - vm_compute. reflexivity.
  - vm_compute. reflexivity.
  - exists s3. split_and!; [exact Hrun|exact Hpage|exact Hcontext| |].
    + rewrite Hpaths. vm_compute. reflexivity.
    + rewrite Hfs. vm_compute. reflexivity.
Defined.

(** ** More on the discovery helpers *)

(** The loop of [resolve_session_ids], with the identifiers collected so
    far: it stops as soon as [count] of them are there. *)
Lemma session_loop_spec (count : Z) (rows : list json) (ids : list string) :
  len ids < count →
  session_loop count rows ids
  = take (Z.to_nat count) (ids ++ valid_session_ids rows).
Proof.
  revert ids. induction rows as [|row rows IH]; intros ids Hlen.
  - cbn. rewrite app_nil_r. rewrite take_ge; [done|]. unfold len in Hlen. lia.
  - cbn [session_loop]. unfold valid_session_ids. cbn [omap list_omap].
    fold (valid_session_ids rows).
    destruct row as [| | | | | |fields]; cbn [session_id]; try by apply IH.
    assert (∀ ids', len ids' < count ∨ len ids' = count →
              (if count <=? len ids' then ids'
               else session_loop count rows ids')
              = take (Z.to_nat count) (ids' ++ valid_session_ids rows))
      as Hstep.
    { intros ids' [Hlt|Heq].
      - destruct (count <=? len ids') eqn:Hle; [lia|]. by apply IH.
      - destruct (count <=? len ids') eqn:Hle; [|lia].
        rewrite take_app_le by (unfold len in Heq; lia).
        rewrite take_ge; [done|]. unfold len in Heq. lia. }
    destruct (fields !! "id") as [[| | | |sid| |]|]; try (apply Hstep; by left).
    destruct (str_truthy sid); [|apply Hstep; by left].
    rewrite (Hstep (ids ++ [sid])).
    + by rewrite <-app_assoc.
    + rewrite len_app. change (len [sid]) with 1. lia.
Qed.

(** X14. For [count >= 1] and a payload of the expected shape,
    [resolve_session_ids] returns the first [count] usable identifiers in
    the order of the payload: the non-empty string [id]s of the rows that
    are dictionaries, every other row being skipped. *)
Theorem resolve_session_ids_first_valid (fetch : api) (base_url : string)
    (count : Z) (fields : gmap string json) (sessions : list json) :
  1 ≤ count →
  fetch (base_url +:+ "/api/sessions?" +:+ session_params) = Ok (JDict fields) →
  fields !! "sessions" = Some (JList sessions) →
  resolve_session_ids fetch base_url count
  = Ok (take (Z.to_nat count) (valid_session_ids sessions)).
Proof.
  intros Hcount Hfetch Hsessions. unfold resolve_session_ids.
  rewrite Hfetch, Hsessions. f_equal.
  rewrite session_loop_spec by (unfold len; cbn; lia). done.
Qed.

(** With [count <= 0] the test [len(ids) >= count] holds after the very
    first dictionary row. *)
Lemma session_loop_short (count : Z) (rows : list json) :
  count ≤ 0 → len (session_loop count rows []) ≤ 1.
Proof.
  intros Hcount. induction rows as [|row rows IH]; [unfold len; cbn; lia|].
  cbn [session_loop].
  destruct row as [| | | | | |fields]; try done.
  pose proof (len_nonneg (A:=string)) as Hnn.
  destruct (fields !! "id") as [[| | | |sid| |]|];
    try (destruct (count <=? len []) eqn:Hle;
         [unfold len; cbn; lia|unfold len in Hle; cbn in Hle; lia]).
  destruct (str_truthy sid).
  - destruct (count <=? len ([] ++ [sid])) eqn:Hle; [unfold len; cbn; lia|].
    specialize (Hnn ([] ++ [sid])). lia.
  - destruct (count <=? len []) eqn:Hle;
      [unfold len; cbn; lia|unfold len in Hle; cbn in Hle; lia].
Qed.

(** X15. [resolve_session_ids] never returns more than [max(count, 1)]
    identifiers, whatever the endpoint answers; the bound is 1, not 0, for
    [count <= 0], the count being tested only after a row was taken. *)
Theorem resolve_session_ids_bounded (fetch : api) (base_url : string)
    (count : Z) (ids : list string) :
  resolve_session_ids fetch base_url count = Ok ids →
  len ids ≤ Z.max count 1.
Proof.
  unfold resolve_session_ids.
  assert (len (@nil string) ≤ Z.max count 1) as Hnil by (unfold len; cbn; lia).
  destruct (fetch _) as [data|e].
  - destruct data as [| | | | | |fields]; try by intros [= <-].
    destruct (fields !! "sessions") as [[| | | | |sessions|]|];
      try by intros [= <-].
    intros [= <-]. destruct (decide (1 ≤ count)) as [Hpos|Hneg].
    + rewrite session_loop_spec by (unfold len; cbn; lia).
      unfold len. rewrite length_take. lia.
    + pose proof (session_loop_short count sessions ltac:(lia)). lia.
  - destruct (is_Exception e); [by intros [= <-]|discriminate].
Qed.

Lemma resolve_session_ids_first_valid_witness :
  resolve_session_ids
    (λ _, Ok (JDict (list_to_map
                [("sessions",
                  JList [obj [("id", JStr "s1")]; JNull;
                         obj [("id", JStr "")]; obj [("id", JStr "s2")];
                         obj [("id", JStr "s3")]])])))
    "http://127.0.0.1:3000" 2
  = Ok (take 2
          (valid_session_ids
             [obj [("id", JStr "s1")]; JNull; obj [("id", JStr "")];
              obj [("id", JStr "s2")]; obj [("id", JStr "s3")]])).
Proof.
  apply (resolve_session_ids_first_valid _ "http://127.0.0.1:3000" 2
           (list_to_map
              [("sessions",
                JList [obj [("id", JStr "s1")]; JNull;
                       obj [("id", JStr "")]; obj [("id", JStr "s2")];
                       obj [("id", JStr "s3")]])])).
  - lia.
  - reflexivity.
  - reflexivity.
Defined.

Lemma resolve_session_ids_bounded_witness :
  len ["s1"] ≤ Z.max 0 1.
Proof.
  apply (resolve_session_ids_bounded
           (λ _, Ok (obj [("sessions",
                           JList [obj [("id", JStr "s1")];
                                  obj [("id", JStr "s2")]])]))
           "http://127.0.0.1:3000" 0 ["s1"]).
  vm_compute. reflexivity.
Defined.

Lemma tuple_ltb_lt (a b : Z * Z) : tuple_ltb a b = true → tuple_lt a b.
Proof.
  unfold tuple_ltb, tuple_lt. intros Hlt.
  apply orb_true_iff in Hlt as [Hlt|Hlt]; [lia|].
  apply andb_true_iff in Hlt. lia.
Qed.

Lemma tuple_le_lt_trans (a b c : Z * Z) :
  tuple_le a b → tuple_lt b c → tuple_lt a c.
Proof. unfold tuple_le, tuple_lt. lia. Qed.

Lemma tuple_lt_le (a b : Z * Z) : tuple_lt a b → tuple_le a b.
Proof. unfold tuple_le, tuple_lt. lia. Qed.

(** The running maximum splits the items seen so far: strictly smaller keys
    before it, no greater key after it. *)
Lemma max_loop_first {A} (key : A → Z * Z) (before : list A) (best : A)
    (middle items : list A) :
  Forall (λ x, tuple_lt (key x) (key best)) before →
  Forall (λ x, tuple_le (key x) (key best)) middle →
  ∃ before' after',
    before ++ best :: middle ++ items
    = before' ++ max_loop key best items :: after'
    ∧ Forall (λ x, tuple_lt (key x) (key (max_loop key best items))) before'
    ∧ Forall (λ x, tuple_le (key x) (key (max_loop key best items))) after'.
Proof.
  revert before best middle.
  induction items as [|item items IH]; intros before best middle Hbefore Hmiddle.
  - exists before, middle. by rewrite app_nil_r.
  - cbn [max_loop]. destruct (tuple_ltb (key best) (key item)) eqn:Hlt.
    + apply tuple_ltb_lt in Hlt.
      destruct (IH (before ++ best :: middle) item []) as (b' & a' & Heq & Hb & Ha).
      * rewrite Forall_app, Forall_cons. split_and!; [|done|].
        -- eapply Forall_impl; [exact Hbefore|]. cbn. intros x Hx.
           eapply tuple_le_lt_trans; [by apply tuple_lt_le|done].
        -- eapply Forall_impl; [exact Hmiddle|]. cbn. intros x Hx.
           by eapply tuple_le_lt_trans.
      * constructor.
      * exists b', a'. split; [|done]. rewrite <-Heq.
        by rewrite <-app_assoc.
    + apply tuple_ltb_false in Hlt.
      destruct (IH before best (middle ++ [item])) as (b' & a' & Heq & Hb & Ha).
      * done.
      * rewrite Forall_app, Forall_singleton. done.
      * exists b', a'. split; [|done]. rewrite <-Heq.
        by rewrite <-app_assoc.
Qed.

(** X16. Ties go to the earliest entry: the workflow [resolve_workflow_route]
    selects has a strictly greater (plan, node count) pair than every entry
    before it in the list, and no entry after it has a greater one. *)
Theorem resolve_workflow_route_first_max (fetch : api) (base_url : string)
    (first : json) (others : list json) :
  fetch (base_url +:+ "/api/workflows") = Ok (JList (first :: others)) →
  ∃ before best after,
    first :: others = before ++ best :: after
    ∧ resolve_workflow_route fetch base_url = Ok (route_of best)
    ∧ Forall (λ item, tuple_lt (score item) (score best)) before
    ∧ Forall (λ item, tuple_le (score item) (score best)) after.
Proof.
  intros Hfetch.
  destruct (max_loop_first score [] first [] others) as (b' & a' & Heq & Hb & Ha);
    [constructor..|].
  exists b', (max_loop score first others), a'. split_and!; [done| |done|done].
  unfold resolve_workflow_route. by rewrite Hfetch.
Qed.

Lemma route_of_prefix (best : json) :
  ∃ name, route_of best = "/workflows/" +:+ name ∧ name ≠ "".
Proof.
  assert (∃ name, fallback = "/workflows/" +:+ name ∧ name ≠ "") as Hfallback.
  { by exists "wf_demo_claude_release". }
  unfold route_of. destruct best as [| | | | | |fields]; try done.
  destruct (fields !! "id") as [[| | | |workflow_id| |]|]; try done.
  destruct workflow_id as [|c rest]; [done|].
  exists (String c rest). done.
Qed.

(** X17. Whatever the endpoint answers, a route returned by
    [resolve_workflow_route] is ["/workflows/"] followed by a non-empty
    name: the identifier of an entry, or that of the built-in demo
    workflow. *)
Theorem resolve_workflow_route_shape (fetch : api) (base_url : string)
    (route : string) :
  resolve_workflow_route fetch base_url = Ok route →
  ∃ name, route = "/workflows/" +:+ name ∧ name ≠ "".
Proof.
  assert (∃ name, fallback = "/workflows/" +:+ name ∧ name ≠ "") as Hfallback.
  { by exists "wf_demo_claude_release". }
  unfold resolve_workflow_route. destruct (fetch _) as [data|e].
  - destruct data as [| | | | |[|first others]|]; try by intros [= <-].
    intros [= <-]. apply route_of_prefix.
  - destruct (is_Exception e); [by intros [= <-]|discriminate].
Qed.

Lemma resolve_workflow_route_first_max_witness :
  ∃ before best after,
    [JDict ∅; obj [("id", JStr "a")]; obj [("id", JStr "b")]]
    = before ++ best :: after
    ∧ resolve_workflow_route
        (λ _, Ok (JList [JDict ∅; obj [("id", JStr "a")]; obj [("id", JStr "b")]]))
        "http://127.0.0.1:3000"
      = Ok (route_of best)
    ∧ Forall (λ item, tuple_lt (score item) (score best)) before
    ∧ Forall (λ item, tuple_le (score item) (score best)) after.
Proof.
  apply (resolve_workflow_route_first_max
           (λ _, Ok (JList [JDict ∅; obj [("id", JStr "a")];
                            obj [("id", JStr "b")]]))
           "http://127.0.0.1:3000").
  reflexivity.
Defined.

Lemma resolve_workflow_route_shape_witness :
  ∃ name, "/workflows/wf_planned" = "/workflows/" +:+ name ∧ name ≠ "".
Proof.
  apply (resolve_workflow_route_shape mock_api "http://127.0.0.1:3000").
  vm_compute. reflexivity.
Defined.

(** ** Whitespace and the generated plan *)

Lemma py_lstrip_truthy (s : string) :
  str_truthy (py_lstrip s) = has_visible s.
Proof.
  induction s as [|c s IH]; [done|]. cbn [py_lstrip has_visible].
  destruct (py_isspace c); [exact IH|done].
Qed.

Lemma py_lstrip_visible (s : string) :
  has_visible (py_lstrip s) = has_visible s.
Proof.
  induction s as [|c s IH]; [done|]. cbn [py_lstrip has_visible].
  destruct (py_isspace c) eqn:Hc; [exact IH|]. cbn [has_visible]. by rewrite Hc.
Qed.

Lemma rev_app_visible (s acc : string) :
  has_visible (String.rev_app s acc) = has_visible s || has_visible acc.
Proof.
  revert acc. induction s as [|c s IH]; intros acc; [done|].
  cbn [String.rev_app has_visible]. rewrite IH. cbn [has_visible].
  destruct (py_isspace c), (has_visible s), (has_visible acc); done.
Qed.

Lemma rev_app_truthy (s acc : string) :
  str_truthy (String.rev_app s acc) = str_truthy s || str_truthy acc.
Proof.
  revert acc. induction s as [|c s IH]; intros acc; [done|].
  cbn [String.rev_app]. rewrite IH. cbn. by rewrite orb_true_r.
Qed.

(** [strip] leaves something exactly when the string has a character that is
    not whitespace. *)
Lemma py_strip_truthy (s : string) :
  str_truthy (py_strip s) = has_visible s.
Proof.
  unfold py_strip, String.rev.
  rewrite rev_app_truthy, orb_false_r, py_lstrip_truthy.
  rewrite rev_app_visible, orb_false_r. apply py_lstrip_visible.
Qed.

(** X18. An entry counts as having a generated plan exactly when it is a
    dictionary whose [generatedPlan] is a string with at least one character
    that is not whitespace; a missing, non-string, empty or blank plan
    scores 0. *)
Theorem generated_plan_score_visible (item : json) :
  generated_plan_score item = 1
  ↔ ∃ fields plan, item = JDict fields
      ∧ fields !! "generatedPlan" = Some (JStr plan)
      ∧ has_visible plan = true.
Proof.
  unfold generated_plan_score. split.
  - destruct item as [| | | | | |fields]; try done.
    destruct (fields !! "generatedPlan") as [[| | | |plan| |]|] eqn:Hplan;
      try done.
    rewrite py_strip_truthy. destruct (has_visible plan) eqn:Hvis; [|done].
    intros _. by exists fields, plan.
  - intros (fields & plan & -> & -> & Hvis).
    by rewrite py_strip_truthy, Hvis.
Qed.

Example generated_plan_score_blank :
  generated_plan_score (obj [("generatedPlan", JStr "   ")]) = 0.
Proof. vm_compute. reflexivity. Qed.

(** The key the code orders by is the pair of the specification: a plan that
    survives [strip] is a plan with a visible character. *)
Lemma score_plan_then_size (item : json) : score item = plan_then_size item.
Proof.
  unfold score, plan_then_size, generated_plan_score, node_count, has_plan,
    plan_text, listed_nodes, len.
  destruct item as [| | | | | |fields]; try done. f_equal.
  - destruct (fields !! "generatedPlan") as [[| | | |plan| |]|]; try done.
    by rewrite py_strip_truthy.
  - by destruct (fields !! "nodes") as [[]|].
Qed.

Lemma route_of_workflow_route (item : json) :
  route_of item = workflow_route item.
Proof.
  unfold route_of, workflow_route, workflow_id, fallback.
  destruct item as [| | | | | |fields]; try done.
  destruct (fields !! "id") as [[| | | |name| |]|]; try done.
  by destruct name.
Qed.

(** C6. For every non-empty workflow list the API returns,
    [resolve_workflow_route] answers with the route of an entry of the list
    that maximises the pair (has a generated plan with a character that is
    not whitespace, node count) in lexicographic order: ["/workflows/"]
    followed by the entry's identifier.  So when some entry has such a plan,
    the chosen entry has one too, and an entry without one is not chosen,
    however many nodes it has. *)
Theorem resolve_workflow_route_prefers_visible_plan (fetch : api)
    (base_url : string) (first : json) (others : list json) :
  fetch (base_url +:+ "/api/workflows") = Ok (JList (first :: others)) →
  ∃ best, best ∈ first :: others
    ∧ (∀ item, item ∈ first :: others →
         tuple_le (plan_then_size item) (plan_then_size best))
    ∧ resolve_workflow_route fetch base_url = Ok (workflow_route best)
    ∧ (∀ planned bare,
         planned ∈ first :: others → bare ∈ first :: others →
         has_plan planned = true → has_plan bare = false →
         has_plan best = true ∧ best ≠ bare).
Proof.
  intros Hfetch. exists (max_loop score first others).
  destruct (max_loop_spec score first others) as [Hin Hmax].
  assert (∀ item, item ∈ first :: others →
            tuple_le (plan_then_size item)
              (plan_then_size (max_loop score first others))) as Hmax'.
  { intros item Hitem. rewrite <-!score_plan_then_size. by apply Hmax. }
  split_and!; [done|exact Hmax'| |].
  - unfold resolve_workflow_route. rewrite Hfetch.
    by rewrite route_of_workflow_route.
  - intros planned bare Hplanned _ Hp Hb.
    pose proof (Hmax' planned Hplanned) as Hle.
    unfold tuple_le, plan_then_size in Hle. rewrite Hp in Hle. cbn in Hle.
    destruct (has_plan (max_loop score first others)) eqn:Hbest; [|lia].
    split; [done|]. intros Heq. rewrite Heq in Hbest. congruence.
Qed.

Lemma resolve_workflow_route_prefers_visible_plan_witness :
  resolve_workflow_route mock_api "http://127.0.0.1:3000"
  = Ok "/workflows/wf_planned".
Proof.
  destruct (resolve_workflow_route_prefers_visible_plan mock_api
              "http://127.0.0.1:3000"
              (obj [("id", JStr "wf_big");
                    ("nodes", JList [JNull; JNull; JNull])])
              [obj [("id", JStr "wf_planned");
                    ("nodes", JList [JNull]);
                    ("generatedPlan", JStr "1. build 2. test")]])
    as (best & Hin & _ & Hroute & Hplan).
  - reflexivity.
  - destruct (Hplan
                (obj [("id", JStr "wf_planned");
                      ("nodes", JList [JNull]);
                      ("generatedPlan", JStr "1. build 2. test")])
                (obj [("id", JStr "wf_big");
                      ("nodes", JList [JNull; JNull; JNull])]))
      as [Hbest _].
    + apply elem_of_cons. right. apply elem_of_cons. by left.
    + apply elem_of_cons. by left.
    + vm_compute. reflexivity.
    + vm_compute. reflexivity.
    + rewrite Hroute.
      apply elem_of_cons in Hin as [->|Hin].
      * vm_compute in Hbest. discriminate.
      * apply elem_of_cons in Hin as [->|Hin].
        -- vm_compute. reflexivity.
        -- by apply elem_of_nil in Hin.
Defined.

(** A generated plan that is not empty does not suffice.  The entry
    [wf_blank] has the plan [" "] and one node, the entry [wf_big] has no
    plan and three nodes; the route resolved is that of [wf_big]. *)
Lemma resolve_workflow_route_blank_plan :
  ∃ big blank,
    mock_blank_workflows = JList [big; blank]
    ∧ plan_text big = None
    ∧ plan_text blank = Some " " ∧ " " ≠ ""
    ∧ (listed_nodes blank < listed_nodes big)%nat
    ∧ workflow_id big = Some "wf_big" ∧ workflow_id blank = Some "wf_blank"
    ∧ resolve_workflow_route (λ _, Ok mock_blank_workflows)
        "http://127.0.0.1:3000"
      = Ok "/workflows/wf_big".
Proof.
  eexists _, _. split; [reflexivity|].
  split_and!; try (vm_compute; reflexivity).
  - discriminate.
  - vm_compute. lia.
Qed.

(** ** More on the reel stitcher *)

Section MoreStitchProperties.
Context `{ImageLib}.

Lemma reel_with_gaps_step (k : nat) (d : Z) (clip : frame * list frame)
    (found : list (option (frame * list frame))) (more_sources : bool) :
  (more_sources = true ↔ found ≠ []) →
  reel_with_gaps k d (Some clip :: found)
  = decoded d clip
    ++ (if more_sources then separator k d (decoded d clip) else [])
    ++ reel_with_gaps k d found.
Proof.
  intros Hb. cbn [reel_with_gaps]. rewrite <-app_assoc.
  destruct found as [|item found], more_sources; try done.
  - by destruct Hb as [Hb _]; specialize (Hb eq_refl).
  - by destruct Hb as [_ Hb]; specialize (Hb ltac:(done)).
Qed.

(** The loop of [stitch_gifs] over sources of which some are missing. *)
Lemma stitch_loop_gaps (files : gmap string file) (n d k : Z)
    (sources : list Path) (found : list (option (frame * list frame)))
    (j : nat) (acc : list frame) :
  Forall2 (source_is files) sources found →
  n = Z.of_nat j + len sources → 0 ≤ k →
  stitch_loop files n d k
    (zip (Z.of_nat <$> seq j (length sources)) sources) (pics acc) (durs d acc)
  = Ok (pics (acc ++ reel_with_gaps (Z.to_nat k) d found),
        durs d (acc ++ reel_with_gaps (Z.to_nat k) d found)).
Proof.
  intros Hall Hn Hk. revert j acc Hn.
  induction Hall as [|source item sources found Hsource Hall IH];
    intros j acc Hn.
  - cbn. by rewrite app_nil_r.
  - change (zip (Z.of_nat <$> seq j (length (source :: sources)))
              (source :: sources))
      with ((Z.of_nat j, source)
            :: zip (Z.of_nat <$> seq (S j) (length sources)) sources).
    destruct item as [clip|]; cbn [source_is] in Hsource.
    + rewrite (stitch_loop_step _ _ _ _ _ _ _ _ _ _ Hsource Hk).
      rewrite (IH (S j)) by (unfold len in *; cbn [length] in *; lia).
      rewrite (reel_with_gaps_step _ _ clip found (Z.of_nat j <? n - 1)).
      * destruct clip. by rewrite <-!app_assoc.
      * apply Forall2_length in Hall. unfold len in Hn. cbn [length] in Hn.
        rewrite Z.ltb_lt. destruct found; cbn [length] in Hall; split; intros;
          try done; lia.
    + cbn [stitch_loop]. rewrite bool_decide_eq_true_2 by done.
      rewrite (IH (S j)) by (unfold len in *; cbn [length] in *; lia).
      done.
Qed.

Lemma present_before_last_cons (item : option (frame * list frame))
    (found : list (option (frame * list frame))) :
  found ≠ [] →
  present_before_last (item :: found)
  = ((if item is Some _ then 1 else 0) + present_before_last found)%nat.
Proof.
  intros Hne. unfold present_before_last.
  replace (length (item :: found) - 1)%nat with (S (length found - 1))
    by (destruct found; [done|cbn [length]; lia]).
  cbn [take omap list_omap]. by destruct item.
Qed.

Lemma present_before_last_single (item : option (frame * list frame)) :
  present_before_last [item] = 0%nat.
Proof. reflexivity. Qed.

Lemma present_frames_cons (item : option (frame * list frame))
    (found : list (option (frame * list frame))) :
  present_frames (item :: found)
  = ((if item is Some clip then clip_frames clip else 0)
     + present_frames found)%nat.
Proof. unfold present_frames. by destruct item. Qed.

Lemma length_reel_with_gaps (k : nat) (d : Z)
    (found : list (option (frame * list frame))) :
  length (reel_with_gaps k d found)
  = (present_frames found + k * present_before_last found)%nat.
Proof.
  induction found as [|item found IH]; [cbn; lia|].
  rewrite present_frames_cons.
  destruct (decide (found = [])) as [->|Hne].
  - rewrite present_before_last_single.
    destruct item as [clip|].
    + rewrite (reel_with_gaps_step _ _ _ _ false) by done.
      rewrite !length_app, length_decoded. cbn. lia.
    + cbn. lia.
  - rewrite present_before_last_cons by done.
    destruct item as [clip|].
    + rewrite (reel_with_gaps_step _ _ _ _ true) by done.
      rewrite !length_app, length_decoded, length_separator, IH. lia.
    + change (reel_with_gaps k d (None :: found))
        with ([] ++ reel_with_gaps k d found).
      rewrite app_nil_l, IH. lia.
Qed.

(** X19. Missing sources are skipped together with their separator; a clip
    is followed by [k] copies of its last frame unless it stands at the last
    position of the source list.  The stitched frame list therefore has the
    frames of the clips found plus [k] for every clip found at a position
    other than the last; when the final source is missing, the reel ends
    with a separator. *)
Theorem stitch_frames_with_missing_sources (files : gmap string file)
    (sources : list Path) (d k : Z)
    (found : list (option (frame * list frame))) :
  Forall2 (source_is files) sources found → 0 ≤ k →
  ∃ frames durations,
    stitch_frames files sources d k = Ok (frames, durations)
    ∧ frames = frame_pic <$> reel_with_gaps (Z.to_nat k) d found
    ∧ length durations = length frames
    ∧ Z.of_nat (length frames)
      = Z.of_nat (present_frames found)
        + k * Z.of_nat (present_before_last found).
Proof.
  intros Hall Hk. unfold stitch_frames, py_enumerate, py_range.
  replace (Z.to_nat (len sources)) with (length sources) by (unfold len; lia).
  pose proof (stitch_loop_gaps files (len sources) d k sources found 0 []
                Hall ltac:(lia) Hk) as Hloop.
  cbn [pics durs fmap list_fmap app] in Hloop. rewrite Hloop.
  eexists _, _. split_and!; [done|done| |].
  - by rewrite !length_fmap.
  - rewrite length_fmap, length_reel_with_gaps. lia.
Qed.

Lemma hold_loop_total (d : Z) (ticks : list Z) (frames : list picture)
    (durations : list Z) :
  frames ≠ [] → ∃ acc, hold_loop d ticks frames durations = Ok acc.
Proof.
  revert frames durations. induction ticks as [|tick ticks IH];
    intros frames durations Hne; cbn [hold_loop]; [eauto|].
  destruct (py_index_last frames Hne) as (x & -> & _). cbn [rbind].
  apply IH. by destruct frames.
Qed.

(** The loop stops at the first source that exists but is not an image. *)
Lemma stitch_loop_not_an_image (files : gmap string file) (n d k i : Z)
    (before after : list (Z * Path)) (bad : Path) (bytes : string)
    (frames : list picture) (durations : list Z) :
  Forall (λ item, ∃ found, source_is files item.2 found) before →
  files !! bad = Some (Blob bytes) →
  stitch_loop files n d k (before ++ (i, bad) :: after) frames durations
  = Raise (UnidentifiedImageError bad).
Proof.
  intros Hbefore Hbad. revert frames durations.
  induction Hbefore as [|[j source] before (found & Hfound) _ IH];
    intros frames durations; cbn [app stitch_loop].
  - rewrite bool_decide_eq_false_2 by (by rewrite Hbad).
    unfold image_open. by rewrite Hbad.
  - destruct found as [clip|]; cbn in Hfound.
    + rewrite bool_decide_eq_false_2 by (by rewrite Hfound).
      unfold image_open. rewrite Hfound. cbn [rbind fst snd].
      destruct (decode_loop d clip.1 clip.2 frames durations)
        as [frames' durations'].
      destruct ((0 <? k) && (j <? n - 1)); cbn [andb].
      * destruct (bool_decide (frames' ≠ [])) eqn:Hne.
        -- apply bool_decide_eq_true_1 in Hne.
           destruct (hold_loop_total d (py_range k) frames' durations' Hne)
             as (acc & ->).
           cbn [rbind]. apply IH.
        -- cbn [rbind]. apply IH.
      * cbn [rbind]. apply IH.
    + rewrite bool_decide_eq_true_2 by done. apply IH.
Qed.

Lemma py_enumerate_app {A} (before : list A) (x : A) (after : list A) :
  ∃ indexed_before indexed_after,
    py_enumerate (before ++ x :: after)
    = indexed_before ++ (len before, x) :: indexed_after
    ∧ Forall (λ item, item.2 ∈ before) indexed_before.
Proof.
  unfold py_enumerate, py_range.
  replace (Z.to_nat (len (before ++ x :: after)))
    with (length before + S (length after))%nat
    by (unfold len; rewrite length_app; cbn [length]; lia).
  rewrite seq_app, fmap_app. cbn [seq fmap list_fmap].
  rewrite zip_with_app by (by rewrite length_fmap, length_seq).
  cbn [zip_with]. eexists _, _. split; [done|].
  apply Forall_forall. intros [i y] Hin. by apply elem_of_zip_r in Hin.
Qed.

(** X20. A source that exists but is not an image is not skipped like a
    missing one: [stitch_gifs] raises [UnidentifiedImageError] for it (the
    sources before it being missing or images) and writes no reel. *)
Theorem stitch_gifs_not_an_image (files : gmap string file)
    (before after : list Path) (bad : Path) (bytes : string) (output : Path)
    (d k : Z) :
  Forall (λ source, ∃ found, source_is files source found) before →
  files !! bad = Some (Blob bytes) →
  stitch_gifs (before ++ bad :: after) output d k files
  = (Raise (UnidentifiedImageError bad), files).
Proof.
  intros Hbefore Hbad. unfold stitch_gifs, stitch_frames.
  destruct (py_enumerate_app before bad after) as (ib & ia & -> & Hib).
  rewrite (stitch_loop_not_an_image _ _ _ _ _ _ _ _ bytes); [done| |done].
  eapply Forall_impl; [exact Hib|]. cbn. intros [i source] Hin.
  by apply (proj1 (Forall_forall _ _) Hbefore).
Qed.

End MoreStitchProperties.

Lemma stitch_frames_with_missing_sources_witness :
  ∃ frames durations,
    @stitch_frames toy_pictures mock_files ["out/a.gif"; "out/none.gif"] 150 2
    = Ok (frames, durations)
    ∧ frames = [(Rgb, 1%nat); (Rgb, 2%nat); (Rgb, 2%nat); (Rgb, 2%nat)]
    ∧ length durations = length frames
    ∧ Z.of_nat (length frames) = 2 + 2 * 1.
Proof.
  apply (@stitch_frames_with_missing_sources toy_pictures mock_files
           ["out/a.gif"; "out/none.gif"] 150 2 [Some clip_a; None]).
  - repeat constructor.
  - lia.
Defined.

Lemma stitch_gifs_not_an_image_witness :
  @stitch_gifs toy_pictures (["out/a.gif"; "out/none.gif"] ++ "out/notes.txt" :: [])
    "out/demo-stitched.gif" 150 6
    (<["out/notes.txt" := Blob "hello"]> mock_files)
  = (Raise (UnidentifiedImageError "out/notes.txt"),
     <["out/notes.txt" := Blob "hello"]> mock_files).
Proof.
  apply (@stitch_gifs_not_an_image toy_pictures
           (<["out/notes.txt" := Blob "hello"]> mock_files)
           ["out/a.gif"; "out/none.gif"] [] "out/notes.txt" "hello").
  - constructor; [by exists (Some clip_a)|].
    constructor; [by exists None|]. constructor.
  - reflexivity.
Defined.

(** ** The reels *)

Section ReelProperties.
Context `{Engine}.

Lemma gif_path_inj (out_dir a b : string) :
  path_join out_dir (a +:+ ".gif") = path_join out_dir (b +:+ ".gif") → a = b.
Proof.
  unfold path_join. intros Heq.
  apply (inj (String.app out_dir)) in Heq.
  apply (inj (String.app "/")) in Heq.
  by apply string_app_inv_tail in Heq.
Qed.

(** Writing a reel does not disturb the clips of scenarios with another
    name. *)
Lemma clips_survive (files : gmap string file) (out_dir name : string)
    (content : file) (keys : list string) (clips : list (frame * list frame)) :
  name ∉ keys →
  Forall2 (λ key clip, files !! path_join out_dir (key +:+ ".gif")
                       = Some (Animation clip.1 clip.2)) keys clips →
  Forall2 (λ key clip,
             <[path_join out_dir (name +:+ ".gif") := content]> files
               !! path_join out_dir (key +:+ ".gif")
             = Some (Animation clip.1 clip.2)) keys clips.
Proof.
  intros Hname Hall. induction Hall as [|key clip keys clips Hkey _ IH];
    [constructor|].
  apply not_elem_of_cons in Hname as [Hne Hname]. constructor; [|by apply IH].
  rewrite lookup_insert_ne; [done|].
  intros Heq. apply gif_path_inj in Heq. done.
Qed.

(** X22. With the clips of all [m >= 1] scenarios on disk, the scenario keys
    plain file names, none of them [demo-back-to-back], and no transcoder
    installed, [build_demo_reels] writes two animations and nothing else:
    for [demo-back-to-back.gif] the encoder is handed the clips' frames in
    order, for [demo-stitched.gif] the same with six copies of the last
    frame after each clip but the final one, [6 * (m - 1)] frames more; no
    video reel is produced and nothing fails. *)
Theorem build_demo_reels_frame_counts (out_dir : Path)
    (scenario_keys : list string) (frame_ms : Z) (s : state)
    (clips : list (frame * list frame)) :
  ffmpeg = None →
  scenario_keys ≠ [] →
  Forall (λ key, plain_name key = true) scenario_keys →
  "demo-back-to-back" ∉ scenario_keys →
  Forall2 (λ key clip, fs s !! path_join out_dir (key +:+ ".gif")
                       = Some (Animation clip.1 clip.2)) scenario_keys clips →
  ∃ s' b1 r1 b2 r2,
    build_demo_reels out_dir scenario_keys frame_ms s = (Ok tt, s')
    ∧ fs s' = image_save (path_join out_dir "demo-stitched.gif") b2 r2
                (image_save (path_join out_dir "demo-back-to-back.gif") b1 r1
                   (fs s))
    ∧ frames_of b1 r1 = reel 0 frame_ms clips
    ∧ frames_of b2 r2 = reel 6 frame_ms clips
    ∧ len (frames_of b1 r1) = Z.of_nat (sum_list (clip_frames <$> clips))
    ∧ len (frames_of b2 r2)
      = Z.of_nat (sum_list (clip_frames <$> clips))
        + 6 * (len scenario_keys - 1).
Proof.
  intros Hff Hne _ Hname Hall.
  assert (∀ files : gmap string file,
            Forall2 (λ key clip, files !! path_join out_dir (key +:+ ".gif")
                                 = Some (Animation clip.1 clip.2))
              scenario_keys clips →
            Forall2 (λ source clip, files !! source
                                    = Some (Animation clip.1 clip.2))
              ((λ key, path_join out_dir (key +:+ ".gif")) <$> scenario_keys)
              clips) as Hsources.
  { intros files Hfiles. by apply Forall2_fmap_l. }
  assert ((λ key, path_join out_dir (key +:+ ".gif")) <$> scenario_keys ≠ [])
    as Hne' by (by destruct scenario_keys).
  destruct (stitch_gifs_reel (fs s) _ (path_join out_dir "demo-back-to-back.gif")
              frame_ms 0 clips (Hsources _ Hall) Hne' ltac:(lia))
    as (b1 & r1 & Hreel1 & _ & Hrun1).
  pose proof (clips_survive (fs s) out_dir "demo-back-to-back"
                (gif_encode b1 r1) _ _ Hname Hall) as Hall1.
  destruct (stitch_gifs_reel _ _ (path_join out_dir "demo-stitched.gif")
              frame_ms 6 clips (Hsources _ Hall1) Hne' ltac:(lia))
    as (b2 & r2 & Hreel2 & _ & Hrun2).
  assert (length clips = length scenario_keys) as Hcount
    by (symmetry; by eapply Forall2_length).
  exists (set_fs (image_save (path_join out_dir "demo-stitched.gif") b2 r2
                    (image_save (path_join out_dir "demo-back-to-back.gif")
                       b1 r1 (fs s))) s), b1, r1, b2, r2.
  split_and!.
  - unfold build_demo_reels, bind, lift_fs. rewrite Hrun1. cbn [fs set_fs].
    change (path_join out_dir ("demo-back-to-back" +:+ ".gif"))
      with (path_join out_dir "demo-back-to-back.gif") in Hrun2.
    unfold image_save at 1. rewrite Hrun2.
    unfold stitch_webm_ffmpeg. rewrite Hff. cbn.
    by destruct s.
  - done.
  - exact Hreel1.
  - exact Hreel2.
  - unfold len. rewrite Hreel1, length_reel. cbn [Z.to_nat]. lia.
  - unfold len. rewrite Hreel2, length_reel, Hcount.
    destruct scenario_keys; [done|]. cbn [length]. lia.
Qed.

End ReelProperties.

Lemma build_demo_reels_frame_counts_witness :
  ∃ s' b1 r1 b2 r2,
    @build_demo_reels _ calm_engine "out" ["a"; "b"] 150 reel_state = (Ok tt, s')
    ∧ fs s' = image_save "out/demo-stitched.gif" b2 r2
                (image_save "out/demo-back-to-back.gif" b1 r1 mock_files)
    ∧ len (frames_of b1 r1) = 3
    ∧ len (frames_of b2 r2) = 3 + 6 * (2 - 1).
Proof.
  destruct (@build_demo_reels_frame_counts _ calm_engine "out" ["a"; "b"] 150
              reel_state [clip_a; clip_b])
    as (s' & b1 & r1 & b2 & r2 & Hrun & Hfs & _ & _ & Hlen1 & Hlen2).
  - reflexivity.
  - discriminate.
  - repeat constructor.
  - intros Hin. repeat (apply elem_of_cons in Hin as [Hin|Hin]; [discriminate|]).
    by apply elem_of_nil in Hin.
  - repeat constructor.
  - exists s', b1, r1, b2, r2.
    split_and!; [exact Hrun|exact Hfs|exact Hlen1|exact Hlen2].
Defined.

(** The two reels of the clips [a] and [b] on disk: the stitched reel holds
    as many frames as the back-to-back one, the pause being six times
    150 ms more on the last frame of [a]. *)
Example build_demo_reels_on_disk :
  let files :=
    fs (@build_demo_reels _ calm_engine "out" ["a"; "b"] 150 reel_state).2 in
  files !! "out/demo-back-to-back.gif"
  = Some (Animation
            (Frame ((Palette, 1%nat) : @picture toy_pictures) (Some 150))
            [Frame ((Palette, 2%nat) : @picture toy_pictures) (Some 150);
             Frame ((Palette, 3%nat) : @picture toy_pictures) (Some 100)])
  ∧ files !! "out/demo-stitched.gif"
    = Some (Animation
              (Frame ((Palette, 1%nat) : @picture toy_pictures) (Some 150))
              [Frame ((Palette, 2%nat) : @picture toy_pictures) (Some 1050);
               Frame ((Palette, 3%nat) : @picture toy_pictures) (Some 100)]).
Proof. vm_compute. split; reflexivity. Qed.

(** ** The click helpers *)

Section ClickProperties.
Context `{Locators}.

Lemma engine_call_inv {A} (op : browser_state → result A * browser_state)
    (s s' : state) (a : A) :
  engine_call op s = (Ok a, s') →
  ∃ b, op (browser s) = (Ok a, b) ∧ s' = set_browser b s.
Proof.
  unfold engine_call. destruct (op (browser s)) as [[a'|e] b]; [|discriminate].
  intros [= <- <-]. eauto.
Qed.

Lemma same_sink_refl (s : state) : same_sink s s.
Proof. done. Qed.

Lemma same_sink_engine_call {A}
    (op : browser_state → result A * browser_state) (s s' : state) (a : A) :
  engine_call op s = (Ok a, s') → same_sink s s'.
Proof. intros (b & _ & ->)%engine_call_inv. done. Qed.

Lemma same_sink_trans (s1 s2 s3 : state) :
  same_sink s1 s2 → same_sink s2 s3 → same_sink s1 s3.
Proof. unfold same_sink. intros (-> & -> & ->) (-> & -> & ->). done. Qed.

(** What a call of [_human_click] that returns has done to the sink. *)
Lemma human_click_inv (target : locator) (frames_dir : Path) (after : Z)
    (s s' : state) (r : bool) :
  _human_click target (snap frames_dir) after s = (Ok r, s') →
  (r = false ∧ same_sink s s')
  ∨ (r = true
     ∧ frame_index s' = frame_index s + 1
     ∧ frame_paths s'
       = frame_paths s
         ++ py_repeat (shot_path frames_dir (frame_index s)) (Z.max after 1)
     ∧ ∃ pic, fs s'
         = <[shot_path frames_dir (frame_index s) := still pic]> (fs s)).
Proof.
  unfold _human_click. intros Hrun.
  apply bind_ok_inv in Hrun as (n & s1 & Hcount & Hrun).
  pose proof (same_sink_engine_call _ _ _ _ Hcount) as Hs1.
  destruct (n =? 0).
  { injection Hrun as <- <-. by left. }
  apply bind_ok_inv in Hrun as (found & s2 & Hbox & Hrun).
  pose proof (same_sink_engine_call _ _ _ _ Hbox) as Hs2.
  apply bind_ok_inv in Hrun as ([] & s3 & Hmove & Hrun).
  assert (same_sink s2 s3) as Hs3.
  { destruct found as [b|].
    - apply bind_ok_inv in Hmove as ([] & sm & Hm & Hw).
      eapply same_sink_trans; by eapply same_sink_engine_call.
    - injection Hmove as <-. done. }
  apply bind_ok_inv in Hrun as ([] & s4 & Hclick & Hrun).
  pose proof (same_sink_engine_call _ _ _ _ Hclick) as Hs4.
  apply bind_ok_inv in Hrun as ([] & s5 & Hwait & Hrun).
  pose proof (same_sink_engine_call _ _ _ _ Hwait) as Hs5.
  apply bind_ok_inv in Hrun as ([] & s6 & Hsnap & Hrun).
  injection Hrun as <- <-. right.
  assert (same_sink s s5) as (Hp & Hi & Hf).
  { repeat (eapply same_sink_trans; [eassumption|]). done. }
  apply snap_ok_inv in Hsnap as (pic & b & _ & ->). cbn.
  rewrite Hp, Hi, Hf. split_and!; [done|done|done|by exists pic].
Qed.

(** X23. When the element is absent ([count() == 0]), [_human_click]
    returns [False] having only asked for the count: it neither moves the
    pointer nor clicks nor captures a frame. *)
Theorem human_click_absent (target : locator) (hold : Z → M unit) (after : Z)
    (s : state) (b : browser_state) :
  locator_count target (browser s) = (Ok 0, b) →
  _human_click target hold after s = (Ok false, set_browser b s).
Proof.
  intros Hcount. unfold _human_click, bind, engine_call. by rewrite Hcount.
Qed.

(** X24. A call of [_human_click] bound to the frame sink that returns has
    captured at most one frame: it returns [False] with the sink untouched,
    or [True] after exactly one [snap(after)], which wrote one shot,
    recorded [max(after, 1)] references to it and advanced the index by
    one. *)
Theorem human_click_captures_once (target : locator) (frames_dir : Path)
    (after : Z) (s s' : state) (r : bool) :
  _human_click target (snap frames_dir) after s = (Ok r, s') →
  (r = false
   ∧ frame_paths s' = frame_paths s ∧ frame_index s' = frame_index s
   ∧ fs s' = fs s)
  ∨ (r = true
     ∧ frame_index s' = frame_index s + 1
     ∧ frame_paths s'
       = frame_paths s
         ++ py_repeat (shot_path frames_dir (frame_index s)) (Z.max after 1)
     ∧ ∃ pic, fs s'
         = <[shot_path frames_dir (frame_index s) := still pic]> (fs s)).
Proof. intros Hrun. by apply human_click_inv in Hrun. Qed.

(** X25. [_click_if_in_view] does not touch an element whose box lies
    outside the viewport (entirely left of or above it, or starting right of
    or below it): after asking for the count and the box it returns [False],
    without moving the pointer, clicking or capturing. *)
Theorem click_if_in_view_out_of_view (target : locator) (hold : Z → M unit)
    (after n : Z) (s : state) (b1 b2 : browser_state) (bx : box) :
  n ≠ 0 →
  locator_count target (browser s) = (Ok n, b1) →
  locator_bounding_box target b1 = (Ok (Some bx), b2) →
  out_of_view bx = true →
  _click_if_in_view target hold after s = (Ok false, set_browser b2 s).
Proof.
  intros Hn Hcount Hbox Hout.
  unfold _click_if_in_view, bind, engine_call. rewrite Hcount.
  destruct (n =? 0) eqn:Hn0; [lia|]. cbn [browser set_browser].
  rewrite Hbox, Hout. by destruct s.
Qed.

(** X26. Whatever [_click_if_in_view] finds, a call bound to the frame sink
    that returns has captured at most one frame, and exactly one when it
    returns [True]. *)
Theorem click_if_in_view_captures_once (target : locator) (frames_dir : Path)
    (after : Z) (s s' : state) (r : bool) :
  _click_if_in_view target (snap frames_dir) after s = (Ok r, s') →
  (r = false
   ∧ frame_paths s' = frame_paths s ∧ frame_index s' = frame_index s
   ∧ fs s' = fs s)
  ∨ (r = true
     ∧ frame_index s' = frame_index s + 1
     ∧ len (frame_paths s') = len (frame_paths s) + Z.max after 1).
Proof.
  unfold _click_if_in_view. intros Hrun.
  apply bind_ok_inv in Hrun as (n & s1 & Hcount & Hrun).
  pose proof (same_sink_engine_call _ _ _ _ Hcount) as Hs1.
  destruct (n =? 0).
  { injection Hrun as <- <-. by left. }
  apply bind_ok_inv in Hrun as (found & s2 & Hbox & Hrun).
  pose proof (same_sink_engine_call _ _ _ _ Hbox) as Hs2.
  assert (same_sink s s2) as (Hp & Hi & Hf) by (by eapply same_sink_trans).
  destruct found as [bx|].
  - destruct (out_of_view bx).
    + injection Hrun as <- <-. by left.
    + apply human_click_inv in Hrun as [(-> & Hp' & Hi' & Hf')|(-> & Hi' & Hp' & _)].
      * left. split_and!; [done|congruence..].
      * right. split_and!; [done|congruence|].
        rewrite Hp', len_app, len_py_repeat, Hp. lia.
  - injection Hrun as <- <-. by left.
Qed.

End ClickProperties.

Example out_of_view_right : out_of_view box_outside = true.
Proof. reflexivity. Qed.

Example out_of_view_inside : out_of_view box_inside = false.
Proof. reflexivity. Qed.

Lemma human_click_absent_witness :
  @_human_click _ _ (toy_locators calm_engine) (0, None)
    (@snap _ calm_engine "out/_frames/routing-demo") 2
    (toy_state calm_engine 0%nat)
  = (Ok false, toy_state calm_engine 0%nat).
Proof.
  apply (@human_click_absent _ _ (toy_locators calm_engine) (0, None)
           (@snap _ calm_engine "out/_frames/routing-demo") 2
           (toy_state calm_engine 0%nat) 0%nat).
  reflexivity.
Defined.

Lemma human_click_captures_once_witness :
  (true = false
   ∧ frame_paths
       (@_human_click _ _ (toy_locators calm_engine) (1, Some box_inside)
          (@snap _ calm_engine "out/_frames/routing-demo") 2
          (toy_state calm_engine 0%nat)).2 = []
   ∧ frame_index
       (@_human_click _ _ (toy_locators calm_engine) (1, Some box_inside)
          (@snap _ calm_engine "out/_frames/routing-demo") 2
          (toy_state calm_engine 0%nat)).2 = 0
   ∧ fs (@_human_click _ _ (toy_locators calm_engine) (1, Some box_inside)
           (@snap _ calm_engine "out/_frames/routing-demo") 2
           (toy_state calm_engine 0%nat)).2 = ∅)
  ∨ (true = true
     ∧ frame_index
         (@_human_click _ _ (toy_locators calm_engine) (1, Some box_inside)
            (@snap _ calm_engine "out/_frames/routing-demo") 2
            (toy_state calm_engine 0%nat)).2 = 0 + 1
     ∧ frame_paths
         (@_human_click _ _ (toy_locators calm_engine) (1, Some box_inside)
            (@snap _ calm_engine "out/_frames/routing-demo") 2
            (toy_state calm_engine 0%nat)).2
       = [] ++ py_repeat (shot_path "out/_frames/routing-demo" 0) (Z.max 2 1)
     ∧ ∃ pic,
         fs (@_human_click _ _ (toy_locators calm_engine) (1, Some box_inside)
               (@snap _ calm_engine "out/_frames/routing-demo") 2
               (toy_state calm_engine 0%nat)).2
         = <[shot_path "out/_frames/routing-demo" 0 := @still toy_pictures pic]> ∅).
Proof.
  apply (@human_click_captures_once _ _ (toy_locators calm_engine)
           (1, Some box_inside) "out/_frames/routing-demo" 2
           (toy_state calm_engine 0%nat)).
  reflexivity.
Defined.

Lemma click_if_in_view_out_of_view_witness :
  @_click_if_in_view _ _ (toy_locators calm_engine) (1, Some box_outside)
    (@snap _ calm_engine "out/_frames/routing-demo") 2
    (toy_state calm_engine 0%nat)
  = (Ok false, toy_state calm_engine 0%nat).
Proof.
  apply (@click_if_in_view_out_of_view _ _ (toy_locators calm_engine)
           (1, Some box_outside)
           (@snap _ calm_engine "out/_frames/routing-demo") 2 1
           (toy_state calm_engine 0%nat) 0%nat 0%nat box_outside).
  - lia.
  - reflexivity.
  - reflexivity.
  - reflexivity.
Defined.

Lemma click_if_in_view_captures_once_witness :
  (true = false
   ∧ frame_paths
       (@_click_if_in_view _ _ (toy_locators calm_engine) (1, Some box_inside)
          (@snap _ calm_engine "out/_frames/routing-demo") 2
          (toy_state calm_engine 0%nat)).2 = []
   ∧ frame_index
       (@_click_if_in_view _ _ (toy_locators calm_engine) (1, Some box_inside)
          (@snap _ calm_engine "out/_frames/routing-demo") 2
          (toy_state calm_engine 0%nat)).2 = 0
   ∧ fs (@_click_if_in_view _ _ (toy_locators calm_engine) (1, Some box_inside)
           (@snap _ calm_engine "out/_frames/routing-demo") 2
           (toy_state calm_engine 0%nat)).2 = ∅)
  ∨ (true = true
     ∧ frame_index
         (@_click_if_in_view _ _ (toy_locators calm_engine) (1, Some box_inside)
            (@snap _ calm_engine "out/_frames/routing-demo") 2
            (toy_state calm_engine 0%nat)).2 = 0 + 1
     ∧ len (frame_paths
              (@_click_if_in_view _ _ (toy_locators calm_engine)
                 (1, Some box_inside)
                 (@snap _ calm_engine "out/_frames/routing-demo") 2
                 (toy_state calm_engine 0%nat)).2)
       = len (@nil string) + Z.max 2 1).
Proof.
  apply (@click_if_in_view_captures_once _ _ (toy_locators calm_engine)
           (1, Some box_inside) "out/_frames/routing-demo" 2
           (toy_state calm_engine 0%nat)).
  reflexivity.
Defined.

(** ** The transcoder *)

Section TranscoderProperties.
Context `{Engine}.

Lemma filter_missing (files : gmap string file) (sources : list Path) :
  Forall (λ source, files !! source = None) sources →
  filter (λ source, is_Some (files !! source)) sources = [].
Proof.
  induction 1 as [|source sources Hmissing _ IH]; [done|].
  rewrite filter_cons_False; [done|]. rewrite Hmissing. by intros [? ?].
Qed.

(** X27. [stitch_webm_ffmpeg] reports success only if the output file exists
    afterwards, and it does not run the transcoder at all (returning [False]
    with every file untouched) when the transcoder is not installed or none
    of the sources exists. *)
Theorem stitch_webm_ffmpeg_result (sources : list Path) (output : Path)
    (s : state) :
  ∃ r s', stitch_webm_ffmpeg sources output s = (Ok r, s')
    ∧ (r = true → is_Some (fs s' !! output))
    ∧ (ffmpeg = None ∨ Forall (λ source, fs s !! source = None) sources →
       r = false ∧ s' = s).
Proof.
  unfold stitch_webm_ffmpeg. destruct ffmpeg as [run|] eqn:Hff.
  - unfold bind, get.
    destruct (bool_decide
                (filter (λ source, is_Some (fs s !! source)) sources = []))
      eqn:Havailable.
    + exists false, s. split_and!; [done|done|done].
    + destruct (run _ (fs s)) as [returncode files] eqn:Hrun.
      unfold modify, ret. cbn.
      eexists _, _. split_and!; [done| |].
      * intros [_ Hexists%bool_decide_eq_true_1]%andb_true_iff. done.
      * intros [?|Hmissing]; [done|].
        apply bool_decide_eq_false_1 in Havailable.
        by rewrite (filter_missing _ _ Hmissing) in Havailable.
  - exists false, s. by split_and!.
Qed.

(** X28. [maybe_convert_webm_to_mp4] never raises.  It returns [True] only
    if a transcoder is installed, its run on the conversion command ended
    with return code 0 and the [.mp4] exists afterwards; a run that ends
    with another code, or leaves no [.mp4], gives [False], the files being
    as the transcoder left them; without a transcoder it returns [False] and
    changes nothing. *)
Theorem maybe_convert_webm_to_mp4_result (webm_path mp4_path : Path)
    (s : state) :
  ∃ r s', maybe_convert_webm_to_mp4 webm_path mp4_path s = (Ok r, s')
    ∧ (r = true →
       ∃ run, ffmpeg = Some run
         ∧ run ["-y"; "-i"; webm_path; "-movflags"; "+faststart";
                "-pix_fmt"; "yuv420p"; mp4_path] (fs s) = (0, fs s')
         ∧ is_Some (fs s' !! mp4_path))
    ∧ (∀ run returncode files,
         ffmpeg = Some run →
         run ["-y"; "-i"; webm_path; "-movflags"; "+faststart";
              "-pix_fmt"; "yuv420p"; mp4_path] (fs s) = (returncode, files) →
         fs s' = files
         ∧ (returncode ≠ 0 ∨ files !! mp4_path = None → r = false)
         ∧ (returncode = 0 → is_Some (files !! mp4_path) → r = true))
    ∧ (ffmpeg = None → r = false ∧ s' = s).
Proof.
  unfold maybe_convert_webm_to_mp4. destruct ffmpeg as [run|] eqn:Hff.
  - unfold bind, get. destruct (run _ (fs s)) as [returncode files] eqn:Hrun.
    unfold modify, ret. cbn. eexists _, _. split_and!; [done| | |done].
    + intros [Hcode%Z.eqb_eq Hexists%bool_decide_eq_true_1]%andb_true_iff.
      exists run. split_and!; [done| |done]. rewrite Hrun. by rewrite Hcode.
    + intros run' returncode' files' [= <-] Hrun'.
      rewrite Hrun in Hrun'. injection Hrun' as <- <-.
      split_and!; [done| |].
      * intros [Hcode|Hmissing].
        -- apply andb_false_iff. left. by apply Z.eqb_neq.
        -- apply andb_false_iff. right. apply bool_decide_eq_false_2.
           rewrite Hmissing. by intros [? ?].
      * intros -> Hexists. by rewrite bool_decide_eq_true_2.
  - exists false, s. split_and!; [done|done| |done].
    intros run returncode files [=].
Qed.

End TranscoderProperties.

(** A transcoder that writes the [.mp4] but ends with return code 1 does not
    count as a conversion; with return code 0 it does. *)
Example maybe_convert_webm_to_mp4_failed_run :
  (@maybe_convert_webm_to_mp4 _ (transcoding_engine 1) "out/a.webm" "out/a.mp4"
     (toy_state (transcoding_engine 1) 0%nat)).1 = Ok false.
Proof. vm_compute. reflexivity. Qed.

Example maybe_convert_webm_to_mp4_clean_run :
  (@maybe_convert_webm_to_mp4 _ (transcoding_engine 0) "out/a.webm" "out/a.mp4"
     (toy_state (transcoding_engine 0) 0%nat)).1 = Ok true.
Proof. vm_compute. reflexivity. Qed.
